(** * Gacha-history metadata reconciliation and dialect conversion

    A shallow embedding of [process_metadata.py] and [sh_to_starward.py].

    Python values are modelled as follows.
    - [str] is a Rocq [string] holding the UTF-8 encoding of the text; equality
      and emptiness are those of the text, and byte-wise lexicographic order
      coincides with Python's code-point order.
    - [Optional[str]] is [option string]; a value is falsy when it is [None]
      or the empty string.
    - [dict] is an association list in insertion order: assigning to an
      existing key keeps the key's position, assigning to a new key appends.
    - A raised exception is the left injection of a sum; in-place mutation of
      a store is a function returning the updated store.
    - File access and [json.load] are outside the model: readers start from
      the parsed JSON value, and a writer ends with the value whose text it
      writes, or with the exception of the write.
    - The models are validated as the validation library does in its
      default (lax) mode: a [str] field takes a JSON string only, an absent
      optional field takes its default, keys a model does not declare are
      dropped unless the model allows extras. *)

From Stdlib Require Import List String Ascii ZArith NArith Bool Lia.
From Stdlib Require Import Sorted Permutation DecimalString.
From Stdlib Require Import Floats.SpecFloat.
Import ListNotations.
Open Scope string_scope.
Open Scope list_scope.
Set Warnings "-register-all".

(* ================================================================== *)
(** ** Python built-ins used by the two scripts                        *)
(* ================================================================== *)

Module Py.

(** Exceptions the modelled code can raise.  [RuntimeError] carries its
    formatted message.  [RuntimeErrorFrom] is a [RuntimeError] raised
    [from] another exception: [msg] is the text in front of the cause's own
    description (which the validation library produces), and the cause is
    kept. *)
Inductive exn : Type :=
| AttributeError
| TypeError
| ValueError
| EOFError
| ValidationError
| RuntimeError (msg : string)
| RuntimeErrorFrom (msg : string) (cause : exn).

Definition result (A : Type) : Type := (exn + A)%type.

Definition raise {A} (e : exn) : result A := inl e.
Definition ret {A} (a : A) : result A := inr a.
Definition bind {A B} (m : result A) (k : A -> result B) : result B :=
  match m with
  | inl e => inl e
  | inr a => k a
  end.

(** [for x in xs: body] where the body may raise. *)
Fixpoint for_each {A S} (body : S -> A -> result S) (xs : list A) (s : S)
  : result S :=
  match xs with
  | [] => ret s
  | x :: rest => bind (body s x) (for_each body rest)
  end.

(** [[f(x) for x in xs]] where [f] may raise. *)
Fixpoint map_result {A B} (f : A -> result B) (xs : list A)
  : result (list B) :=
  match xs with
  | [] => ret []
  | x :: rest =>
      bind (f x) (fun y => bind (map_result f rest) (fun ys => ret (y :: ys)))
  end.

(** *** Truthiness *)

Definition truthy_str (s : string) : bool := negb (s =? "").

Definition truthy (o : option string) : bool :=
  match o with
  | Some s => truthy_str s
  | None => false
  end.

(** [x or ""] for an optional string. *)
Definition or_empty (o : option string) : string :=
  match o with
  | Some s => if truthy_str s then s else ""
  | None => ""
  end.

(** [str(x)] for an optional string, as used inside f-strings. *)
Definition str_of_opt (o : option string) : string :=
  match o with
  | Some s => s
  | None => "None"
  end.

(** [str(n)] for an integer. *)
Definition str_of_int (z : Z) : string := NilZero.string_of_int (Z.to_int z).

(** *** Dictionaries *)

Definition dict (V : Type) : Type := list (string * V).

Fixpoint dict_get {V} (d : dict V) (k : string) : option V :=
  match d with
  | [] => None
  | (k', v) :: rest => if k' =? k then Some v else dict_get rest k
  end.

Definition dict_contains {V} (d : dict V) (k : string) : bool :=
  match dict_get d k with
  | Some _ => true
  | None => false
  end.

(** [d[k] = v]. *)
Fixpoint dict_set {V} (d : dict V) (k : string) (v : V) : dict V :=
  match d with
  | [] => [(k, v)]
  | (k', v') :: rest =>
      if k' =? k then (k', v) :: rest else (k', v') :: dict_set rest k v
  end.

Definition keys {V} (d : dict V) : list string := map fst d.

(** *** Text: code points of a UTF-8 string *)

Definition is_cont (b : N) : bool := ((128 <=? b) && (b <? 192))%N.

(** Code points of a string; [None] on a byte sequence that is not UTF-8
    (no Python [str] encodes to one). *)
Fixpoint code_points (s : string) : option (list N) :=
  match s with
  | EmptyString => Some []
  | String a r =>
      let b := N_of_ascii a in
      if (b <? 128)%N then option_map (cons b) (code_points r)
      else if ((192 <=? b) && (b <? 224))%N then
        match r with
        | String a1 r1 =>
            let b1 := N_of_ascii a1 in
            if is_cont b1
            then option_map (cons ((b - 192) * 64 + (b1 - 128))%N)
                   (code_points r1)
            else None
        | _ => None
        end
      else if ((224 <=? b) && (b <? 240))%N then
        match r with
        | String a1 (String a2 r2) =>
            let b1 := N_of_ascii a1 in
            let b2 := N_of_ascii a2 in
            if is_cont b1 && is_cont b2
            then option_map
                   (cons ((b - 224) * 4096 + (b1 - 128) * 64 + (b2 - 128))%N)
                   (code_points r2)
            else None
        | _ => None
        end
      else if ((240 <=? b) && (b <? 248))%N then
        match r with
        | String a1 (String a2 (String a3 r3)) =>
            let b1 := N_of_ascii a1 in
            let b2 := N_of_ascii a2 in
            let b3 := N_of_ascii a3 in
            if is_cont b1 && is_cont b2 && is_cont b3
            then option_map
                   (cons ((b - 240) * 262144 + (b1 - 128) * 4096
                          + (b2 - 128) * 64 + (b3 - 128))%N)
                   (code_points r3)
            else None
        | _ => None
        end
      else None
  end.

Definition in_range (c : N) (r : N * N) : bool :=
  ((fst r <=? c) && (c <=? snd r))%N.

(** Characters with a decimal-digit value (Unicode 14, the database of
    CPython 3.11).  Every range starts at a digit zero and runs through
    consecutive digits, so the value is the offset modulo ten. *)
Definition decimal_ranges : list (N * N) :=
  [ (48,57); (1632,1641); (1776,1785); (1984,1993); (2406,2415);
    (2534,2543); (2662,2671); (2790,2799); (2918,2927); (3046,3055);
    (3174,3183); (3302,3311); (3430,3439); (3558,3567); (3664,3673);
    (3792,3801); (3872,3881); (4160,4169); (4240,4249); (6112,6121);
    (6160,6169); (6470,6479); (6608,6617); (6784,6793); (6800,6809);
    (6992,7001); (7088,7097); (7232,7241); (7248,7257); (42528,42537);
    (43216,43225); (43264,43273); (43472,43481); (43504,43513);
    (43600,43609); (44016,44025); (65296,65305); (66720,66729);
    (68912,68921); (69734,69743); (69872,69881); (69942,69951);
    (70096,70105); (70384,70393); (70736,70745); (70864,70873);
    (71248,71257); (71360,71369); (71472,71481); (71904,71913);
    (72016,72025); (72784,72793); (73040,73049); (73120,73129);
    (92768,92777); (92864,92873); (93008,93017); (120782,120831);
    (123200,123209); (123632,123641); (125264,125273);
    (130032,130041) ]%N.

(** Characters that are digits without being decimal digits (superscripts,
    circled digits and the like): [str.isdigit] accepts them, [int] does
    not. *)
Definition other_digit_ranges : list (N * N) :=
  [ (178,179); (185,185); (4969,4977); (6618,6618); (8304,8304);
    (8308,8313); (8320,8329); (9312,9320); (9332,9340); (9352,9360);
    (9450,9450); (9461,9469); (9471,9471); (10102,10110); (10112,10120);
    (10122,10130); (68160,68163); (69216,69224); (69714,69722);
    (127232,127242) ]%N.

(** Characters [str.strip] removes. *)
Definition space_ranges : list (N * N) :=
  [ (9,13); (28,32); (133,133); (160,160); (5760,5760); (8192,8202);
    (8232,8233); (8239,8239); (8287,8287); (12288,12288) ]%N.

Definition decimal_value (c : N) : option Z :=
  match find (in_range c) decimal_ranges with
  | Some (lo, _) => Some (Z.of_N ((c - lo) mod 10))
  | None => None
  end.

Definition char_isdigit (c : N) : bool :=
  existsb (in_range c) decimal_ranges
  || existsb (in_range c) other_digit_ranges.

Definition char_isspace (c : N) : bool := existsb (in_range c) space_ranges.

(** [s.isdigit()]: at least one character, all of them digits. *)
Definition isdigit (s : string) : bool :=
  match code_points s with
  | Some (c :: cs) => forallb char_isdigit (c :: cs)
  | _ => false
  end.

Fixpoint digits_value (acc : Z) (cs : list N) : option Z :=
  match cs with
  | [] => Some acc
  | c :: rest =>
      match decimal_value c with
      | Some d => digits_value (10 * acc + d) rest
      | None => None
      end
  end.

(** [int(s)] for a string [s] on which [isdigit] holds (no sign, blank or
    underscore to consider).  [None] stands for [ValueError]: a character
    without decimal value, or more digits than the interpreter's limit
    [max_str_digits] ([sys.get_int_max_str_digits()]: 4300 unless
    reconfigured, never between 1 and 639, and 0 when the limit is disabled
    or the interpreter has none). *)
Definition int_of_digits (max_str_digits : nat) (s : string) : option Z :=
  match code_points s with
  | Some cs =>
      if (0 <? max_str_digits)%nat && (max_str_digits <? List.length cs)%nat
      then None
      else digits_value 0 cs
  | None => None
  end.

(** Bytes of one code point. *)
Definition encode_char (c : N) : string :=
  let a (n : N) := ascii_of_N n in
  if (c <? 128)%N then String (a c) ""
  else if (c <? 2048)%N then
    String (a (192 + c / 64)%N) (String (a (128 + c mod 64)%N) "")
  else if (c <? 65536)%N then
    String (a (224 + c / 4096)%N)
      (String (a (128 + (c / 64) mod 64)%N)
         (String (a (128 + c mod 64)%N) ""))
  else
    String (a (240 + c / 262144)%N)
      (String (a (128 + (c / 4096) mod 64)%N)
         (String (a (128 + (c / 64) mod 64)%N)
            (String (a (128 + c mod 64)%N) ""))).

Definition encode (cs : list N) : string :=
  fold_right (fun c s => (encode_char c ++ s)%string) "" cs.

Fixpoint drop_while {A} (p : A -> bool) (l : list A) : list A :=
  match l with
  | [] => []
  | x :: rest => if p x then drop_while p rest else l
  end.

(** [s.strip()]. *)
Definition strip (s : string) : string :=
  match code_points s with
  | Some cs =>
      encode (rev (drop_while char_isspace
                     (rev (drop_while char_isspace cs))))
  | None => s
  end.

(** *** Sorting *)

(** [sorted] is stable: an element goes in front of the first element
    that is not smaller, so equal elements keep their order. *)
Fixpoint insert_by {A} (le : A -> A -> bool) (x : A) (l : list A) : list A :=
  match l with
  | [] => [x]
  | y :: rest => if le x y then x :: l else y :: insert_by le x rest
  end.

Definition stable_sort {A} (le : A -> A -> bool) (l : list A) : list A :=
  fold_right (insert_by le) [] l.

(** [sorted(xs, key=f)]: the keys of all elements are computed first, so
    an exception in [f] leaves nothing sorted. *)
Definition sorted {A K} (le : K -> K -> bool) (f : A -> result K)
    (xs : list A) : result (list A) :=
  bind (map_result (fun x => bind (f x) (fun k => ret (k, x))) xs)
    (fun kxs =>
       ret (map snd (stable_sort (fun a b => le (fst a) (fst b)) kxs))).

(** *** Parsed JSON *)

Inductive json : Type :=
| JNull
| JBool (b : bool)
| JInt (z : Z)
| JFloat (f : spec_float)
| JStr (s : string)
| JArr (elems : list json)
| JObj (fields : list (string * json)).

End Py.

Import Py.

(* ================================================================== *)
(** ** The data models (declared alike in both scripts)                *)
(* ================================================================== *)

(** One pull of the unified dialect.  [sr_model_extra] holds the keys the
    class does not declare ([extra = "allow"]); [sr_extra] is the declared
    field named [extra]. *)
Record StarwardRecord : Type := {
  sr_uigf_gacha_type : option string;
  sr_uid : option string;
  sr_id : option string;
  sr_gacha_type : option string;
  sr_name : option string;
  sr_item_type : option string;
  sr_rank_type : option string;
  sr_time : option string;
  sr_item_id : option string;
  sr_count : option string;
  sr_lang : option string;
  sr_extra : dict json;
  sr_model_extra : dict json
}.

Record StarwardUserBundle : Type := {
  sb_uid : string;
  sb_timezone : option Z;
  sb_lang : option string;
  sb_list : list StarwardRecord
}.

Record StarwardUIGF : Type := {
  su_info : dict json;
  su_hk4e : list StarwardUserBundle;
  su_hkrpg : option (list json);
  su_nap : option (list json)
}.

Record SnapHutaoRecord : Type := {
  sh_uigf_gacha_type : option string;
  sh_gacha_type : option string;
  sh_item_id : option string;
  sh_time : option string;
  sh_id : option string;
  sh_extra : dict json;
  sh_model_extra : dict json
}.

Record SnapHutaoUserBundle : Type := {
  shb_uid : string;
  shb_timezone : option Z;
  shb_list : list SnapHutaoRecord
}.

Record SnapHutaoUIGF : Type := {
  shu_info : dict json;
  shu_hk4e : list SnapHutaoUserBundle
}.

Record StarwardMetaItem : Type := {
  name : string;
  item_type : option string;
  rank_type : option string;
  item_id : string
}.

(** [StarwardMetaDB]: the model is the value of its only field [by_id]. *)
Definition StarwardMetaDB : Type := dict StarwardMetaItem.

Definition get (db : StarwardMetaDB) (iid : string) : option StarwardMetaItem :=
  dict_get db iid.

Definition set_name (m : StarwardMetaItem) (v : string) : StarwardMetaItem :=
  {| name := v; item_type := item_type m; rank_type := rank_type m;
     item_id := item_id m |}.

Definition set_item_type (m : StarwardMetaItem) (v : option string)
  : StarwardMetaItem :=
  {| name := name m; item_type := v; rank_type := rank_type m;
     item_id := item_id m |}.

Definition set_rank_type (m : StarwardMetaItem) (v : option string)
  : StarwardMetaItem :=
  {| name := name m; item_type := item_type m; rank_type := v;
     item_id := item_id m |}.

(* ================================================================== *)
(** ** Schema validation ([model_validate] and keyword construction)   *)
(* ================================================================== *)

Section Validation.

(** The validation library's conversion of a JSON value to [int] for an
    [Optional[int]] field that is present and not null; [None] when the
    value is refused. *)
Variable lax_int : json -> option Z.

Definition field_opt_str (o : dict json) (k : string)
  : result (option string) :=
  match dict_get o k with
  | None => ret None
  | Some JNull => ret None
  | Some (JStr s) => ret (Some s)
  | Some _ => raise ValidationError
  end.

Definition field_req_str (o : dict json) (k : string) : result string :=
  match dict_get o k with
  | Some (JStr s) => ret s
  | _ => raise ValidationError
  end.

Definition field_opt_int (o : dict json) (k : string) : result (option Z) :=
  match dict_get o k with
  | None => ret None
  | Some JNull => ret None
  | Some j =>
      match lax_int j with
      | Some z => ret (Some z)
      | None => raise ValidationError
      end
  end.

(** [Dict[str, Any] = Field(default_factory=dict)]. *)
Definition field_dict_default (o : dict json) (k : string)
  : result (dict json) :=
  match dict_get o k with
  | None => ret []
  | Some (JObj d) => ret d
  | Some _ => raise ValidationError
  end.

(** [Dict[str, Any]], required. *)
Definition field_req_dict (o : dict json) (k : string) : result (dict json) :=
  match dict_get o k with
  | Some (JObj d) => ret d
  | _ => raise ValidationError
  end.

(** [List[T] = Field(default_factory=list)]. *)
Definition field_list_default {T} (item : json -> result T) (o : dict json)
    (k : string) : result (list T) :=
  match dict_get o k with
  | None => ret []
  | Some (JArr l) => map_result item l
  | Some _ => raise ValidationError
  end.

(** [Optional[List[Any]] = None]. *)
Definition field_opt_list (o : dict json) (k : string)
  : result (option (list json)) :=
  match dict_get o k with
  | None => ret None
  | Some JNull => ret None
  | Some (JArr l) => ret (Some l)
  | Some _ => raise ValidationError
  end.

(** Keys of the input the class does not declare. *)
Definition undeclared (declared : list string) (o : dict json) : dict json :=
  filter (fun kv => negb (existsb (String.eqb (fst kv)) declared)) o.

Definition validate_StarwardRecord (j : json) : result StarwardRecord :=
  match j with
  | JObj o =>
      bind (field_opt_str o "uigf_gacha_type") (fun f1 =>
      bind (field_opt_str o "uid") (fun f2 =>
      bind (field_opt_str o "id") (fun f3 =>
      bind (field_opt_str o "gacha_type") (fun f4 =>
      bind (field_opt_str o "name") (fun f5 =>
      bind (field_opt_str o "item_type") (fun f6 =>
      bind (field_opt_str o "rank_type") (fun f7 =>
      bind (field_opt_str o "time") (fun f8 =>
      bind (field_opt_str o "item_id") (fun f9 =>
      bind (field_opt_str o "count") (fun f10 =>
      bind (field_opt_str o "lang") (fun f11 =>
      bind (field_dict_default o "extra") (fun f12 =>
      ret {| sr_uigf_gacha_type := f1; sr_uid := f2; sr_id := f3;
             sr_gacha_type := f4; sr_name := f5; sr_item_type := f6;
             sr_rank_type := f7; sr_time := f8; sr_item_id := f9;
             sr_count := f10; sr_lang := f11; sr_extra := f12;
             sr_model_extra :=
               undeclared ["uigf_gacha_type"; "uid"; "id"; "gacha_type";
                           "name"; "item_type"; "rank_type"; "time";
                           "item_id"; "count"; "lang"; "extra"] o
          |}))))))))))))
  | _ => raise ValidationError
  end.

Definition validate_StarwardUserBundle (j : json)
  : result StarwardUserBundle :=
  match j with
  | JObj o =>
      bind (field_req_str o "uid") (fun u =>
      bind (field_opt_int o "timezone") (fun tz =>
      bind (field_opt_str o "lang") (fun lg =>
      bind (field_list_default validate_StarwardRecord o "list") (fun l =>
      ret {| sb_uid := u; sb_timezone := tz; sb_lang := lg;
             sb_list := l |}))))
  | _ => raise ValidationError
  end.

Definition validate_StarwardUIGF (j : json) : result StarwardUIGF :=
  match j with
  | JObj o =>
      bind (field_req_dict o "info") (fun i =>
      bind (field_list_default validate_StarwardUserBundle o "hk4e") (fun h =>
      bind (field_opt_list o "hkrpg") (fun r =>
      bind (field_opt_list o "nap") (fun n =>
      ret {| su_info := i; su_hk4e := h; su_hkrpg := r; su_nap := n |}))))
  | _ => raise ValidationError
  end.

Definition validate_SnapHutaoRecord (j : json) : result SnapHutaoRecord :=
  match j with
  | JObj o =>
      bind (field_opt_str o "uigf_gacha_type") (fun f1 =>
      bind (field_opt_str o "gacha_type") (fun f2 =>
      bind (field_opt_str o "item_id") (fun f3 =>
      bind (field_opt_str o "time") (fun f4 =>
      bind (field_opt_str o "id") (fun f5 =>
      bind (field_dict_default o "extra") (fun f6 =>
      ret {| sh_uigf_gacha_type := f1; sh_gacha_type := f2;
             sh_item_id := f3; sh_time := f4; sh_id := f5; sh_extra := f6;
             sh_model_extra :=
               undeclared ["uigf_gacha_type"; "gacha_type"; "item_id";
                           "time"; "id"; "extra"] o
          |}))))))
  | _ => raise ValidationError
  end.

Definition validate_SnapHutaoUserBundle (j : json)
  : result SnapHutaoUserBundle :=
  match j with
  | JObj o =>
      bind (field_req_str o "uid") (fun u =>
      bind (field_opt_int o "timezone") (fun tz =>
      bind (field_list_default validate_SnapHutaoRecord o "list") (fun l =>
      ret {| shb_uid := u; shb_timezone := tz; shb_list := l |})))
  | _ => raise ValidationError
  end.

Definition validate_SnapHutaoUIGF (j : json) : result SnapHutaoUIGF :=
  match j with
  | JObj o =>
      bind (field_req_dict o "info") (fun i =>
      bind (field_list_default validate_SnapHutaoUserBundle o "hk4e")
        (fun h => ret {| shu_info := i; shu_hk4e := h |}))
  | _ => raise ValidationError
  end.

(** [try: Model.model_validate(data) except Exception as e:
    raise RuntimeError(f"...{e}") from e]. *)
Definition wrap_validation {A} (msg : string) (r : result A) : result A :=
  match r with
  | inl e => raise (RuntimeErrorFrom msg e)
  | inr a => ret a
  end.

Definition read_starward_uigf4 (data : json) : result StarwardUIGF :=
  wrap_validation "Starward UIGF 验证失败: " (validate_StarwardUIGF data).

Definition read_snap_hutao_uigf4 (data : json) : result SnapHutaoUIGF :=
  wrap_validation "Snap Hutao UIGF 验证失败: " (validate_SnapHutaoUIGF data).

End Validation.

(** [StarwardMetaItem] called with [meta] unpacked as keyword arguments:
    [meta] has to be a mapping for the call itself, then the fields are
    validated. *)
Definition StarwardMetaItem_of_kwargs (meta : json) : result StarwardMetaItem :=
  match meta with
  | JObj o =>
      bind (field_req_str o "name") (fun n =>
      bind (field_opt_str o "item_type") (fun t =>
      bind (field_opt_str o "rank_type") (fun r =>
      bind (field_req_str o "item_id") (fun i =>
      ret {| name := n; item_type := t; rank_type := r; item_id := i |}))))
  | _ => raise TypeError
  end.

(** [read_starward_meta_db], from the parsed file content [data]. *)
Definition read_starward_meta_db (data : json) : result StarwardMetaDB :=
  match data with
  | JObj o =>
      let by_id :=
        match dict_get o "by_id" with
        | Some j => j
        | None => JObj []
        end in
      match by_id with
      | JObj entries =>
          for_each
            (fun db kv =>
               bind (StarwardMetaItem_of_kwargs (snd kv))
                 (fun item => ret (dict_set db (fst kv) item)))
            entries []
      | _ => raise AttributeError
      end
  | _ => raise AttributeError
  end.

(* ================================================================== *)
(** ** process_metadata.py                                             *)
(* ================================================================== *)

(** [StarwardMetaDB.add_from_record]. *)
Definition add_from_record (db : StarwardMetaDB) (rec : StarwardRecord)
  : StarwardMetaDB :=
  if negb (truthy (sr_item_id rec)) then db
  else
    let iid := str_of_opt (sr_item_id rec) in
    match dict_get db iid with
    | None =>
        dict_set db iid
          {| name := or_empty (sr_name rec);
             item_type := sr_item_type rec;
             rank_type := sr_rank_type rec;
             item_id := iid |}
    | Some meta =>
        let meta :=
          if (negb (truthy_str (name meta)) || (name meta =? ""))
             && truthy (sr_name rec)
          then set_name meta (or_empty (sr_name rec)) else meta in
        let meta :=
          if negb (truthy (item_type meta)) && truthy (sr_item_type rec)
          then set_item_type meta (sr_item_type rec) else meta in
        let meta :=
          if negb (truthy (rank_type meta)) && truthy (sr_rank_type rec)
          then set_rank_type meta (sr_rank_type rec) else meta in
        dict_set db iid meta
    end.

(** An id of the mapping file: a JSON integer or a JSON string. *)
Inductive id_value : Type :=
| IdInt (z : Z)
| IdStr (s : string).

Definition str_of_id (i : id_value) : string :=
  match i with
  | IdInt z => str_of_int z
  | IdStr s => s
  end.

(** What a display name maps to: one id, or a list of ids. *)
Inductive mapping_value : Type :=
| OneId (i : id_value)
| ManyIds (ids : list id_value).

(** [UIGF_id_name_mapping], from the parsed root object of the file. *)
Definition UIGF_id_name_mapping (name_to_id : dict mapping_value)
  : dict string * dict mapping_value :=
  let id_to_name :=
    fold_left
      (fun id_to_name kv =>
         match snd kv with
         | ManyIds ids =>
             fold_left (fun d iid => dict_set d (str_of_id iid) (fst kv))
               ids id_to_name
         | OneId ids => dict_set id_to_name (str_of_id ids) (fst kv)
         end)
      name_to_id [] in
  (id_to_name, name_to_id).

Definition build_meta_db_from_mapping (mapping_file : dict mapping_value)
  : StarwardMetaDB :=
  let id_to_name := fst (UIGF_id_name_mapping mapping_file) in
  fold_left
    (fun db kv =>
       dict_set db (fst kv)
         {| name := snd kv; item_type := None; rank_type := None;
            item_id := fst kv |})
    id_to_name [].

Definition ITEM_TYPES : list string := ["武器"; "角色"].
Definition RANK_CHOICES : list string := ["1"; "2"; "3"; "4"; "5"].

(** The sort key of [prompt_missing_meta_fields]: the tuple [(0, int(k))]
    or [(1, str(k))]. *)
Inductive sort_key : Type :=
| KNum (n : Z)
| KStr (s : string).

(** Tuple comparison [a < b]. *)
Definition key_lt (a b : sort_key) : bool :=
  match a, b with
  | KNum x, KNum y => (x <? y)%Z
  | KNum _, KStr _ => true
  | KStr _, KNum _ => false
  | KStr s, KStr t => (s <? t)%string
  end.

Definition key_le (a b : sort_key) : bool := negb (key_lt b a).

Section Pending.

(** The interpreter's limit on the digits [int] converts. *)
Variable max_str_digits : nat.

Definition _key (kv : string * StarwardMetaItem) : result sort_key :=
  let k := fst kv in
  if isdigit k then
    match int_of_digits max_str_digits k with
    | Some n => ret (KNum n)
    | None => raise ValueError
    end
  else ret (KStr k).

(** [items]: the store's entries sorted by [_key], or in the store's own
    order when sorting raised. *)
Definition items (sw_meta_db : StarwardMetaDB)
  : list (string * StarwardMetaItem) :=
  match sorted key_le _key sw_meta_db with
  | inr l => l
  | inl _ => sw_meta_db
  end.

Definition is_pending (meta : StarwardMetaItem) : bool :=
  if negb (truthy_str (item_id meta)) || negb (truthy_str (name meta))
  then false
  else negb (truthy (item_type meta)) || negb (truthy (rank_type meta)).

(** [pending]: the entries the operator is asked about. *)
Definition pending (sw_meta_db : StarwardMetaDB)
  : list (string * StarwardMetaItem) :=
  filter (fun kv => is_pending (snd kv)) (items sw_meta_db).

End Pending.

(** *** The wizard

    Every pair [(iid, meta)] of [pending] shares [meta] with the store entry
    under [iid]; the model keeps the key and reads and writes the store
    entry under it. *)
Record MetaFillWizard : Type := {
  w_db : StarwardMetaDB;
  w_items : list string;
  w_index : nat;
  w_var_type : string;
  w_var_rank : string;
  w_destroyed : bool
}.

Definition with_db (w : MetaFillWizard) (db : StarwardMetaDB) :=
  {| w_db := db; w_items := w_items w; w_index := w_index w;
     w_var_type := w_var_type w; w_var_rank := w_var_rank w;
     w_destroyed := w_destroyed w |}.

Definition with_index (w : MetaFillWizard) (i : nat) :=
  {| w_db := w_db w; w_items := w_items w; w_index := i;
     w_var_type := w_var_type w; w_var_rank := w_var_rank w;
     w_destroyed := w_destroyed w |}.

Definition with_vars (w : MetaFillWizard) (t r : string) :=
  {| w_db := w_db w; w_items := w_items w; w_index := w_index w;
     w_var_type := t; w_var_rank := r; w_destroyed := w_destroyed w |}.

Definition destroy (w : MetaFillWizard) :=
  {| w_db := w_db w; w_items := w_items w; w_index := w_index w;
     w_var_type := w_var_type w; w_var_rank := w_var_rank w;
     w_destroyed := true |}.

(** [self.items[self.index]], the entry read from the store under the key
    of the pair; [None] when the index is out of range (the handler then
    stops with an [IndexError] before changing anything). *)
Definition current (w : MetaFillWizard) : option (string * StarwardMetaItem) :=
  match nth_error (w_items w) (w_index w) with
  | Some iid =>
      match dict_get (w_db w) iid with
      | Some meta => Some (iid, meta)
      | None => None
      end
  | None => None
  end.

Definition in_list (o : option string) (l : list string) : bool :=
  match o with
  | Some s => existsb (String.eqb s) l
  | None => false
  end.

Definition load_current (w : MetaFillWizard) : MetaFillWizard :=
  match current w with
  | Some (_, meta) =>
      with_vars w
        (if in_list (item_type meta) ITEM_TYPES
         then str_of_opt (item_type meta) else "武器")
        (if in_list (rank_type meta) RANK_CHOICES
         then str_of_opt (rank_type meta) else "5")
  | None => w
  end.

Definition save_current (w : MetaFillWizard) : option MetaFillWizard :=
  match current w with
  | Some (iid, meta) =>
      let meta :=
        if negb (truthy (item_type meta))
        then set_item_type meta (Some (w_var_type w)) else meta in
      let meta :=
        if negb (truthy (rank_type meta))
        then set_rank_type meta (Some (w_var_rank w)) else meta in
      Some (with_db w (dict_set (w_db w) iid meta))
  | None => None
  end.

Definition on_prev (w : MetaFillWizard) : MetaFillWizard :=
  if (0 <? w_index w)%nat
  then load_current (with_index w (w_index w - 1))
  else w.

Definition on_skip (w : MetaFillWizard) : MetaFillWizard :=
  if (w_index w <? List.length (w_items w) - 1)%nat
  then load_current (with_index w (w_index w + 1))
  else w.

Definition on_finish (w : MetaFillWizard) : MetaFillWizard := destroy w.

Definition on_save_next (w : MetaFillWizard) : MetaFillWizard :=
  match save_current w with
  | Some w =>
      if (w_index w <? List.length (w_items w) - 1)%nat
      then load_current (with_index w (w_index w + 1))
      else on_finish w
  | None => w
  end.

(** [askyesno] returns the operator's answer [confirm]. *)
Definition on_cancel (confirm : bool) (w : MetaFillWizard) : MetaFillWizard :=
  if confirm then destroy w else w.

(** What the operator can do in the window. *)
Inductive event : Type :=
| SelectType (v : string)
| SelectRank (v : string)
| Prev
| Skip
| SaveNext
| Finish
| Cancel (confirm : bool).

Definition handle (w : MetaFillWizard) (e : event) : MetaFillWizard :=
  match e with
  | SelectType v => with_vars w v (w_var_rank w)
  | SelectRank v => with_vars w (w_var_type w) v
  | Prev => on_prev w
  | Skip => on_skip w
  | SaveNext => on_save_next w
  | Finish => on_finish w
  | Cancel confirm => on_cancel confirm w
  end.

(** [mainloop]: events are handled until the window is destroyed. *)
Fixpoint mainloop (w : MetaFillWizard) (evs : list event) : MetaFillWizard :=
  match evs with
  | [] => w
  | e :: rest => if w_destroyed w then w else mainloop (handle w e) rest
  end.

Definition MetaFillWizard_init (db : StarwardMetaDB) (its : list string)
  : MetaFillWizard :=
  load_current
    {| w_db := db; w_items := its; w_index := 0; w_var_type := "武器";
       w_var_rank := "5"; w_destroyed := false |}.

(** [prompt_missing_meta_fields] with the window toolkit present: the
    store after the operator's events [evs]. *)
Definition prompt_missing_meta_fields (max_str_digits : nat)
    (sw_meta_db : StarwardMetaDB) (evs : list event) : StarwardMetaDB :=
  match pending max_str_digits sw_meta_db with
  | [] => sw_meta_db
  | p => w_db (mainloop (MetaFillWizard_init sw_meta_db (map fst p)) evs)
  end.

(** *** The console fallback

    [inputs] are the lines the operator types; [input()] on an exhausted
    stream raises [EOFError], which leaves the function with the fields
    written so far in place. *)

(** One [while True] loop: [read v] is [Some None] to leave the field empty,
    [Some (Some x)] to write [x], [None] to ask again. *)
Fixpoint ask (read : string -> option (option string)) (inputs : list string)
  : result (option string) * list string :=
  match inputs with
  | [] => (raise EOFError, [])
  | line :: rest =>
      match read (strip line) with
      | Some answer => (ret answer, rest)
      | None => ask read rest
      end
  end.

Definition read_item_type (v : string) : option (option string) :=
  if v =? "" then Some None
  else if v =? "1" then Some (Some "武器")
  else if v =? "2" then Some (Some "角色")
  else None.

Definition read_rank_type (v : string) : option (option string) :=
  if v =? "" then Some None
  else if existsb (String.eqb v) RANK_CHOICES then Some (Some v)
  else None.

(** The body of [for iid, meta in pending]. *)
Definition cli_item (db : StarwardMetaDB) (iid : string) (inputs : list string)
  : StarwardMetaDB * list string * option exn :=
  match dict_get db iid with
  | None => (db, inputs, None)
  | Some meta =>
      let '(r1, inputs) :=
        if negb (truthy (item_type meta)) then ask read_item_type inputs
        else (ret None, inputs) in
      match r1 with
      | inl e => (db, inputs, Some e)
      | inr a1 =>
          let meta :=
            match a1 with
            | Some x => set_item_type meta (Some x)
            | None => meta
            end in
          let db := dict_set db iid meta in
          let '(r2, inputs) :=
            if negb (truthy (rank_type meta)) then ask read_rank_type inputs
            else (ret None, inputs) in
          match r2 with
          | inl e => (db, inputs, Some e)
          | inr a2 =>
              let meta :=
                match a2 with
                | Some x => set_rank_type meta (Some x)
                | None => meta
                end in
              (dict_set db iid meta, inputs, None)
          end
      end
  end.

Fixpoint cli_loop (db : StarwardMetaDB) (its : list string)
    (inputs : list string) : StarwardMetaDB * option exn :=
  match its with
  | [] => (db, None)
  | iid :: rest =>
      match cli_item db iid inputs with
      | (db, _, Some e) => (db, Some e)
      | (db, inputs, None) => cli_loop db rest inputs
      end
  end.

(** [prompt_missing_meta_fields] past the toolkit branch: the store it
    leaves, and the exception that ended it, if any. *)
Definition prompt_missing_meta_fields_cli (max_str_digits : nat)
    (sw_meta_db : StarwardMetaDB) (inputs : list string)
  : StarwardMetaDB * option exn :=
  cli_loop sw_meta_db (map fst (pending max_str_digits sw_meta_db)) inputs.

Definition build_meta_db_from_uigf (uigf : StarwardUIGF) : StarwardMetaDB :=
  fold_left
    (fun db user => fold_left add_from_record (sb_list user) db)
    (su_hk4e uigf) [].

(** [merge_meta_db]: the store [into] is left with.  Entries of [into] are
    filled in place; a missing entry is built anew from the source entry,
    so the two stores never share an entry. *)
Definition merge_meta_db (into src : StarwardMetaDB) : StarwardMetaDB :=
  fold_left
    (fun into kv =>
       let iid := fst kv in
       let s := snd kv in
       match dict_get into iid with
       | None =>
           dict_set into iid
             {| name := if truthy_str (name s) then name s else "";
                item_type := item_type s;
                rank_type := rank_type s;
                item_id := iid |}
       | Some t =>
           let t :=
             if (negb (truthy_str (name t)) || (name t =? ""))
                && truthy_str (name s)
             then set_name t (name s) else t in
           let t :=
             if negb (truthy (item_type t)) && truthy (item_type s)
             then set_item_type t (item_type s) else t in
           let t :=
             if negb (truthy (rank_type t)) && truthy (rank_type s)
             then set_rank_type t (rank_type s) else t in
           dict_set into iid t
       end)
    src into.

(* ================================================================== *)
(** ** sh_to_starward.py                                               *)
(* ================================================================== *)

(** The keyword arguments [rec_kwargs]; [kw_extra] is [None] when the key
    [extra] is not among them. *)
Record rec_kwargs : Type := {
  kw_uigf_gacha_type : option string;
  kw_gacha_type : option string;
  kw_item_id : option string;
  kw_time : option string;
  kw_id : option string;
  kw_uid : option string;
  kw_name : option string;
  kw_item_type : option string;
  kw_rank_type : option string;
  kw_count : option string;
  kw_lang : option string;
  kw_extra : option (dict json)
}.

(** [StarwardRecord] built from [rec_kwargs]: a missing [extra] takes the
    default, an empty dict; every value is a string or [None], so
    validation accepts them. *)
Definition StarwardRecord_of_kwargs (kw : rec_kwargs) : StarwardRecord :=
  {| sr_uigf_gacha_type := kw_uigf_gacha_type kw;
     sr_uid := kw_uid kw;
     sr_id := kw_id kw;
     sr_gacha_type := kw_gacha_type kw;
     sr_name := kw_name kw;
     sr_item_type := kw_item_type kw;
     sr_rank_type := kw_rank_type kw;
     sr_time := kw_time kw;
     sr_item_id := kw_item_id kw;
     sr_count := kw_count kw;
     sr_lang := kw_lang kw;
     sr_extra := match kw_extra kw with Some d => d | None => [] end;
     sr_model_extra := [] |}.

Definition unresolved_message (iid : option string) : string :=
  ("无法在元数据数据库中找到 item_id=" ++ str_of_opt iid
   ++ " 的条目，转换失败。请先补全元数据后重试。")%string.

Definition is_none {A} (o : option A) : bool :=
  match o with
  | Some _ => false
  | None => true
  end.

(** The keyword arguments for one record, once its metadata passed the
    check. *)
Definition make_rec_kwargs (user : SnapHutaoUserBundle) (srec : SnapHutaoRecord)
    (meta : StarwardMetaItem) : rec_kwargs :=
  {| kw_uigf_gacha_type := sh_uigf_gacha_type srec;
     kw_gacha_type := sh_gacha_type srec;
     kw_item_id := sh_item_id srec;
     kw_time := sh_time srec;
     kw_id := sh_id srec;
     kw_uid := Some (shb_uid user);
     kw_name := Some (name meta);
     kw_item_type := item_type meta;
     kw_rank_type := rank_type meta;
     kw_count := Some "1";
     kw_lang := Some "zh-cn";
     kw_extra :=
       match sh_extra srec with
       | [] => None
       | _ :: _ => Some (sh_extra srec)
       end |}.

(** The body of [for srec in user.list]. *)
Definition convert_record (sw_meta_db : StarwardMetaDB)
    (user : SnapHutaoUserBundle) (bundle : StarwardUserBundle)
    (srec : SnapHutaoRecord) : result StarwardUserBundle :=
  let iid := sh_item_id srec in
  let meta :=
    match iid with
    | Some i => get sw_meta_db i
    | None => None
    end in
  match meta with
  | None => raise (RuntimeError (unresolved_message iid))
  | Some m =>
      if is_none (item_type m) || is_none (rank_type m)
      then raise (RuntimeError (unresolved_message iid))
      else
        let rec := StarwardRecord_of_kwargs (make_rec_kwargs user srec m) in
        ret {| sb_uid := sb_uid bundle; sb_timezone := sb_timezone bundle;
               sb_lang := sb_lang bundle;
               sb_list := sb_list bundle ++ [rec] |}
  end.

Definition convert_snap_hutao_to_starward (snap_uigf : SnapHutaoUIGF)
    (sw_meta_db : StarwardMetaDB) : result StarwardUIGF :=
  let export_info :=
    dict_set (shu_info snap_uigf) "export_app"
      (JStr "Converted from Snap Hutao") in
  let out :=
    {| su_info := export_info; su_hk4e := []; su_hkrpg := Some [];
       su_nap := Some [] |} in
  for_each
    (fun out user =>
       let bundle :=
         {| sb_uid := shb_uid user; sb_timezone := shb_timezone user;
            sb_lang := Some "zh-cn"; sb_list := [] |} in
       bind (for_each (convert_record sw_meta_db user) (shb_list user) bundle)
         (fun bundle =>
            ret {| su_info := su_info out;
                   su_hk4e := su_hk4e out ++ [bundle];
                   su_hkrpg := su_hkrpg out;
                   su_nap := su_nap out |}))
    (shu_hk4e snap_uigf) out.

(* ================================================================== *)
(** ** Notions used to state the properties                            *)
(* ================================================================== *)

(** The fill-if-empty rule both [add_from_record] and [merge_meta_db] apply
    to an existing entry, offered a name, a category and a rarity. *)
Definition fill (t : StarwardMetaItem) (n : string) (ty rk : option string)
  : StarwardMetaItem :=
  let t :=
    if (negb (truthy_str (name t)) || (name t =? "")) && truthy_str n
    then set_name t n else t in
  let t :=
    if negb (truthy (item_type t)) && truthy ty
    then set_item_type t ty else t in
  let t :=
    if negb (truthy (rank_type t)) && truthy rk
    then set_rank_type t rk else t in
  t.

(** One iteration of the loop of [merge_meta_db]. *)
Definition merge_entry (into : StarwardMetaDB) (kv : string * StarwardMetaItem)
  : StarwardMetaDB :=
  match dict_get into (fst kv) with
  | None =>
      dict_set into (fst kv)
        {| name := if truthy_str (name (snd kv)) then name (snd kv) else "";
           item_type := item_type (snd kv);
           rank_type := rank_type (snd kv);
           item_id := fst kv |}
  | Some t =>
      dict_set into (fst kv)
        (fill t (name (snd kv)) (item_type (snd kv)) (rank_type (snd kv)))
  end.

(** [e'] keeps every field of [e] that is not empty (and its id). *)
Definition kept (e e' : StarwardMetaItem) : Prop :=
  item_id e' = item_id e
  /\ (truthy_str (name e) = true -> name e' = name e)
  /\ (truthy (item_type e) = true -> item_type e' = item_type e)
  /\ (truthy (rank_type e) = true -> rank_type e' = rank_type e).

(** [t] has a value wherever [s] has one. *)
Definition covers (s t : StarwardMetaItem) : Prop :=
  (truthy_str (name s) = true -> truthy_str (name t) = true)
  /\ (truthy (item_type s) = true -> truthy (item_type t) = true)
  /\ (truthy (rank_type s) = true -> truthy (rank_type t) = true).

(** The operations of the merge engine, and a run of them on a store. *)
Inductive store_op : Type :=
| Merge (src : StarwardMetaDB)
| Fill (rec : StarwardRecord).

Definition apply_op (db : StarwardMetaDB) (op : store_op) : StarwardMetaDB :=
  match op with
  | Merge src => merge_meta_db db src
  | Fill rec => add_from_record db rec
  end.

Definition run_ops (db : StarwardMetaDB) (ops : list store_op) : StarwardMetaDB :=
  fold_left apply_op ops db.

(** Every entry of [src] has a counterpart in [into] that covers it. *)
Definition all_covered (src into : StarwardMetaDB) : Prop :=
  Forall (fun kv => exists t, get into (fst kv) = Some t /\ covers (snd kv) t)
    src.

(** The store entry of a record when it passes the converter's check. *)
Definition checked_meta (db : StarwardMetaDB) (srec : SnapHutaoRecord)
  : option StarwardMetaItem :=
  match sh_item_id srec with
  | Some i =>
      match get db i with
      | Some m =>
          if is_none (item_type m) || is_none (rank_type m) then None
          else Some m
      | None => None
      end
  | None => None
  end.

Definition unresolved (db : StarwardMetaDB) (srec : SnapHutaoRecord) : bool :=
  is_none (checked_meta db srec).

Definition converted_list (db : StarwardMetaDB) (user : SnapHutaoUserBundle)
    (l : list SnapHutaoRecord) : list StarwardRecord :=
  flat_map
    (fun srec =>
       match checked_meta db srec with
       | Some m => [StarwardRecord_of_kwargs (make_rec_kwargs user srec m)]
       | None => []
       end) l.

Definition converted_bundle (db : StarwardMetaDB) (user : SnapHutaoUserBundle)
  : StarwardUserBundle :=
  {| sb_uid := shb_uid user; sb_timezone := shb_timezone user;
     sb_lang := Some "zh-cn";
     sb_list := converted_list db user (shb_list user) |}.

(** All records of a document, in the order the converter visits them. *)
Definition all_records (doc : SnapHutaoUIGF) : list SnapHutaoRecord :=
  flat_map shb_list (shu_hk4e doc).

(** [r] is the unified record for [srec] of [user]: it is built from the
    keyword arguments the converter collects for [srec], among which the
    field [extra] of [srec] figures only when it has entries; identifying
    and time fields are copied, [uid] comes from the bundle, display fields
    from the store entry of the record's id, [count] and [lang] are fixed.
    The keys of [srec] that its model does not declare are not among the
    keyword arguments, and the unified record has none. *)
Definition record_converted (db : StarwardMetaDB) (user : SnapHutaoUserBundle)
    (srec : SnapHutaoRecord) (r : StarwardRecord) : Prop :=
  exists i m,
    sh_item_id srec = Some i /\ get db i = Some m
    /\ r = StarwardRecord_of_kwargs (make_rec_kwargs user srec m)
    /\ (sh_extra srec = [] -> kw_extra (make_rec_kwargs user srec m) = None)
    /\ (sh_extra srec <> [] ->
        kw_extra (make_rec_kwargs user srec m) = Some (sh_extra srec))
    /\ sr_uigf_gacha_type r = sh_uigf_gacha_type srec
    /\ sr_gacha_type r = sh_gacha_type srec
    /\ sr_item_id r = sh_item_id srec
    /\ sr_time r = sh_time srec
    /\ sr_id r = sh_id srec
    /\ sr_uid r = Some (shb_uid user)
    /\ sr_name r = Some (name m)
    /\ sr_item_type r = item_type m
    /\ sr_rank_type r = rank_type m
    /\ sr_count r = Some "1"
    /\ sr_lang r = Some "zh-cn"
    /\ sr_extra r = sh_extra srec
    /\ sr_model_extra r = [].

Definition bundle_converted (db : StarwardMetaDB) (user : SnapHutaoUserBundle)
    (b : StarwardUserBundle) : Prop :=
  sb_uid b = shb_uid user
  /\ sb_timezone b = shb_timezone user
  /\ sb_lang b = Some "zh-cn"
  /\ Forall2 (record_converted db user) (shb_list user) (sb_list b).

(** The record's id has a store entry with a category and a rarity. *)
Definition fully_resolved (db : StarwardMetaDB) (srec : SnapHutaoRecord) : Prop :=
  exists i m,
    sh_item_id srec = Some i /\ get db i = Some m
    /\ truthy (item_type m) = true /\ truthy (rank_type m) = true.

Definition aqua_db : StarwardMetaDB :=
  [("10", {| name := "Aqua Simulacra"; item_type := Some "武器";
             rank_type := Some "5"; item_id := "10" |})].

Definition aqua_doc : SnapHutaoUIGF :=
  {| shu_info := [];
     shu_hk4e :=
       [ {| shb_uid := "100000001"; shb_timezone := Some 8%Z;
            shb_list :=
              [ {| sh_uigf_gacha_type := None; sh_gacha_type := Some "301";
                   sh_item_id := Some "10";
                   sh_time := Some "2024-01-01 00:00:00"; sh_id := None;
                   sh_extra := []; sh_model_extra := [] |} ] |} ] |}.

Definition nameless_db : StarwardMetaDB :=
  [("10", {| name := ""; item_type := Some "武器"; rank_type := Some "5";
             item_id := "10" |})].

(** A record with an entry in its field [extra] and with a key the record
    model does not declare. *)
Definition noted_record : SnapHutaoRecord :=
  {| sh_uigf_gacha_type := None; sh_gacha_type := Some "301";
     sh_item_id := Some "10"; sh_time := Some "2024-01-01 00:00:00";
     sh_id := None; sh_extra := [("note", JStr "lucky")];
     sh_model_extra := [("foo", JStr "bar")] |}.

(** An export whose one record has a key the record model does not
    declare. *)
Definition tagged_doc : json :=
  JObj [("info", JObj []);
        ("hk4e",
         JArr [JObj [("uid", JStr "100000001");
                     ("timezone", JInt 8);
                     ("list",
                      JArr [JObj [("item_id", JStr "10");
                                  ("time", JStr "2024-01-01 00:00:00");
                                  ("gacha_type", JStr "301");
                                  ("foo", JStr "bar")]])]])].

Definition ids_of (v : mapping_value) : list id_value :=
  match v with
  | OneId i => [i]
  | ManyIds ids => ids
  end.

(** The pairs (id, display name) of a mapping, in the order the importer
    visits them. *)
Definition mapping_pairs (m : dict mapping_value) : list (string * string) :=
  flat_map (fun kv => map (fun i => (str_of_id i, fst kv)) (ids_of (snd kv))) m.

(** Assigning a list of pairs to a dictionary, one after the other. *)
Definition of_pairs {V} (ps : list (string * V)) (acc : dict V) : dict V :=
  fold_left (fun d p => dict_set d (fst p) (snd p)) ps acc.

Definition mapped_item (kv : string * string) : StarwardMetaItem :=
  {| name := snd kv; item_type := None; rank_type := None; item_id := fst kv |}.

(** The id [iid] appears in the mapping under the display name [nm]. *)
Definition listed (m : dict mapping_value) (iid nm : string) : Prop :=
  exists v i, In (nm, v) m /\ In i (ids_of v) /\ str_of_id i = iid.

(** The number a numeric id denotes: the id is a non-empty run of decimal
    digits. *)
Definition numeric_value (s : string) : option Z :=
  if isdigit s then
    match code_points s with
    | Some cs => digits_value 0 cs
    | None => None
    end
  else None.

(** Numeric ids by value, then the other ids in lexical order. *)
Definition id_le (a b : string) : bool :=
  match numeric_value a, numeric_value b with
  | Some x, Some y => (x <=? y)%Z
  | Some _, None => true
  | None, Some _ => false
  | None, None => (a <=? b)%string
  end.

(** An entry with an id and a name that lacks a category or a rarity. *)
Definition incomplete (m : StarwardMetaItem) : bool :=
  truthy_str (item_id m) && truthy_str (name m)
  && (negb (truthy (item_type m)) || negb (truthy (rank_type m))).

(** [isdigit] accepts the id and [int] refuses it. *)
Definition raises (max_str_digits : nat) (k : string) : bool :=
  isdigit k && is_none (int_of_digits max_str_digits k).

Definition id_key (k : string) : sort_key :=
  match numeric_value k with
  | Some n => KNum n
  | None => KStr k
  end.

Definition entry_le (a b : string * StarwardMetaItem) : bool :=
  id_le (fst a) (fst b).

(** Every character of the text is an ASCII character. *)
Fixpoint ascii_only (s : string) : bool :=
  match s with
  | EmptyString => true
  | String a r => (N_of_ascii a <? 128)%N && ascii_only r
  end.

Fixpoint bytes_of (s : string) : list N :=
  match s with
  | EmptyString => []
  | String a r => N_of_ascii a :: bytes_of r
  end.

Definition three_ids : StarwardMetaDB :=
  [("10", {| name := "Ten"; item_type := None; rank_type := None;
             item_id := "10" |});
   ("2", {| name := "Two"; item_type := Some "武器"; rank_type := None;
            item_id := "2" |});
   ("abc", {| name := "Abc"; item_type := None; rank_type := Some "4";
              item_id := "abc" |})].

(** The superscript two is a digit for [isdigit] and no number for [int]. *)
Definition superscript_ids : StarwardMetaDB :=
  [("²", {| name := "Squared"; item_type := None; rank_type := None;
            item_id := "²" |});
   ("b", {| name := "Bee"; item_type := None; rank_type := None;
            item_id := "b" |});
   ("a", {| name := "Ay"; item_type := None; rank_type := None;
            item_id := "a" |})].

(** What the resolver may do to an entry: fill an empty category or rarity,
    nothing else. *)
Definition resolved_from (e e' : StarwardMetaItem) : Prop :=
  kept e e' /\ name e' = name e.

Definition half_filled : StarwardMetaDB :=
  [("7", {| name := "Amber"; item_type := Some "角色"; rank_type := None;
            item_id := "7" |})].

Definition is_str (o : option json) : bool :=
  match o with
  | Some (JStr _) => true
  | _ => false
  end.

Definition is_opt_str (o : option json) : bool :=
  match o with
  | None => true
  | Some JNull => true
  | Some (JStr _) => true
  | Some _ => false
  end.

(** An entry of the store file: an object with string [name] and [item_id],
    and [item_type] and [rank_type] each a string, null or absent. *)
Definition entry_shape_ok (j : json) : bool :=
  match j with
  | JObj o =>
      is_str (dict_get o "name") && is_opt_str (dict_get o "item_type")
      && is_opt_str (dict_get o "rank_type") && is_str (dict_get o "item_id")
  | _ => false
  end.

(** The store file: an object whose field [by_id], when present, is an
    object mapping ids to entries. *)
Definition store_shape_ok (data : json) : bool :=
  match data with
  | JObj o =>
      match dict_get o "by_id" with
      | None => true
      | Some (JObj entries) => forallb (fun kv => entry_shape_ok (snd kv)) entries
      | Some _ => false
      end
  | _ => false
  end.

Definition is_error {A} (r : result A) : bool :=
  match r with
  | inl _ => true
  | inr _ => false
  end.

Definition store_without_by_id : json := JObj [("version", JInt 1)].

(** A user bundle of the file carries a string under [uid]. *)
Definition has_uid (j : json) : bool :=
  match j with
  | JObj o => is_str (dict_get o "uid")
  | _ => false
  end.

(** The bundle of the file is an object with an empty or missing (or
    non-string) [uid]. *)
Definition uid_empty_or_missing (j : json) : bool :=
  match j with
  | JObj o =>
      match dict_get o "uid" with
      | Some (JStr s) => s =? ""
      | _ => true
      end
  | _ => true
  end.

(** An instance of the library's conversion to [int]: integers only. *)
Definition int_only (j : json) : option Z :=
  match j with
  | JInt z => Some z
  | _ => None
  end.

Definition empty_uid_doc : json :=
  JObj [("info", JObj []); ("hk4e", JArr [JObj [("uid", JStr "")]])].

Definition only_validation {A} (r : result A) : Prop :=
  forall e, r = inl e -> e = ValidationError.

(** What a bundle of the file and the bundle read from it share. *)
Definition snap_bundle_read (j : json) (b : SnapHutaoUserBundle) : Prop :=
  exists o,
    j = JObj o /\ dict_get o "uid" = Some (JStr (shb_uid b))
    /\ (dict_get o "list" = None -> shb_list b = []).

Definition starward_bundle_read (j : json) (b : StarwardUserBundle) : Prop :=
  exists o,
    j = JObj o /\ dict_get o "uid" = Some (JStr (sb_uid b))
    /\ (dict_get o "list" = None -> sb_list b = []).

Definition missing_uid_fields : dict json :=
  [("info", JObj []);
   ("hk4e", JArr [JObj [("uid", JStr "100000001")];
                  JObj [("timezone", JInt 8)]])].

(** The shapes the two readers accept, as the models declare them. *)

Definition is_obj (o : option json) : bool :=
  match o with
  | Some (JObj _) => true
  | _ => false
  end.

(** A field with an empty dict as default: absent, or an object. *)
Definition is_opt_obj (o : option json) : bool :=
  match o with
  | None => true
  | Some (JObj _) => true
  | Some _ => false
  end.

(** An optional list of anything: absent, null, or an array. *)
Definition is_opt_arr (o : option json) : bool :=
  match o with
  | None => true
  | Some JNull => true
  | Some (JArr _) => true
  | Some _ => false
  end.

(** An optional integer: absent, null, or a value the library converts. *)
Definition is_opt_int (lax_int : json -> option Z) (o : option json) : bool :=
  match o with
  | None => true
  | Some JNull => true
  | Some j => negb (is_none (lax_int j))
  end.

(** A list with the empty list as default: absent, or an array of
    acceptable elements. *)
Definition is_opt_list_of (ok : json -> bool) (o : option json) : bool :=
  match o with
  | None => true
  | Some (JArr l) => forallb ok l
  | Some _ => false
  end.

Definition snap_record_fields : list string :=
  ["uigf_gacha_type"; "gacha_type"; "item_id"; "time"; "id"].

Definition starward_record_fields : list string :=
  ["uigf_gacha_type"; "uid"; "id"; "gacha_type"; "name"; "item_type";
   "rank_type"; "time"; "item_id"; "count"; "lang"].

(** A record: an object whose declared fields [names] are each a string,
    null or absent, and whose [extra] is an object or absent. *)
Definition record_shape_ok (names : list string) (j : json) : bool :=
  match j with
  | JObj o =>
      forallb (fun k => is_opt_str (dict_get o k)) names
      && is_opt_obj (dict_get o "extra")
  | _ => false
  end.

(** A user bundle: an object with a string under [uid], whatever the
    string; the other fields are optional, the record list included. *)
Definition snap_bundle_shape_ok (lax_int : json -> option Z) (j : json) : bool :=
  match j with
  | JObj o =>
      is_str (dict_get o "uid")
      && is_opt_int lax_int (dict_get o "timezone")
      && is_opt_list_of (record_shape_ok snap_record_fields) (dict_get o "list")
  | _ => false
  end.

Definition starward_bundle_shape_ok (lax_int : json -> option Z) (j : json)
  : bool :=
  match j with
  | JObj o =>
      is_str (dict_get o "uid")
      && is_opt_int lax_int (dict_get o "timezone")
      && is_opt_str (dict_get o "lang")
      && is_opt_list_of (record_shape_ok starward_record_fields)
           (dict_get o "list")
  | _ => false
  end.

(** A document: an object with an object under [info]; the bundle list is
    optional. *)
Definition snap_doc_shape_ok (lax_int : json -> option Z) (data : json) : bool :=
  match data with
  | JObj o =>
      is_obj (dict_get o "info")
      && is_opt_list_of (snap_bundle_shape_ok lax_int) (dict_get o "hk4e")
  | _ => false
  end.

Definition starward_doc_shape_ok (lax_int : json -> option Z) (data : json)
  : bool :=
  match data with
  | JObj o =>
      is_obj (dict_get o "info")
      && is_opt_list_of (starward_bundle_shape_ok lax_int) (dict_get o "hk4e")
      && is_opt_arr (dict_get o "hkrpg")
      && is_opt_arr (dict_get o "nap")
  | _ => false
  end.

(** The user bundles of a document of the file; none when it has no list
    of them. *)
Definition bundles_of (data : json) : list json :=
  match data with
  | JObj o =>
      match dict_get o "hk4e" with
      | Some (JArr l) => l
      | _ => []
      end
  | _ => []
  end.

(** A document with two bundles, one with the empty string as [uid] and
    no record list, one with a record list. *)
Definition two_bundle_doc : json :=
  JObj [("info", JObj [("version", JStr "v4.0")]);
        ("hk4e",
         JArr [JObj [("uid", JStr "")];
               JObj [("uid", JStr "100000001");
                     ("timezone", JInt 8);
                     ("list", JArr [JObj [("item_id", JStr "10")]])]])].

(* ================================================================== *)
(** ** The scripts' remaining functions                                *)
(* ================================================================== *)

Definition json_of_opt (o : option string) : json :=
  match o with
  | Some s => JStr s
  | None => JNull
  end.

(** [model_dump()] of a store entry: every field, in declaration order. *)
Definition StarwardMetaItem_model_dump (m : StarwardMetaItem) : json :=
  JObj [("name", JStr (name m));
        ("item_type", json_of_opt (item_type m));
        ("rank_type", json_of_opt (rank_type m));
        ("item_id", JStr (item_id m))].

Definition StarwardMetaDB_model_dump (db : StarwardMetaDB) : json :=
  JObj [("by_id",
         JObj (map (fun kv => (fst kv, StarwardMetaItem_model_dump (snd kv)))
                 db))].

(** A lone surrogate: a code point from D800 to DFFF.  A [str] can hold
    one, and [json.load] produces one from an escape such as [\ud800]; it is
    held here as the three bytes the encoding scheme gives its code point.
    UTF-8 proper has no encoding for it, so a file opened with
    [encoding="utf-8"] refuses the text. *)
Definition is_surrogate (c : N) : bool := ((55296 <=? c) && (c <=? 57343))%N.

Definition utf8_encodable (s : string) : bool :=
  match code_points s with
  | Some cs => negb (existsb is_surrogate cs)
  | None => false
  end.

(** Every string of the value, keys included, can be written to the
    file. *)
Fixpoint json_encodable (j : json) : bool :=
  match j with
  | JStr s => utf8_encodable s
  | JArr l => forallb json_encodable l
  | JObj fs =>
      forallb (fun kv => utf8_encodable (fst kv) && json_encodable (snd kv)) fs
  | _ => true
  end.

(** [output_starward_db].  [json.dump] writes [model_dump()] as text into
    the file, which is opened for writing and so emptied first.  With
    [ensure_ascii=False] the strings go out as they are: at a string the
    file cannot encode the write raises [UnicodeEncodeError], a
    [ValueError], and the file is left incomplete.  Otherwise the file
    holds the JSON text of the dumped value; the result is the value this
    text parses to, the dumped value itself. *)
Definition output_starward_db (sw_metas : StarwardMetaDB) : result json :=
  let data := StarwardMetaDB_model_dump sw_metas in
  if json_encodable data then ret data else raise ValueError.

(** [merge_mapping_and_starward].  [meta_file] is what opening and parsing
    the store file gives (an exception when the file is missing or is not
    JSON), [mapping_file] the parsed mapping, [starward_file] the parsed
    export, [evs] what the operator does in the window.  The result is the
    store the function returns, once [output_starward_db] has written it
    over the store file; when a reader raises, the file is not touched. *)
Definition merge_mapping_and_starward (lax_int : json -> option Z)
    (max_str_digits : nat) (mapping_file : dict mapping_value)
    (starward_file : json) (meta_file : result json) (evs : list event)
  : result StarwardMetaDB :=
  let base_db :=
    match bind meta_file read_starward_meta_db with
    | inr db => db
    | inl _ => []
    end in
  let mapping_db := build_meta_db_from_mapping mapping_file in
  let base_db := merge_meta_db base_db mapping_db in
  bind (read_starward_uigf4 lax_int starward_file) (fun uigf =>
    let base_db :=
      fold_left
        (fun db user => fold_left add_from_record (sb_list user) db)
        (su_hk4e uigf) base_db in
    let base_db := prompt_missing_meta_fields max_str_digits base_db evs in
    bind (output_starward_db base_db) (fun _ => ret base_db)).

(** [convert_snap_file_with_meta], from the parsed store file and the parsed
    export: the document handed to [json.dump]; when it raises, no output
    file is opened. *)
Definition convert_snap_file_with_meta (lax_int : json -> option Z)
    (meta_db_file snap_file : json) : result StarwardUIGF :=
  bind (read_starward_meta_db meta_db_file) (fun db =>
  bind (read_snap_hutao_uigf4 lax_int snap_file) (fun snap =>
  convert_snap_hutao_to_starward snap db)).

(* ================================================================== *)
(** ** Further notions                                                 *)
(* ================================================================== *)

(** The entry [merge_meta_db] leaves under an id the source has: a copy
    with the key as id when the target had none, the target's entry with
    its empty fields filled otherwise. *)
Definition merged_entry (iid : string) (t : option StarwardMetaItem)
    (s : StarwardMetaItem) : StarwardMetaItem :=
  match t with
  | None =>
      {| name := name s; item_type := item_type s; rank_type := rank_type s;
         item_id := iid |}
  | Some t =>
      {| name := if truthy_str (name t) then name t else name s;
         item_type :=
           if truthy (item_type t) then item_type t
           else if truthy (item_type s) then item_type s else item_type t;
         rank_type :=
           if truthy (rank_type t) then rank_type t
           else if truthy (rank_type s) then rank_type s else rank_type t;
         item_id := item_id t |}
  end.

Definition sample_record (iid nm ty rk : option string) : StarwardRecord :=
  {| sr_uigf_gacha_type := None; sr_uid := None; sr_id := None;
     sr_gacha_type := None; sr_name := nm; sr_item_type := ty;
     sr_rank_type := rk; sr_time := None; sr_item_id := iid;
     sr_count := None; sr_lang := None; sr_extra := [];
     sr_model_extra := [] |}.

Definition sword_store : StarwardMetaDB :=
  [("1", {| name := "Sword"; item_type := None; rank_type := Some "4";
            item_id := "1" |});
   ("2", {| name := ""; item_type := Some "角色"; rank_type := None;
            item_id := "2" |})].

Definition blade_store : StarwardMetaDB :=
  [("2", {| name := "Amber"; item_type := Some "武器"; rank_type := Some "5";
            item_id := "two" |});
   ("3", {| name := "Bow"; item_type := None; rank_type := None;
            item_id := "" |})].

(** The records of a unified document, in the order
    [build_meta_db_from_uigf] visits them. *)
Definition all_starward_records (uigf : StarwardUIGF) : list StarwardRecord :=
  flat_map sb_list (su_hk4e uigf).

(** The three fields a record can fill, read from an entry and from a
    record. *)
Inductive meta_field : Type :=
| FName
| FItemType
| FRankType.

Definition entry_field (f : meta_field) (m : StarwardMetaItem) : option string :=
  match f with
  | FName => Some (name m)
  | FItemType => item_type m
  | FRankType => rank_type m
  end.

Definition record_field (f : meta_field) (r : StarwardRecord) : option string :=
  match f with
  | FName => sr_name r
  | FItemType => sr_item_type r
  | FRankType => sr_rank_type r
  end.

(** The store has nothing under [k], or an entry whose field [f] is
    empty. *)
Definition empty_at (db : StarwardMetaDB) (k : string) (f : meta_field) : Prop :=
  match get db k with
  | None => True
  | Some e => truthy (entry_field f e) = false
  end.

Definition two_pulls : StarwardUIGF :=
  {| su_info := [];
     su_hk4e :=
       [ {| sb_uid := "100000001"; sb_timezone := None; sb_lang := None;
            sb_list :=
              [ sample_record (Some "10") None (Some "") (Some "5");
                sample_record (Some "11") (Some "Bow") None None ] |};
         {| sb_uid := "100000002"; sb_timezone := None; sb_lang := None;
            sb_list :=
              [ sample_record (Some "10") (Some "Aqua") (Some "武器")
                  (Some "4");
                sample_record (Some "") (Some "Nobody") None None;
                sample_record (Some "10") (Some "Other") (Some "角色")
                  None ] |} ];
     su_hkrpg := None; su_nap := None |}.

Definition sword_mapping : dict mapping_value :=
  [("Sword", ManyIds [IdInt 1; IdInt 2]);
   ("Blade", OneId (IdStr "1"));
   ("Bow", OneId (IdInt 3))].

(** Ending the wizard: the finish button, or a confirmed cancel. *)
Definition closes (e : event) : bool :=
  match e with
  | Finish => true
  | Cancel confirm => confirm
  | _ => false
  end.

Definition is_save (e : event) : bool :=
  match e with
  | SaveNext => true
  | _ => false
  end.

Definition mixed_store : StarwardMetaDB :=
  [("20", {| name := "Lisa"; item_type := None; rank_type := None;
             item_id := "20" |});
   ("3", {| name := "Bow"; item_type := Some "武器"; rank_type := Some "3";
            item_id := "3" |});
   ("7", {| name := "Amber"; item_type := Some "角色"; rank_type := None;
            item_id := "7" |})].

(** The store has an entry under [k] with a category and a rarity. *)
Definition complete_at (db : StarwardMetaDB) (k : string) : Prop :=
  exists e,
    get db k = Some e
    /\ truthy (item_type e) = true /\ truthy (rank_type e) = true.

(** The wizard shows entry [i] of [its], both selections hold a value, every
    id of [its] is in the store, and the entries before [i] are complete. *)
Definition wizard_at (its : list string) (i : nat) (w : MetaFillWizard) : Prop :=
  w_items w = its /\ w_index w = i /\ w_destroyed w = false
  /\ truthy_str (w_var_type w) = true /\ truthy_str (w_var_rank w) = true
  /\ (forall k, In k its -> get (w_db w) k <> None)
  /\ (forall j k, (j < i)%nat -> nth_error its j = Some k ->
                  complete_at (w_db w) k).

Definition declared_snap_fields : list string :=
  ["uigf_gacha_type"; "gacha_type"; "item_id"; "time"; "id"; "extra"].

Definition with_model_extra (r : SnapHutaoRecord) (x : dict json)
  : SnapHutaoRecord :=
  {| sh_uigf_gacha_type := sh_uigf_gacha_type r;
     sh_gacha_type := sh_gacha_type r;
     sh_item_id := sh_item_id r;
     sh_time := sh_time r;
     sh_id := sh_id r;
     sh_extra := sh_extra r;
     sh_model_extra := x |}.

Definition snap_record (iid : option string) : SnapHutaoRecord :=
  {| sh_uigf_gacha_type := Some "301"; sh_gacha_type := Some "301";
     sh_item_id := iid; sh_time := Some "2024-01-01 00:00:00";
     sh_id := Some "1700000000000000001"; sh_extra := [];
     sh_model_extra := [] |}.

Definition two_user_doc : SnapHutaoUIGF :=
  {| shu_info := [("export_app", JStr "Snap Hutao"); ("version", JStr "v4.0")];
     shu_hk4e :=
       [ {| shb_uid := "100000001"; shb_timezone := Some 8%Z;
            shb_list := [snap_record (Some "10")] |};
         {| shb_uid := "100000002"; shb_timezone := None;
            shb_list := [snap_record (Some "99"); snap_record None] |} ] |}.

Definition bow_export : json :=
  JObj [("info", JObj []);
        ("hk4e",
         JArr [JObj [("uid", JStr "100000001");
                     ("list",
                      JArr [JObj [("item_id", JStr "1");
                                  ("name", JStr "Knife");
                                  ("item_type", JStr "武器");
                                  ("rank_type", JStr "3")]])]])].

Definition aqua_record : SnapHutaoRecord :=
  {| sh_uigf_gacha_type := None; sh_gacha_type := Some "301";
     sh_item_id := Some "10"; sh_time := Some "2024-01-01 00:00:00";
     sh_id := None; sh_extra := []; sh_model_extra := [] |}.

(** The ids and the fields of the store are text without lone
    surrogates. *)
Definition opt_encodable (o : option string) : bool :=
  match o with
  | Some s => utf8_encodable s
  | None => true
  end.

Definition entry_is_text (kv : string * StarwardMetaItem) : bool :=
  utf8_encodable (fst kv)
  && (utf8_encodable (name (snd kv)) && opt_encodable (item_type (snd kv))
      && opt_encodable (rank_type (snd kv))
      && utf8_encodable (item_id (snd kv))).

Definition store_is_text (db : StarwardMetaDB) : bool :=
  forallb entry_is_text db.

(** The lone surrogate U+D800. *)
Definition lone_surrogate : string :=
  String (ascii_of_N 237) (String (ascii_of_N 160) (String (ascii_of_N 128) "")).

(** A store file with a lone surrogate as an id, and the store it loads
    as. *)
Definition surrogate_file : json :=
  JObj [("by_id",
         JObj [(lone_surrogate,
                JObj [("name", JStr "Sword"); ("item_id", JStr "1")])])].

Definition surrogate_store : StarwardMetaDB :=
  [(lone_surrogate,
    {| name := "Sword"; item_type := None; rank_type := None;
       item_id := "1" |})].

(** The content of the store file of [sword_store]. *)
Definition sword_file : json :=
  JObj [("by_id",
         JObj [("1", JObj [("name", JStr "Sword"); ("item_type", JNull);
                           ("rank_type", JStr "4"); ("item_id", JStr "1")]);
               ("2", JObj [("name", JStr ""); ("item_type", JStr "角色");
                           ("rank_type", JNull); ("item_id", JStr "2")])])].

(** The content of the store file of [aqua_db], and an export with the
    record of the specification's example. *)
Definition aqua_file : json :=
  JObj [("by_id",
         JObj [("10", JObj [("name", JStr "Aqua Simulacra");
                            ("item_type", JStr "武器");
                            ("rank_type", JStr "5");
                            ("item_id", JStr "10")])])].

Definition aqua_export : json :=
  JObj [("info", JObj []);
        ("hk4e",
         JArr [JObj [("uid", JStr "100000001");
                     ("timezone", JInt 8);
                     ("list",
                      JArr [JObj [("item_id", JStr "10");
                                  ("time", JStr "2024-01-01 00:00:00");
                                  ("gacha_type", JStr "301")]])]])].

(** What the console fallback may do to an entry: write one of the listed
    categories where there is none, one of the listed rarities where there
    is none, and nothing else. *)
Definition console_wrote (e e' : StarwardMetaItem) : Prop :=
  name e' = name e /\ item_id e' = item_id e
  /\ (item_type e' = item_type e
      \/ (truthy (item_type e) = false
          /\ in_list (item_type e') ITEM_TYPES = true))
  /\ (rank_type e' = rank_type e
      \/ (truthy (rank_type e) = false
          /\ in_list (rank_type e') RANK_CHOICES = true)).

(* ================================================================== *)
(** ** Dictionaries                                                    *)
(* ================================================================== *)

Section DictFacts.

Context {V : Type}.
Implicit Types (d : dict V) (k : string) (v : V).

Lemma dict_get_set_eq d k v : dict_get (dict_set d k v) k = Some v.
Proof.
  induction d as [|[k' v'] d IH]; simpl.
  - now rewrite String.eqb_refl.
  - destruct (k' =? k) eqn:E; simpl; rewrite E; auto.
Qed.

Lemma dict_get_set_ne d k k' v :
  k <> k' -> dict_get (dict_set d k v) k' = dict_get d k'.
Proof.
  intros Hne. induction d as [|[k0 v0] d IH]; simpl.
  - apply String.eqb_neq in Hne. now rewrite Hne.
  - destruct (k0 =? k) eqn:E; simpl.
    + apply String.eqb_eq in E. subst k0.
      apply String.eqb_neq in Hne. now rewrite Hne.
    + now rewrite IH.
Qed.

Lemma dict_set_same d k v : dict_get d k = Some v -> dict_set d k v = d.
Proof.
  induction d as [|[k0 v0] d IH]; simpl; [discriminate|].
  destruct (k0 =? k) eqn:E; intros H.
  - now inversion H.
  - now rewrite IH.
Qed.

Lemma dict_get_In d k v : dict_get d k = Some v -> In (k, v) d.
Proof.
  induction d as [|[k0 v0] d IH]; simpl; [discriminate|].
  destruct (k0 =? k) eqn:E; intros H.
  - apply String.eqb_eq in E. inversion H. subst. now left.
  - right. auto.
Qed.

Lemma dict_get_None d k : dict_get d k = None <-> ~ In k (keys d).
Proof.
  induction d as [|[k0 v0] d IH]; simpl.
  - tauto.
  - destruct (k0 =? k) eqn:E.
    + apply String.eqb_eq in E. split; [discriminate | intros H; exfalso; auto].
    + apply String.eqb_neq in E. rewrite IH. tauto.
Qed.

Lemma In_dict_get d k v :
  NoDup (keys d) -> In (k, v) d -> dict_get d k = Some v.
Proof.
  induction d as [|[k0 v0] d IH]; simpl; [tauto|].
  intros Hnd [Heq | Hin].
  - inversion Heq. subst. now rewrite String.eqb_refl.
  - inversion Hnd as [|? ? Hnotin Hnd']. subst.
    destruct (k0 =? k) eqn:E.
    + apply String.eqb_eq in E. subst k0. exfalso. apply Hnotin.
      change k with (fst (k, v)). now apply in_map.
    + auto.
Qed.

Lemma keys_dict_set d k v :
  keys (dict_set d k v)
  = if dict_contains d k then keys d else (keys d ++ [k])%list.
Proof.
  unfold dict_contains.
  induction d as [|[k0 v0] d IH]; simpl; [reflexivity|].
  destruct (k0 =? k) eqn:E; simpl; [reflexivity|].
  rewrite IH. now destruct (dict_get d k).
Qed.

Lemma NoDup_dict_set d k v : NoDup (keys d) -> NoDup (keys (dict_set d k v)).
Proof.
  intros Hnd. rewrite keys_dict_set. unfold dict_contains.
  destruct (dict_get d k) eqn:E; [assumption|].
  apply dict_get_None in E.
  apply NoDup_rev in Hnd. rewrite <- (rev_involutive (keys d ++ [k])%list).
  apply NoDup_rev. rewrite rev_app_distr. simpl. constructor; [|assumption].
  now rewrite <- in_rev.
Qed.

End DictFacts.

(* ================================================================== *)
(** ** The merge engine                                                *)
(* ================================================================== *)

Lemma truthy_or_empty o : truthy_str (or_empty o) = truthy o.
Proof.
  destruct o as [s|]; simpl; [|reflexivity].
  destruct (truthy_str s) eqn:E; [assumption | reflexivity].
Qed.

Lemma truthy_str_true s : truthy_str s = true <-> s <> "".
Proof.
  unfold truthy_str. rewrite negb_true_iff. apply String.eqb_neq.
Qed.

Lemma add_from_record_spec db rec :
  add_from_record db rec =
  if negb (truthy (sr_item_id rec)) then db
  else
    let iid := str_of_opt (sr_item_id rec) in
    match dict_get db iid with
    | None =>
        dict_set db iid
          {| name := or_empty (sr_name rec); item_type := sr_item_type rec;
             rank_type := sr_rank_type rec; item_id := iid |}
    | Some meta =>
        dict_set db iid
          (fill meta (or_empty (sr_name rec)) (sr_item_type rec)
             (sr_rank_type rec))
    end.
Proof.
  unfold add_from_record, fill. now rewrite truthy_or_empty.
Qed.

Lemma merge_meta_db_fold into src :
  merge_meta_db into src = fold_left merge_entry src into.
Proof. reflexivity. Qed.

Lemma kept_refl e : kept e e.
Proof. unfold kept. tauto. Qed.

Lemma kept_trans e1 e2 e3 : kept e1 e2 -> kept e2 e3 -> kept e1 e3.
Proof.
  unfold kept. intros (Hi & Hn & Ht & Hr) (Hi' & Hn' & Ht' & Hr').
  repeat split.
  - congruence.
  - intros H. rewrite <- (Hn H). apply Hn'. now rewrite (Hn H).
  - intros H. rewrite <- (Ht H). apply Ht'. now rewrite (Ht H).
  - intros H. rewrite <- (Hr H). apply Hr'. now rewrite (Hr H).
Qed.

Lemma fill_kept t n ty rk : kept t (fill t n ty rk).
Proof.
  unfold fill, kept.
  destruct t as [tn tt tr ti]. simpl.
  destruct (truthy_str tn) eqn:En, (truthy tt) eqn:Et, (truthy tr) eqn:Er;
    destruct (tn =? "") eqn:En'; unfold truthy_str in En; rewrite En' in En;
    try discriminate En; simpl;
    destruct (truthy_str n), (truthy ty), (truthy rk); simpl;
    rewrite ?Et, ?Er; simpl; rewrite ?Er; simpl;
    repeat split; intros; try reflexivity; try discriminate.
Qed.

Lemma fill_covers s t :
  covers s (fill t (name s) (item_type s) (rank_type s)).
Proof.
  unfold fill, covers.
  destruct t as [tn tt tr ti]. simpl.
  destruct (truthy_str tn) eqn:En, (truthy tt) eqn:Et, (truthy tr) eqn:Er;
    destruct (tn =? "") eqn:En'; unfold truthy_str in En; rewrite En' in En;
    try discriminate En; simpl;
    destruct (truthy_str (name s)) eqn:Sn, (truthy (item_type s)) eqn:St,
      (truthy (rank_type s)) eqn:Sr; simpl;
    rewrite ?Et, ?Er; simpl; rewrite ?Er; simpl;
    repeat split; intros; try assumption; try discriminate;
    unfold truthy_str; rewrite ?En'; reflexivity.
Qed.

Lemma fill_noop s t :
  covers s t -> fill t (name s) (item_type s) (rank_type s) = t.
Proof.
  unfold fill, covers. intros (Hn & Ht & Hr).
  assert (E1 : (negb (truthy_str (name t)) || (name t =? ""))
               && truthy_str (name s) = false).
  { destruct (truthy_str (name s)); [|apply andb_false_r].
    specialize (Hn eq_refl). unfold truthy_str in Hn |- *.
    destruct (name t =? ""); [discriminate | reflexivity]. }
  rewrite E1.
  assert (E2 : negb (truthy (item_type t)) && truthy (item_type s) = false).
  { destruct (truthy (item_type s)); [|apply andb_false_r].
    now rewrite (Ht eq_refl). }
  rewrite E2.
  assert (E3 : negb (truthy (rank_type t)) && truthy (rank_type s) = false).
  { destruct (truthy (rank_type s)); [|apply andb_false_r].
    now rewrite (Hr eq_refl). }
  now rewrite E3.
Qed.

Lemma kept_covers s t t' : covers s t -> kept t t' -> covers s t'.
Proof.
  unfold covers, kept. intros (Hn & Ht & Hr) (_ & Kn & Kt & Kr).
  repeat split; intros H.
  - rewrite (Kn (Hn H)). auto.
  - rewrite (Kt (Ht H)). auto.
  - rewrite (Kr (Hr H)). auto.
Qed.

(** Assigning a filled entry back under its key keeps every entry. *)
Lemma set_fill_kept db k t t' iid e :
  dict_get db k = Some t -> kept t t' ->
  get db iid = Some e ->
  exists e', get (dict_set db k t') iid = Some e' /\ kept e e'.
Proof.
  unfold get. intros Hk Hkept He.
  destruct (String.eqb_spec k iid) as [->|Hne].
  - rewrite dict_get_set_eq. exists t'. split; [reflexivity|]. congruence.
  - rewrite dict_get_set_ne by assumption. exists e. split; [assumption|].
    apply kept_refl.
Qed.

Lemma set_new_kept (db : StarwardMetaDB) k v iid e :
  dict_get db k = None ->
  get db iid = Some e ->
  exists e', get (dict_set db k v) iid = Some e' /\ kept e e'.
Proof.
  unfold get. intros Hk He.
  destruct (String.eqb_spec k iid) as [->|Hne]; [congruence|].
  rewrite dict_get_set_ne by assumption. exists e. split; [assumption|].
  apply kept_refl.
Qed.

Lemma merge_entry_kept into kv iid e :
  get into iid = Some e ->
  exists e', get (merge_entry into kv) iid = Some e' /\ kept e e'.
Proof.
  intros He. unfold merge_entry.
  destruct (dict_get into (fst kv)) as [t|] eqn:E.
  - eapply set_fill_kept; eauto using fill_kept.
  - now apply set_new_kept.
Qed.

Lemma merge_kept src : forall into iid e,
  get into iid = Some e ->
  exists e', get (merge_meta_db into src) iid = Some e' /\ kept e e'.
Proof.
  induction src as [|kv src IH]; intros into iid e He.
  - exists e. split; [assumption | apply kept_refl].
  - rewrite merge_meta_db_fold. simpl. rewrite <- merge_meta_db_fold.
    destruct (merge_entry_kept into kv iid e He) as (e1 & H1 & K1).
    destruct (IH _ _ _ H1) as (e2 & H2 & K2).
    exists e2. split; [assumption|]. eapply kept_trans; eauto.
Qed.

Lemma add_from_record_kept db rec iid e :
  get db iid = Some e ->
  exists e', get (add_from_record db rec) iid = Some e' /\ kept e e'.
Proof.
  intros He. rewrite add_from_record_spec.
  destruct (negb (truthy (sr_item_id rec))).
  - exists e. split; [assumption | apply kept_refl].
  - cbv zeta.
    destruct (dict_get db (str_of_opt (sr_item_id rec))) as [t|] eqn:E.
    + eapply set_fill_kept; eauto using fill_kept.
    + now apply set_new_kept.
Qed.

Lemma apply_op_kept db op iid e :
  get db iid = Some e ->
  exists e', get (apply_op db op) iid = Some e' /\ kept e e'.
Proof.
  destruct op; simpl; [apply merge_kept | apply add_from_record_kept].
Qed.

(** C2. Fill-only invariant: whatever merges and record fills follow, an
    entry of the store is still there, and each of its fields [name],
    [item_type], [rank_type] that was not empty has the value it had (as has
    its [item_id]), whatever the sources offered. *)
Theorem fill_only_invariant (ops : list store_op) :
  forall (db : StarwardMetaDB) (iid : string) (e : StarwardMetaItem),
    get db iid = Some e ->
    exists e', get (run_ops db ops) iid = Some e' /\ kept e e'.
Proof.
  induction ops as [|op ops IH]; intros db iid e He.
  - exists e. split; [assumption | apply kept_refl].
  - unfold run_ops. simpl.
    destruct (apply_op_kept db op iid e He) as (e1 & H1 & K1).
    destruct (IH _ _ _ H1) as (e2 & H2 & K2).
    exists e2. split; [assumption|]. eapply kept_trans; eauto.
Qed.

(** A concrete run: a merge offering other values, then a record fill. *)
Lemma fill_only_invariant_witness :
  let e := {| name := "Sword"; item_type := Some "武器"; rank_type := None;
              item_id := "1" |} in
  let src := [("1", {| name := "Blade"; item_type := Some "角色";
                       rank_type := Some "4"; item_id := "1" |})] in
  let rec := {| sr_uigf_gacha_type := None; sr_uid := None; sr_id := None;
                sr_gacha_type := None; sr_name := Some "Knife";
                sr_item_type := Some "角色"; sr_rank_type := Some "5";
                sr_time := None; sr_item_id := Some "1"; sr_count := None;
                sr_lang := None; sr_extra := []; sr_model_extra := [] |} in
  get [("1", e)] "1" = Some e
  /\ exists e', get (run_ops [("1", e)] [Merge src; Fill rec]) "1" = Some e'
                /\ kept e e'.
Proof.
  intros e src rec. split; [reflexivity|].
  apply (fill_only_invariant [Merge src; Fill rec] [("1", e)] "1" e).
  reflexivity.
Defined.

Lemma merge_entry_covered into kv :
  exists t, get (merge_entry into kv) (fst kv) = Some t /\ covers (snd kv) t.
Proof.
  unfold merge_entry, get.
  destruct (dict_get into (fst kv)) as [t|] eqn:E;
    rewrite dict_get_set_eq; eexists; (split; [reflexivity|]).
  - apply fill_covers.
  - unfold covers. simpl.
    destruct (truthy_str (name (snd kv))) eqn:En; repeat split; auto.
Qed.

Lemma merge_entry_noop into kv :
  (exists t, get into (fst kv) = Some t /\ covers (snd kv) t) ->
  merge_entry into kv = into.
Proof.
  intros (t & Ht & Hc). unfold merge_entry, get in *. rewrite Ht.
  rewrite (fill_noop _ _ Hc). now apply dict_set_same.
Qed.

Lemma merge_noop src into : all_covered src into -> merge_meta_db into src = into.
Proof.
  rewrite merge_meta_db_fold.
  induction 1 as [|kv src Hkv _ IH]; simpl; [reflexivity|].
  now rewrite (merge_entry_noop _ _ Hkv).
Qed.

Lemma merge_all_covered src : forall into,
  all_covered src (merge_meta_db into src).
Proof.
  induction src as [|kv src IH]; intros into; [constructor|].
  rewrite merge_meta_db_fold. simpl. rewrite <- merge_meta_db_fold.
  constructor; [|apply IH].
  destruct (merge_entry_covered into kv) as (t & Ht & Hc).
  destruct (merge_kept src _ _ _ Ht) as (t' & Ht' & K).
  exists t'. split; [assumption|]. eapply kept_covers; eauto.
Qed.

(** C3. Merging the same source a second time changes nothing. *)
Theorem merge_idempotent (T S : StarwardMetaDB) :
  merge_meta_db (merge_meta_db T S) S = merge_meta_db T S.
Proof. apply merge_noop, merge_all_covered. Qed.

Lemma covers_refl e : covers e e.
Proof. unfold covers. tauto. Qed.

(** The source may be the target itself: a store with distinct keys merged
    into itself is unchanged. *)
Lemma merge_self (T : StarwardMetaDB) :
  NoDup (keys T) -> merge_meta_db T T = T.
Proof.
  intros Hnd. apply merge_noop. apply Forall_forall. intros [k v] Hin.
  exists v. split; [|apply covers_refl].
  now apply In_dict_get.
Qed.

(** The operations keep the keys of a store distinct. *)
Lemma merge_meta_db_NoDup src : forall into,
  NoDup (keys into) -> NoDup (keys (merge_meta_db into src)).
Proof.
  induction src as [|kv src IH]; intros into H; [assumption|].
  rewrite merge_meta_db_fold. simpl. rewrite <- merge_meta_db_fold.
  apply IH. unfold merge_entry.
  destruct (dict_get into (fst kv)); now apply NoDup_dict_set.
Qed.

Lemma add_from_record_NoDup db rec :
  NoDup (keys db) -> NoDup (keys (add_from_record db rec)).
Proof.
  intros H. rewrite add_from_record_spec.
  destruct (negb (truthy (sr_item_id rec))); [assumption|]. cbv zeta.
  destruct (dict_get db (str_of_opt (sr_item_id rec)));
    now apply NoDup_dict_set.
Qed.

Lemma run_ops_NoDup ops : forall db,
  NoDup (keys db) -> NoDup (keys (run_ops db ops)).
Proof.
  induction ops as [|op ops IH]; intros db H; [assumption|].
  unfold run_ops. simpl. apply IH.
  destruct op; simpl;
    [now apply merge_meta_db_NoDup | now apply add_from_record_NoDup].
Qed.

(** A merge leaves the entries of other ids alone. *)
Lemma merge_entry_get_other into kv iid :
  fst kv <> iid -> get (merge_entry into kv) iid = get into iid.
Proof.
  intros Hne. unfold merge_entry, get.
  destruct (dict_get into (fst kv)); now rewrite dict_get_set_ne.
Qed.

Example merge_fills_gaps_only :
  merge_meta_db
    [("1", {| name := "Sword"; item_type := None; rank_type := Some "";
              item_id := "1" |})]
    [("1", {| name := "Blade"; item_type := Some "武器";
              rank_type := Some "4"; item_id := "x" |});
     ("2", {| name := ""; item_type := None; rank_type := Some "5";
              item_id := "y" |})]
  = [("1", {| name := "Sword"; item_type := Some "武器";
              rank_type := Some "4"; item_id := "1" |});
     ("2", {| name := ""; item_type := None; rank_type := Some "5";
              item_id := "2" |})].
Proof. reflexivity. Qed.

(* ================================================================== *)
(** ** The converter                                                   *)
(* ================================================================== *)

Lemma convert_record_spec db user bundle srec :
  convert_record db user bundle srec =
  match checked_meta db srec with
  | Some m =>
      ret {| sb_uid := sb_uid bundle; sb_timezone := sb_timezone bundle;
             sb_lang := sb_lang bundle;
             sb_list :=
               sb_list bundle
               ++ [StarwardRecord_of_kwargs (make_rec_kwargs user srec m)] |}
  | None => raise (RuntimeError (unresolved_message (sh_item_id srec)))
  end.
Proof.
  unfold convert_record, checked_meta.
  destruct (sh_item_id srec) as [i|]; [|reflexivity].
  destruct (get db i) as [m|]; [|reflexivity].
  now destruct (is_none (item_type m) || is_none (rank_type m)).
Qed.

Lemma inner_loop db user l : forall bundle,
  for_each (convert_record db user) l bundle =
  match find (unresolved db) l with
  | Some srec => raise (RuntimeError (unresolved_message (sh_item_id srec)))
  | None =>
      ret {| sb_uid := sb_uid bundle; sb_timezone := sb_timezone bundle;
             sb_lang := sb_lang bundle;
             sb_list := sb_list bundle ++ converted_list db user l |}
  end.
Proof.
  induction l as [|srec l IH]; intros bundle; simpl.
  - rewrite app_nil_r. now destruct bundle.
  - rewrite convert_record_spec. unfold unresolved at 1.
    destruct (checked_meta db srec) as [m|] eqn:E; simpl; [|reflexivity].
    rewrite IH. destruct (find (unresolved db) l); [reflexivity|].
    simpl. now rewrite <- app_assoc.
Qed.

Lemma find_app_first {A} (p : A -> bool) l1 l2 :
  find p (l1 ++ l2) =
  match find p l1 with
  | Some x => Some x
  | None => find p l2
  end.
Proof.
  induction l1 as [|x l1 IH]; simpl; [reflexivity|].
  now destruct (p x).
Qed.

Lemma outer_loop db users : forall out,
  for_each
    (fun out user =>
       let bundle :=
         {| sb_uid := shb_uid user; sb_timezone := shb_timezone user;
            sb_lang := Some "zh-cn"; sb_list := [] |} in
       bind (for_each (convert_record db user) (shb_list user) bundle)
         (fun bundle =>
            ret {| su_info := su_info out;
                   su_hk4e := su_hk4e out ++ [bundle];
                   su_hkrpg := su_hkrpg out;
                   su_nap := su_nap out |}))
    users out =
  match find (unresolved db) (flat_map shb_list users) with
  | Some srec => raise (RuntimeError (unresolved_message (sh_item_id srec)))
  | None =>
      ret {| su_info := su_info out;
             su_hk4e := su_hk4e out ++ map (converted_bundle db) users;
             su_hkrpg := su_hkrpg out;
             su_nap := su_nap out |}
  end.
Proof.
  induction users as [|user users IH]; intros out; simpl.
  - rewrite app_nil_r. now destruct out.
  - rewrite inner_loop, find_app_first.
    destruct (find (unresolved db) (shb_list user)); simpl; [reflexivity|].
    rewrite IH. simpl.
    destruct (find (unresolved db) (flat_map shb_list users)); [reflexivity|].
    now rewrite <- app_assoc.
Qed.

(** The converter in closed form: the first record that fails the check
    decides the error; without one, every bundle and record is converted in
    order. *)
Lemma convert_closed_form doc db :
  convert_snap_hutao_to_starward doc db =
  match find (unresolved db) (all_records doc) with
  | Some srec => raise (RuntimeError (unresolved_message (sh_item_id srec)))
  | None =>
      ret {| su_info :=
               dict_set (shu_info doc) "export_app"
                 (JStr "Converted from Snap Hutao");
             su_hk4e := map (converted_bundle db) (shu_hk4e doc);
             su_hkrpg := Some [];
             su_nap := Some [] |}
  end.
Proof.
  unfold convert_snap_hutao_to_starward, all_records.
  now rewrite outer_loop.
Qed.

(** Fail-closed on what the check looks at: a record whose id is missing,
    not in the store, or whose entry has [item_type] or [rank_type] equal
    to [None] makes the conversion raise, naming the id of the first such
    record; no document is returned. *)
Lemma convert_fail_closed doc db srec :
  In srec (all_records doc) ->
  unresolved db srec = true ->
  exists bad,
    In bad (all_records doc) /\ unresolved db bad = true
    /\ convert_snap_hutao_to_starward doc db
       = raise (RuntimeError (unresolved_message (sh_item_id bad))).
Proof.
  intros Hin Hun. rewrite convert_closed_form.
  destruct (find (unresolved db) (all_records doc)) as [bad|] eqn:E.
  - apply find_some in E. destruct E as [Hb1 Hb2]. now exists bad.
  - exfalso. apply (find_none _ _ E) in Hin. congruence.
Qed.

(** C1. The store entry below has an empty-string [item_type]; the
    converter's check compares with [None] only, so the record is converted
    and the output carries the empty category. *)
Theorem convert_accepts_empty_item_type :
  let db := [("10", {| name := "Aqua Simulacra"; item_type := Some "";
                       rank_type := Some "5"; item_id := "10" |})] in
  let srec := {| sh_uigf_gacha_type := None; sh_gacha_type := Some "301";
                 sh_item_id := Some "10";
                 sh_time := Some "2024-01-01 00:00:00"; sh_id := None;
                 sh_extra := []; sh_model_extra := [] |} in
  let doc := {| shu_info := [];
                shu_hk4e := [ {| shb_uid := "100000001";
                                 shb_timezone := Some 8%Z;
                                 shb_list := [srec] |} ] |} in
  truthy (item_type {| name := "Aqua Simulacra"; item_type := Some "";
                       rank_type := Some "5"; item_id := "10" |}) = false
  /\ exists out r,
       convert_snap_hutao_to_starward doc db = inr out
       /\ map sb_list (su_hk4e out) = [[r]]
       /\ sr_item_type r = Some "".
Proof.
  intros db srec doc. split; [reflexivity|].
  do 2 eexists. split; [reflexivity|]. split; reflexivity.
Qed.

Lemma fully_resolved_checked db srec :
  fully_resolved db srec -> unresolved db srec = false.
Proof.
  intros (i & m & Hi & Hm & Ht & Hr). unfold unresolved, checked_meta.
  rewrite Hi, Hm.
  destruct (item_type m); [|discriminate].
  destruct (rank_type m); [|discriminate]. reflexivity.
Qed.

Lemma checked_record_converted db user srec m :
  checked_meta db srec = Some m ->
  record_converted db user srec
    (StarwardRecord_of_kwargs (make_rec_kwargs user srec m)).
Proof.
  unfold checked_meta. intros H.
  destruct (sh_item_id srec) as [i|] eqn:Hi; [|discriminate].
  destruct (get db i) as [m'|] eqn:Hm; [|discriminate].
  destruct (is_none (item_type m') || is_none (rank_type m'));
    [discriminate|].
  inversion H. subst m'.
  exists i, m.
  repeat split; try assumption; simpl.
  - intros ->. reflexivity.
  - destruct (sh_extra srec); [congruence|reflexivity].
  - now destruct (sh_extra srec).
Qed.

Lemma converted_list_Forall2 db user l :
  Forall (fun srec => unresolved db srec = false) l ->
  Forall2 (record_converted db user) l (converted_list db user l).
Proof.
  induction 1 as [|srec l Hs _ IH]; simpl; [constructor|].
  unfold unresolved in Hs.
  destruct (checked_meta db srec) as [m|] eqn:E; [|discriminate].
  simpl. constructor; [|exact IH].
  now apply checked_record_converted.
Qed.

Lemma converted_bundles_Forall2 db users :
  Forall (fun srec => unresolved db srec = false) (flat_map shb_list users) ->
  Forall2 (bundle_converted db) users (map (converted_bundle db) users).
Proof.
  induction users as [|user users IH]; simpl; intros H; [constructor|].
  apply Forall_app in H. destruct H as [H1 H2].
  constructor; [|auto].
  unfold bundle_converted. simpl. repeat split.
  now apply converted_list_Forall2.
Qed.

(** When every record passes the check, the converter returns a document
    whose bundles and records are the converted ones, in order. *)
Lemma convert_all_checked doc db :
  Forall (fun srec => unresolved db srec = false) (all_records doc) ->
  exists out,
    convert_snap_hutao_to_starward doc db = inr out
    /\ su_info out
       = dict_set (shu_info doc) "export_app" (JStr "Converted from Snap Hutao")
    /\ Forall2 (bundle_converted db) (shu_hk4e doc) (su_hk4e out).
Proof.
  intros H. rewrite convert_closed_form.
  destruct (find (unresolved db) (all_records doc)) as [bad|] eqn:E.
  - apply find_some in E. destruct E as [Hin Hbad].
    rewrite Forall_forall in H. rewrite (H _ Hin) in Hbad. discriminate.
  - eexists. split; [reflexivity|]. split; [reflexivity|].
    now apply converted_bundles_Forall2.
Qed.

(** C4, as the specification states it, fails: the extra bag of a record
    is made of the fields its model does not recognise, and the converter
    does not carry them.  The record below is read with the key [foo] kept
    among its undeclared extras, its id is fully resolved, and the unified
    record has no extras of either kind. *)
Lemma convert_drops_undeclared_key :
  exists snap srec out r,
    read_snap_hutao_uigf4 int_only tagged_doc = inr snap
    /\ all_records snap = [srec]
    /\ sh_model_extra srec = [("foo", JStr "bar")]
    /\ fully_resolved aqua_db srec
    /\ convert_snap_hutao_to_starward snap aqua_db = inr out
    /\ map sb_list (su_hk4e out) = [[r]]
    /\ sr_extra r = [] /\ sr_model_extra r = [].
Proof.
  do 4 eexists. split; [reflexivity|]. split; [reflexivity|].
  split; [reflexivity|]. split.
  - exists "10", {| name := "Aqua Simulacra"; item_type := Some "武器";
                    rank_type := Some "5"; item_id := "10" |}.
    repeat split; reflexivity.
  - split; [reflexivity|]. repeat split; reflexivity.
Qed.

(** C4, amended.  A document whose records all have a fully resolved store
    entry is converted: bundle by bundle and record by record, the
    identifying and time fields are copied, [name], [item_type] and
    [rank_type] come from the store entry, [count] is "1", [lang] is
    "zh-cn", and the declared field [extra] is carried, being among the
    keyword arguments the converter builds exactly when the source has
    entries in it.  Keys of the source record that its model does not
    declare are not carried: the unified record has no undeclared extras. *)
Theorem convert_resolved_records doc db :
  Forall (fully_resolved db) (all_records doc) ->
  exists out,
    convert_snap_hutao_to_starward doc db = inr out
    /\ Forall2 (bundle_converted db) (shu_hk4e doc) (su_hk4e out).
Proof.
  intros H.
  destruct (convert_all_checked doc db) as (out & Ho & _ & Hb).
  - eapply Forall_impl; [|exact H]. apply fully_resolved_checked.
  - now exists out.
Qed.

(** The store entry and record of the specification's example. *)
Lemma convert_resolved_records_witness :
  Forall (fully_resolved aqua_db) (all_records aqua_doc)
  /\ exists out,
       convert_snap_hutao_to_starward aqua_doc aqua_db = inr out
       /\ Forall2 (bundle_converted aqua_db) (shu_hk4e aqua_doc) (su_hk4e out).
Proof.
  assert (H : Forall (fully_resolved aqua_db) (all_records aqua_doc)).
  { constructor; [|constructor].
    exists "10", {| name := "Aqua Simulacra"; item_type := Some "武器";
                    rank_type := Some "5"; item_id := "10" |}.
    repeat split; reflexivity. }
  split; [exact H|].
  exact (convert_resolved_records aqua_doc aqua_db H).
Defined.

Example convert_aqua :
  convert_snap_hutao_to_starward aqua_doc aqua_db
  = inr {| su_info := [("export_app", JStr "Converted from Snap Hutao")];
           su_hk4e :=
             [ {| sb_uid := "100000001"; sb_timezone := Some 8%Z;
                  sb_lang := Some "zh-cn";
                  sb_list :=
                    [ {| sr_uigf_gacha_type := None;
                         sr_uid := Some "100000001";
                         sr_id := None;
                         sr_gacha_type := Some "301";
                         sr_name := Some "Aqua Simulacra";
                         sr_item_type := Some "武器";
                         sr_rank_type := Some "5";
                         sr_time := Some "2024-01-01 00:00:00";
                         sr_item_id := Some "10";
                         sr_count := Some "1";
                         sr_lang := Some "zh-cn";
                         sr_extra := [];
                         sr_model_extra := [] |} ] |} ];
           su_hkrpg := Some [];
           su_nap := Some [] |}
  /\ kw_extra
       (make_rec_kwargs
          {| shb_uid := "100000001"; shb_timezone := Some 8%Z; shb_list := [] |}
          {| sh_uigf_gacha_type := None; sh_gacha_type := Some "301";
             sh_item_id := Some "10"; sh_time := Some "2024-01-01 00:00:00";
             sh_id := None; sh_extra := []; sh_model_extra := [] |}
          {| name := "Aqua Simulacra"; item_type := Some "武器";
             rank_type := Some "5"; item_id := "10" |}) = None.
Proof. split; reflexivity. Qed.

Example convert_carries_declared_extra :
  let user := {| shb_uid := "100000001"; shb_timezone := None;
                 shb_list := [noted_record] |} in
  let doc := {| shu_info := []; shu_hk4e := [user] |} in
  exists out r,
    convert_snap_hutao_to_starward doc aqua_db = inr out
    /\ map sb_list (su_hk4e out) = [[r]]
    /\ kw_extra (make_rec_kwargs user noted_record
                   {| name := "Aqua Simulacra"; item_type := Some "武器";
                      rank_type := Some "5"; item_id := "10" |})
       = Some [("note", JStr "lucky")]
    /\ sr_extra r = [("note", JStr "lucky")]
    /\ sr_model_extra r = [].
Proof.
  intros user doc. do 2 eexists. split; [reflexivity|].
  repeat split; reflexivity.
Qed.

(** C10. The check does not look at the entry's name: when every record has
    a store entry with a category and a rarity the conversion succeeds, and
    a record whose entry has the empty string as name is emitted with the
    empty string as name. *)
Theorem convert_keeps_empty_name doc db :
  Forall (fully_resolved db) (all_records doc) ->
  exists out,
    convert_snap_hutao_to_starward doc db = inr out
    /\ Forall2
         (fun user b =>
            Forall2
              (fun srec r =>
                 forall i m,
                   sh_item_id srec = Some i -> get db i = Some m ->
                   name m = "" -> sr_name r = Some "")
              (shb_list user) (sb_list b))
         (shu_hk4e doc) (su_hk4e out).
Proof.
  intros H.
  destruct (convert_all_checked doc db) as (out & Ho & _ & Hb).
  - eapply Forall_impl; [|exact H]. apply fully_resolved_checked.
  - exists out. split; [assumption|].
    eapply Forall2_impl; [|exact Hb].
    intros user b (_ & _ & _ & Hr).
    eapply Forall2_impl; [|exact Hr].
    intros srec r (i & m & Hi & Hm & _ & _ & _ & _ & _ & _ & _ & _ & _
                   & Hn & _).
    intros i' m' Hi' Hm' Hname.
    rewrite Hi in Hi'. inversion Hi'. subst i'.
    rewrite Hm in Hm'. inversion Hm'. subst m'.
    now rewrite Hn, Hname.
Qed.

Lemma convert_keeps_empty_name_witness :
  Forall (fully_resolved nameless_db) (all_records aqua_doc)
  /\ exists out,
       convert_snap_hutao_to_starward aqua_doc nameless_db = inr out
       /\ Forall2
            (fun user b =>
               Forall2
                 (fun srec r =>
                    forall i m,
                      sh_item_id srec = Some i -> get nameless_db i = Some m ->
                      name m = "" -> sr_name r = Some "")
                 (shb_list user) (sb_list b))
            (shu_hk4e aqua_doc) (su_hk4e out).
Proof.
  assert (H : Forall (fully_resolved nameless_db) (all_records aqua_doc)).
  { constructor; [|constructor].
    exists "10", {| name := ""; item_type := Some "武器";
                    rank_type := Some "5"; item_id := "10" |}.
    repeat split; reflexivity. }
  split; [exact H|].
  exact (convert_keeps_empty_name aqua_doc nameless_db H).
Defined.

Example convert_nameless :
  option_map (map (fun b => map sr_name (sb_list b)))
    (match convert_snap_hutao_to_starward aqua_doc nameless_db with
     | inr out => Some (su_hk4e out)
     | inl _ => None
     end)
  = Some [[Some ""]].
Proof. reflexivity. Qed.

(* ================================================================== *)
(** ** The mapping importer                                            *)
(* ================================================================== *)

Section OfPairs.

Context {V : Type}.
Implicit Types (d acc : dict V) (ps : list (string * V)).

Lemma dict_get_app d1 d2 k :
  dict_get (d1 ++ d2) k =
  match dict_get d1 k with
  | Some v => Some v
  | None => dict_get d2 k
  end.
Proof.
  induction d1 as [|[k0 v0] d1 IH]; simpl; [reflexivity|].
  now destruct (k0 =? k).
Qed.

Lemma dict_set_new d k (v : V) :
  dict_get d k = None -> dict_set d k v = (d ++ [(k, v)])%list.
Proof.
  induction d as [|[k0 v0] d IH]; simpl; [reflexivity|].
  destruct (k0 =? k); [discriminate|]. intros H. now rewrite IH.
Qed.

Lemma of_pairs_NoDup ps : forall acc,
  NoDup (keys acc) -> NoDup (keys (of_pairs ps acc)).
Proof.
  unfold of_pairs.
  induction ps as [|p ps IH]; intros acc H; simpl; [assumption|].
  apply IH. now apply NoDup_dict_set.
Qed.

Lemma of_pairs_keys ps : forall acc k,
  In k (keys (of_pairs ps acc)) <-> In k (keys acc) \/ In k (map fst ps).
Proof.
  unfold of_pairs.
  induction ps as [|p ps IH]; intros acc k; simpl; [tauto|].
  rewrite IH, keys_dict_set.
  destruct (dict_contains acc (fst p)) eqn:E.
  - unfold dict_contains in E.
    destruct (dict_get acc (fst p)) eqn:G; [|discriminate].
    apply dict_get_In in G. apply (in_map fst) in G. simpl in G.
    unfold keys. intuition (subst; auto).
  - rewrite in_app_iff. simpl. tauto.
Qed.

Lemma of_pairs_get ps : forall acc k,
  dict_get (of_pairs ps acc) k =
  match dict_get (rev ps) k with
  | Some v => Some v
  | None => dict_get acc k
  end.
Proof.
  unfold of_pairs.
  induction ps as [|[k0 v0] ps IH]; intros acc k; simpl; [reflexivity|].
  rewrite IH, dict_get_app. simpl.
  destruct (dict_get (rev ps) k); [reflexivity|].
  destruct (String.eqb_spec k0 k) as [->|Hne].
  - apply dict_get_set_eq.
  - now apply dict_get_set_ne.
Qed.

Lemma of_pairs_fresh ps : forall acc,
  NoDup (keys ps) ->
  (forall k, In k (keys ps) -> dict_get acc k = None) ->
  of_pairs ps acc = (acc ++ ps)%list.
Proof.
  unfold of_pairs.
  induction ps as [|[k0 v0] ps IH]; intros acc Hnd Hfresh; simpl.
  - now rewrite app_nil_r.
  - inversion Hnd as [|? ? Hnotin Hnd']. subst.
    rewrite dict_set_new by (apply Hfresh; now left).
    rewrite IH.
    + now rewrite <- app_assoc.
    + assumption.
    + intros k Hk. rewrite dict_get_app, Hfresh by now right.
      simpl. destruct (String.eqb_spec k0 k) as [->|]; [contradiction|].
      reflexivity.
Qed.

End OfPairs.

Lemma fold_left_flat_map {A B C} (f : A -> C -> A) (g : B -> list C) l :
  forall acc,
    fold_left f (flat_map g l) acc
    = fold_left (fun a x => fold_left f (g x) a) l acc.
Proof.
  induction l as [|x l IH]; intros acc; simpl; [reflexivity|].
  now rewrite fold_left_app, IH.
Qed.

Lemma fold_left_map {A B C} (f : A -> C -> A) (h : B -> C) l : forall acc,
  fold_left f (map h l) acc = fold_left (fun a x => f a (h x)) l acc.
Proof.
  induction l as [|x l IH]; intros acc; simpl; [reflexivity|]. apply IH.
Qed.

Lemma fold_left_ext {A B} (f g : A -> B -> A) l :
  (forall a x, f a x = g a x) ->
  forall acc, fold_left f l acc = fold_left g l acc.
Proof.
  intros H. induction l as [|x l IH]; intros acc; simpl; [reflexivity|].
  now rewrite H, IH.
Qed.

Lemma id_to_name_of_pairs m :
  fst (UIGF_id_name_mapping m) = of_pairs (mapping_pairs m) [].
Proof.
  unfold UIGF_id_name_mapping, of_pairs, mapping_pairs. simpl.
  rewrite fold_left_flat_map. apply fold_left_ext. intros d [nm v].
  rewrite fold_left_map. simpl. now destruct v.
Qed.

Lemma id_to_name_NoDup m : NoDup (keys (fst (UIGF_id_name_mapping m))).
Proof. rewrite id_to_name_of_pairs. apply of_pairs_NoDup. constructor. Qed.

Lemma build_meta_db_from_mapping_map m :
  build_meta_db_from_mapping m
  = map (fun kv => (fst kv, mapped_item kv)) (fst (UIGF_id_name_mapping m)).
Proof.
  unfold build_meta_db_from_mapping.
  set (d := fst (UIGF_id_name_mapping m)).
  assert (Hnd : NoDup (keys d)) by apply id_to_name_NoDup.
  change (fold_left
            (fun db kv =>
               dict_set db (fst kv)
                 {| name := snd kv; item_type := None; rank_type := None;
                    item_id := fst kv |}) d [])
    with (fold_left
            (fun db kv => dict_set db (fst kv) (mapped_item kv)) d []).
  rewrite <- (fold_left_map
                (fun db p => dict_set db (fst p) (snd p))
                (fun kv => (fst kv, mapped_item kv))).
  change (of_pairs (map (fun kv => (fst kv, mapped_item kv)) d) []
          = map (fun kv => (fst kv, mapped_item kv)) d).
  rewrite of_pairs_fresh; [reflexivity| |reflexivity].
  unfold keys. rewrite map_map. exact Hnd.
Qed.

Lemma mapping_pairs_listed m iid nm :
  In (iid, nm) (mapping_pairs m) <-> listed m iid nm.
Proof.
  unfold mapping_pairs, listed. rewrite in_flat_map. split.
  - intros ([nm' v] & Hin & Hp). apply in_map_iff in Hp.
    destruct Hp as (i & Heq & Hi). inversion Heq. subst. now exists v, i.
  - intros (v & i & Hin & Hi & Hs). exists (nm, v). split; [assumption|].
    apply in_map_iff. exists i. simpl. now subst.
Qed.

(** The name an id gets is the one of its last listing. *)
Lemma id_to_name_last m iid :
  dict_get (fst (UIGF_id_name_mapping m)) iid
  = dict_get (rev (mapping_pairs m)) iid.
Proof.
  rewrite id_to_name_of_pairs, of_pairs_get.
  now destruct (dict_get (rev (mapping_pairs m)) iid).
Qed.

(** C5. The store built from a mapping has one entry per id listed in the
    mapping and no other: its keys are distinct, an id is a key exactly when
    the mapping lists it, and the entry under an id carries that id, a
    display name the mapping lists it under, and neither category nor
    rarity.  The mapping Sword: [1, 2], Bow: 3 gives the three entries
    "1", "2", "3" named Sword, Sword, Bow. *)
Theorem build_meta_db_from_mapping_entries :
  (forall m : dict mapping_value,
      let db := build_meta_db_from_mapping m in
      NoDup (keys db)
      /\ (forall iid, In iid (keys db) <-> exists nm, listed m iid nm)
      /\ Forall
           (fun kv =>
              item_id (snd kv) = fst kv
              /\ listed m (fst kv) (name (snd kv))
              /\ item_type (snd kv) = None
              /\ rank_type (snd kv) = None)
           db)
  /\ build_meta_db_from_mapping
       [("Sword", ManyIds [IdInt 1; IdInt 2]); ("Bow", OneId (IdInt 3))]
     = [("1", {| name := "Sword"; item_type := None; rank_type := None;
                 item_id := "1" |});
        ("2", {| name := "Sword"; item_type := None; rank_type := None;
                 item_id := "2" |});
        ("3", {| name := "Bow"; item_type := None; rank_type := None;
                 item_id := "3" |})].
Proof.
  split; [|reflexivity].
  intros m db. subst db. rewrite build_meta_db_from_mapping_map.
  set (d := fst (UIGF_id_name_mapping m)).
  assert (Hk : keys (map (fun kv => (fst kv, mapped_item kv)) d) = keys d).
  { unfold keys. rewrite map_map. reflexivity. }
  split; [|split].
  - rewrite Hk. apply id_to_name_NoDup.
  - intros iid. rewrite Hk. unfold d.
    rewrite id_to_name_of_pairs, of_pairs_keys. simpl.
    rewrite in_map_iff. split.
    + intros [[]|([k nm] & Hf & Hin)]. simpl in Hf. subst k.
      exists nm. now apply mapping_pairs_listed.
    + intros (nm & H). right. exists (iid, nm). split; [reflexivity|].
      now apply mapping_pairs_listed.
  - apply Forall_forall. intros [k e] Hin. apply in_map_iff in Hin.
    destruct Hin as ([k' nm] & Heq & Hin). inversion Heq. subst. simpl.
    repeat split.
    apply mapping_pairs_listed.
    assert (G : dict_get d k = Some nm).
    { apply In_dict_get; [apply id_to_name_NoDup | assumption]. }
    unfold d in G. rewrite id_to_name_last in G.
    apply dict_get_In in G. now apply in_rev in G.
Qed.

Example mapping_last_name_wins :
  build_meta_db_from_mapping
    [("Sword", ManyIds [IdInt 1; IdStr "2"]); ("Bow", OneId (IdStr "1"))]
  = [("1", {| name := "Bow"; item_type := None; rank_type := None;
              item_id := "1" |});
     ("2", {| name := "Sword"; item_type := None; rank_type := None;
              item_id := "2" |})].
Proof. reflexivity. Qed.

(* ================================================================== *)
(** ** Sorting                                                         *)
(* ================================================================== *)

Section StableSort.

Context {A : Type} (le : A -> A -> bool).
Hypothesis le_total : forall a b, le a b = true \/ le b a = true.
Hypothesis le_trans : forall a b c, le a b = true -> le b c = true -> le a c = true.

Lemma insert_by_perm x l : Permutation (insert_by le x l) (x :: l).
Proof.
  induction l as [|y l IH]; simpl; [reflexivity|].
  destruct (le x y); [reflexivity|].
  rewrite IH. apply perm_swap.
Qed.

Lemma stable_sort_perm l : Permutation (stable_sort le l) l.
Proof.
  induction l as [|x l IH]; simpl; [reflexivity|].
  rewrite insert_by_perm. now constructor.
Qed.

Lemma insert_by_sorted x l :
  StronglySorted (fun a b => le a b = true) l ->
  StronglySorted (fun a b => le a b = true) (insert_by le x l).
Proof.
  induction 1 as [|y l Hs IH Hy]; simpl.
  - repeat constructor.
  - destruct (le x y) eqn:E.
    + constructor; [now constructor|].
      constructor; [exact E|].
      eapply Forall_impl; [|exact Hy]. intros z Hz. eapply le_trans; eauto.
    + constructor; [exact IH|].
      assert (Hyx : le y x = true) by (destruct (le_total x y); congruence).
      rewrite insert_by_perm. now constructor.
Qed.

Lemma stable_sort_sorted l :
  StronglySorted (fun a b => le a b = true) (stable_sort le l).
Proof.
  induction l as [|x l IH]; simpl; [constructor|].
  now apply insert_by_sorted.
Qed.

(** Elements that compare equal to [x0] come out in the order they went
    in. *)
Lemma filter_insert_by (p : A -> bool) x l :
  (forall y, p x = true -> le x y = false -> p y = false) ->
  filter p (insert_by le x l) = filter p (x :: l).
Proof.
  intros Hp. induction l as [|y l IH]; simpl; [reflexivity|].
  destruct (le x y) eqn:E; simpl; [reflexivity|].
  simpl in IH. rewrite IH.
  destruct (p x) eqn:Px; [|reflexivity].
  now rewrite (Hp y eq_refl E).
Qed.

Lemma stable_sort_stable x0 l :
  filter (fun y => le x0 y && le y x0) (stable_sort le l)
  = filter (fun y => le x0 y && le y x0) l.
Proof.
  induction l as [|x l IH]; simpl; [reflexivity|].
  rewrite filter_insert_by.
  - simpl. now rewrite IH.
  - intros y Hx Hxy. apply andb_true_iff in Hx. destruct Hx as [H1 H2].
    destruct (le x0 y) eqn:E; [|reflexivity]. simpl.
    destruct (le y x0) eqn:E'; [|reflexivity].
    rewrite (le_trans _ _ _ H2 E) in Hxy. discriminate.
Qed.

End StableSort.

Lemma StronglySorted_filter {A} (R : A -> A -> Prop) (p : A -> bool) l :
  StronglySorted R l -> StronglySorted R (filter p l).
Proof.
  induction 1 as [|x l Hs IH Hx]; simpl; [constructor|].
  destruct (p x); [|exact IH].
  constructor; [exact IH|].
  rewrite Forall_forall in *. intros y Hy. apply filter_In in Hy. now apply Hx.
Qed.

Lemma StronglySorted_map {A B} (R : B -> B -> Prop) (f : A -> B) l :
  StronglySorted (fun a b => R (f a) (f b)) l -> StronglySorted R (map f l).
Proof.
  induction 1 as [|x l Hs IH Hx]; simpl; constructor; [exact IH|].
  rewrite Forall_forall in *. intros y Hy. apply in_map_iff in Hy.
  destruct Hy as (z & <- & Hz). now apply Hx.
Qed.

Lemma StronglySorted_impl {A} (R S : A -> A -> Prop) l :
  (forall a b, R a b -> S a b) -> StronglySorted R l -> StronglySorted S l.
Proof.
  intros H. induction 1 as [|x l Hs IH Hx]; constructor; [exact IH|].
  eapply Forall_impl; [|exact Hx]. auto.
Qed.

Lemma Permutation_filter_compat {A} (p : A -> bool) l l' :
  Permutation l l' -> Permutation (filter p l) (filter p l').
Proof.
  induction 1 as [|x l l' _ IH|x y l|l l' l'' _ IH1 _ IH2]; simpl.
  - constructor.
  - destruct (p x); [now constructor | exact IH].
  - destruct (p x), (p y); try reflexivity. apply perm_swap.
  - etransitivity; eauto.
Qed.

Lemma map_result_ok {A B} (f : A -> result B) (g : A -> B) l :
  (forall x, In x l -> f x = inr (g x)) -> map_result f l = inr (map g l).
Proof.
  induction l as [|x l IH]; intros H; simpl; [reflexivity|].
  rewrite (H x) by now left. simpl. rewrite IH by (intros; apply H; now right).
  reflexivity.
Qed.

Lemma map_result_fail {A B} (f : A -> result B) l x e :
  In x l -> f x = inl e -> exists e', map_result f l = inl e'.
Proof.
  induction l as [|y l IH]; intros Hin Hx; [contradiction|].
  simpl. destruct (f y) as [e0|b] eqn:E; simpl; [now exists e0|].
  destruct Hin as [->|Hin]; [congruence|].
  destruct (IH Hin Hx) as (e' & ->). now exists e'.
Qed.

(* ================================================================== *)
(** ** Order on text and on sort keys                                  *)
(* ================================================================== *)

Lemma ascii_compare_lt_trans a b c :
  Ascii.compare a b = Lt -> Ascii.compare b c = Lt -> Ascii.compare a c = Lt.
Proof.
  unfold Ascii.compare. rewrite !N.compare_lt_iff. lia.
Qed.

Lemma string_compare_lt_trans s1 : forall s2 s3,
  String.compare s1 s2 = Lt -> String.compare s2 s3 = Lt ->
  String.compare s1 s3 = Lt.
Proof.
  induction s1 as [|a s1 IH]; intros [|b s2] [|c s3]; simpl;
    try discriminate; try reflexivity.
  destruct (Ascii.compare a b) eqn:Eab; try discriminate;
    destruct (Ascii.compare b c) eqn:Ebc; try discriminate; intros H1 H2.
  - apply Ascii.compare_eq_iff in Eab, Ebc. subst.
    assert (E : Ascii.compare c c = Eq)
      by (unfold Ascii.compare; apply N.compare_refl).
    rewrite E. eauto.
  - apply Ascii.compare_eq_iff in Eab. subst. now rewrite Ebc.
  - apply Ascii.compare_eq_iff in Ebc. subst. now rewrite Eab.
  - now rewrite (ascii_compare_lt_trans _ _ _ Eab Ebc).
Qed.

Lemma string_compare_refl s : String.compare s s = Eq.
Proof.
  induction s as [|a s IH]; simpl; [reflexivity|].
  assert (E : Ascii.compare a a = Eq)
    by (unfold Ascii.compare; apply N.compare_refl).
  now rewrite E.
Qed.

Lemma string_ltb_irrefl s : (s <? s)%string = false.
Proof. unfold String.ltb. now rewrite string_compare_refl. Qed.

Lemma string_ltb_asym s t : (s <? t)%string = true -> (t <? s)%string = false.
Proof.
  unfold String.ltb. rewrite (String.compare_antisym s t).
  now destruct (String.compare t s).
Qed.

(** [t] not below [s] and [u] not below [t]: [u] is not below [s]. *)
Lemma string_nlt_trans s t u :
  (t <? s)%string = false -> (u <? t)%string = false -> (u <? s)%string = false.
Proof.
  unfold String.ltb. intros H1 H2.
  destruct (String.compare u s) eqn:E; try reflexivity. exfalso.
  destruct (String.compare t s) eqn:Ets; try discriminate;
    destruct (String.compare u t) eqn:Eut; try discriminate.
  - apply String.compare_eq_iff in Ets, Eut. subst.
    rewrite string_compare_refl in E. discriminate.
  - apply String.compare_eq_iff in Ets. subst. congruence.
  - apply String.compare_eq_iff in Eut. subst. congruence.
  - rewrite String.compare_antisym in Ets, Eut.
    destruct (String.compare s t) eqn:Est; try discriminate.
    destruct (String.compare t u) eqn:Etu; try discriminate.
    pose proof (string_compare_lt_trans _ _ _ Est Etu) as Hsu.
    rewrite String.compare_antisym, Hsu in E. discriminate.
Qed.

Lemma key_le_total a b : key_le a b = true \/ key_le b a = true.
Proof.
  unfold key_le. destruct a as [x|s], b as [y|t]; simpl; auto.
  - destruct (Z.ltb_spec y x), (Z.ltb_spec x y); auto; lia.
  - destruct (t <? s)%string eqn:E; auto.
    right. now rewrite (string_ltb_asym _ _ E).
Qed.

Lemma key_le_trans a b c :
  key_le a b = true -> key_le b c = true -> key_le a c = true.
Proof.
  unfold key_le. rewrite !negb_true_iff.
  destruct a as [x|s], b as [y|t], c as [z|u]; simpl;
    try discriminate; try reflexivity.
  - rewrite !Z.ltb_ge. lia.
  - apply string_nlt_trans.
Qed.

(* ================================================================== *)
(** ** The completion resolver: which entries, in which order          *)
(* ================================================================== *)

Lemma is_pending_incomplete m : is_pending m = incomplete m.
Proof.
  unfold is_pending, incomplete.
  now destruct (truthy_str (item_id m)), (truthy_str (name m)).
Qed.

Lemma key_no_raise cap kv :
  raises cap (fst kv) = false -> _key cap kv = inr (id_key (fst kv)).
Proof.
  unfold raises, _key, id_key, numeric_value, int_of_digits.
  destruct (isdigit (fst kv)); [|reflexivity]. simpl.
  destruct (code_points (fst kv)) as [cs|]; [|discriminate].
  destruct ((0 <? cap)%nat && (cap <? List.length cs)%nat); [discriminate|].
  destruct (digits_value 0 cs); [reflexivity | discriminate].
Qed.

Lemma key_raise cap kv :
  raises cap (fst kv) = true -> _key cap kv = inl ValueError.
Proof.
  unfold raises, _key. destruct (isdigit (fst kv)); [|discriminate]. simpl.
  now destruct (int_of_digits cap (fst kv)).
Qed.

Lemma string_leb_ltb s t : (s <=? t)%string = negb (t <? s)%string.
Proof.
  unfold String.leb, String.ltb. rewrite (String.compare_antisym s t).
  now destruct (String.compare t s).
Qed.

Lemma id_le_key a b : id_le a b = key_le (id_key a) (id_key b).
Proof.
  unfold id_le, id_key, key_le.
  destruct (numeric_value a) as [x|], (numeric_value b) as [y|]; simpl;
    try reflexivity.
  - destruct (Z.leb_spec x y), (Z.ltb_spec y x); try reflexivity; lia.
  - apply string_leb_ltb.
Qed.

Lemma entry_le_total a b : entry_le a b = true \/ entry_le b a = true.
Proof. unfold entry_le. rewrite !id_le_key. apply key_le_total. Qed.

Lemma entry_le_trans a b c :
  entry_le a b = true -> entry_le b c = true -> entry_le a c = true.
Proof. unfold entry_le. rewrite !id_le_key. apply key_le_trans. Qed.

(** Sorting decorated elements by their key is sorting the elements by the
    comparison of their keys. *)
Lemma insert_by_decorated {A K} (le : K -> K -> bool) (g : A -> K) x l :
  insert_by (fun a b => le (fst a) (fst b)) (g x, x) (map (fun y => (g y, y)) l)
  = map (fun y => (g y, y)) (insert_by (fun a b => le (g a) (g b)) x l).
Proof.
  induction l as [|y l IH]; simpl; [reflexivity|].
  destruct (le (g x) (g y)); simpl; [reflexivity|]. now rewrite IH.
Qed.

Lemma stable_sort_decorated {A K} (le : K -> K -> bool) (g : A -> K) l :
  map snd (stable_sort (fun a b => le (fst a) (fst b))
             (map (fun y => (g y, y)) l))
  = stable_sort (fun a b => le (g a) (g b)) l.
Proof.
  assert (H : stable_sort (fun a b => le (fst a) (fst b))
                (map (fun y => (g y, y)) l)
              = map (fun y => (g y, y))
                  (stable_sort (fun a b => le (g a) (g b)) l)).
  { unfold stable_sort. induction l as [|x l IH]; simpl; [reflexivity|].
    rewrite IH. apply insert_by_decorated. }
  rewrite H, map_map. simpl. apply map_id.
Qed.

Lemma insert_by_ext {A} (le le' : A -> A -> bool) x l :
  (forall a b, le a b = le' a b) -> insert_by le x l = insert_by le' x l.
Proof.
  intros H. induction l as [|y l IH]; simpl; [reflexivity|].
  now rewrite H, IH.
Qed.

Lemma stable_sort_ext {A} (le le' : A -> A -> bool) l :
  (forall a b, le a b = le' a b) -> stable_sort le l = stable_sort le' l.
Proof.
  intros H. unfold stable_sort.
  induction l as [|x l IH]; simpl; [reflexivity|].
  rewrite IH. now apply insert_by_ext.
Qed.

Lemma existsb_false_forall {A} (p : A -> bool) l :
  existsb p l = false -> forall x, In x l -> p x = false.
Proof.
  intros H x Hin. destruct (p x) eqn:E; [|reflexivity].
  assert (existsb p l = true) by (apply existsb_exists; eauto). congruence.
Qed.

(** Without an id that [int] refuses, the entries are sorted by [id_le]. *)
Lemma items_sorted cap db :
  existsb (raises cap) (keys db) = false ->
  items cap db = stable_sort entry_le db.
Proof.
  intros H. unfold items, sorted.
  rewrite (map_result_ok _ (fun kv => (id_key (fst kv), kv))).
  - simpl. rewrite stable_sort_decorated. apply stable_sort_ext.
    intros a b. unfold entry_le. now rewrite id_le_key.
  - intros kv Hin. rewrite key_no_raise; [reflexivity|].
    apply (existsb_false_forall _ _ H). now apply in_map.
Qed.

(** With one, sorting raises and the store's order is kept. *)
Lemma items_unsorted cap db :
  existsb (raises cap) (keys db) = true -> items cap db = db.
Proof.
  intros H. unfold items, sorted.
  apply existsb_exists in H. destruct H as (k & Hin & Hk).
  apply in_map_iff in Hin. destruct Hin as (kv & <- & Hin).
  destruct (map_result_fail
              (fun x => bind (_key cap x) (fun k => ret (k, x)))
              db kv ValueError Hin) as (e & ->).
  - now rewrite key_raise.
  - reflexivity.
Qed.

Lemma filter_ext_eq {A} (p q : A -> bool) l :
  (forall x, p x = q x) -> filter p l = filter q l.
Proof.
  intros H. induction l as [|x l IH]; simpl; [reflexivity|].
  now rewrite H, IH.
Qed.

Lemma pending_closed_form cap db :
  pending cap db
  = filter (fun kv => incomplete (snd kv))
      (if existsb (raises cap) (keys db) then db else stable_sort entry_le db).
Proof.
  unfold pending.
  rewrite (filter_ext_eq _ (fun kv => incomplete (snd kv)))
    by (intros; apply is_pending_incomplete).
  destruct (existsb (raises cap) (keys db)) eqn:E.
  - now rewrite items_unsorted.
  - now rewrite items_sorted.
Qed.

(** C6, as the specification states it, fails: with an id that [isdigit]
    accepts and [int] refuses, the entries come back in the store's order,
    here "b" ahead of "a". *)
Lemma pending_not_always_ordered :
  map fst (pending 4300 superscript_ids) = ["²"; "b"; "a"]
  /\ ~ StronglySorted (fun a b => id_le (fst a) (fst b) = true)
         (pending 4300 superscript_ids).
Proof.
  split; [reflexivity|].
  intros H.
  assert (E : pending 4300 superscript_ids = superscript_ids) by reflexivity.
  rewrite E in H. unfold superscript_ids in H.
  apply StronglySorted_inv in H. destruct H as [H _].
  apply StronglySorted_inv in H. destruct H as [_ H].
  apply Forall_inv in H. simpl in H. vm_compute in H. discriminate.
Qed.

(** C6, amended.  The entries returned are those of the store that have an
    id and a name and lack a category or a rarity, each as often as the
    store has it.  When [int] accepts every id that [isdigit] accepts they
    are ordered: numeric ids by value, then the other ids in lexical order.
    Otherwise they are in the store's order.  On the ids "10", "2", "abc",
    all incomplete, the order is 2, 10, abc. *)
Theorem pending_selected_and_ordered (cap : nat) (db : StarwardMetaDB) :
  Permutation (pending cap db) (filter (fun kv => incomplete (snd kv)) db)
  /\ (existsb (raises cap) (keys db) = false ->
      StronglySorted (fun a b => id_le (fst a) (fst b) = true) (pending cap db))
  /\ (existsb (raises cap) (keys db) = true ->
      pending cap db = filter (fun kv => incomplete (snd kv)) db)
  /\ map fst (pending 4300 three_ids) = ["2"; "10"; "abc"].
Proof.
  rewrite pending_closed_form. repeat split.
  - apply Permutation_filter_compat.
    destruct (existsb (raises cap) (keys db)); [reflexivity|].
    apply stable_sort_perm.
  - intros ->. apply StronglySorted_filter.
    apply (stable_sort_sorted entry_le entry_le_total entry_le_trans).
  - now intros ->.
Qed.

Lemma pending_selected_and_ordered_witness :
  existsb (raises 4300) (keys three_ids) = false
  /\ StronglySorted (fun a b => id_le (fst a) (fst b) = true)
       (pending 4300 three_ids)
  /\ existsb (raises 4300) (keys superscript_ids) = true
  /\ pending 4300 superscript_ids
     = filter (fun kv => incomplete (snd kv)) superscript_ids.
Proof.
  destruct (pending_selected_and_ordered 4300 three_ids) as (_ & H1 & _ & _).
  destruct (pending_selected_and_ordered 4300 superscript_ids)
    as (_ & _ & H2 & _).
  split; [reflexivity|]. split; [apply H1; reflexivity|].
  split; [reflexivity|]. apply H2. reflexivity.
Defined.

(** Ids with the same place in the order keep the store's order. *)
Lemma pending_stable cap db k0 :
  existsb (raises cap) (keys db) = false ->
  filter (fun kv => id_le k0 (fst kv) && id_le (fst kv) k0) (pending cap db)
  = filter (fun kv => id_le k0 (fst kv) && id_le (fst kv) k0)
      (filter (fun kv => incomplete (snd kv)) db).
Proof.
  intros H. rewrite pending_closed_form, H.
  set (p := fun kv : string * StarwardMetaItem =>
              id_le k0 (fst kv) && id_le (fst kv) k0).
  set (q := fun kv : string * StarwardMetaItem => incomplete (snd kv)).
  assert (C : forall l, filter p (filter q l) = filter q (filter p l)).
  { induction l as [|x l IH]; simpl; [reflexivity|].
    destruct (q x) eqn:Q, (p x) eqn:P; simpl; rewrite ?Q, ?P, IH; reflexivity. }
  rewrite !C. f_equal.
  pose proof (stable_sort_stable entry_le entry_le_trans
                (k0, {| name := ""; item_type := None; rank_type := None;
                        item_id := "" |}) db) as S.
  exact S.
Qed.

(** ASCII ids never make the sort raise, as long as none is longer than
    the interpreter's digit limit. *)
Lemma ascii_code_points s :
  ascii_only s = true -> code_points s = Some (bytes_of s).
Proof.
  induction s as [|a r IH]; simpl; [reflexivity|].
  intros H. apply andb_true_iff in H. destruct H as [Ha Hr].
  now rewrite Ha, (IH Hr).
Qed.

Lemma ascii_digit_is_decimal c :
  (c < 128)%N -> char_isdigit c = true -> decimal_value c <> None.
Proof.
  intros Hc.
  assert (Hall : forallb
                   (fun n => implb (char_isdigit n)
                               (negb (is_none (decimal_value n))))
                   (map N.of_nat (seq 0 128)) = true) by (vm_compute; reflexivity).
  rewrite forallb_forall in Hall.
  assert (Hin : In c (map N.of_nat (seq 0 128))).
  { apply in_map_iff. exists (N.to_nat c). split; [apply N2Nat.id|].
    apply in_seq. lia. }
  specialize (Hall c Hin). intros Hd. rewrite Hd in Hall. simpl in Hall.
  destruct (decimal_value c); [discriminate | discriminate].
Qed.

Lemma ascii_bytes_small s :
  ascii_only s = true -> Forall (fun c => (c < 128)%N) (bytes_of s).
Proof.
  induction s as [|a r IH]; simpl; [constructor|].
  intros H. apply andb_true_iff in H. destruct H as [Ha Hr].
  constructor; [now apply N.ltb_lt | auto].
Qed.

Lemma digits_value_decimal cs : forall acc,
  Forall (fun c => decimal_value c <> None) cs -> digits_value acc cs <> None.
Proof.
  induction cs as [|c cs IH]; intros acc H; simpl; [discriminate|].
  inversion H as [|? ? Hc Hcs]. subst.
  destruct (decimal_value c); [now apply IH | contradiction].
Qed.

Lemma bytes_of_length s : List.length (bytes_of s) = String.length s.
Proof. induction s as [|a r IH]; simpl; congruence. Qed.

Lemma ascii_never_raises cap k :
  ascii_only k = true ->
  (cap = 0 \/ String.length k <= cap)%nat ->
  raises cap k = false.
Proof.
  intros Ha Hcap. unfold raises, isdigit, int_of_digits.
  rewrite (ascii_code_points k Ha).
  pose proof (ascii_bytes_small k Ha) as Hs.
  pose proof (bytes_of_length k) as Hl.
  remember (bytes_of k) as bs eqn:E.
  assert (Hc : (0 <? cap)%nat && (cap <? List.length bs)%nat = false).
  { destruct Hcap as [->|Hle]; [reflexivity|].
    rewrite Hl. apply andb_false_iff. right. apply Nat.ltb_ge. exact Hle. }
  rewrite Hc.
  destruct bs as [|c cs]; [reflexivity|].
  destruct (forallb char_isdigit (c :: cs)) eqn:D; [|reflexivity].
  rewrite andb_true_l.
  assert (Hd : digits_value 0 (c :: cs) <> None).
  { apply digits_value_decimal. rewrite forallb_forall in D.
    rewrite Forall_forall in *. intros x Hx.
    apply ascii_digit_is_decimal; auto. }
  destruct (digits_value 0 (c :: cs)); [reflexivity | contradiction].
Qed.

Example pending_ties_keep_store_order :
  map fst
    (pending 4300
       [("01", {| name := "a"; item_type := None; rank_type := None;
                  item_id := "01" |});
        ("x", {| name := ""; item_type := None; rank_type := None;
                 item_id := "x" |});
        ("1", {| name := "b"; item_type := None; rank_type := None;
                 item_id := "1" |});
        ("0", {| name := "c"; item_type := Some "武器"; rank_type := Some "5";
                 item_id := "0" |});
        ("", {| name := "d"; item_type := None; rank_type := None;
                item_id := "e" |})])
  = ["01"; "1"; ""].
Proof. reflexivity. Qed.

(* ================================================================== *)
(** ** The completion resolver: what an answer writes                  *)
(* ================================================================== *)

Lemma resolved_from_refl e : resolved_from e e.
Proof. split; [apply kept_refl | reflexivity]. Qed.

Lemma resolved_from_trans e1 e2 e3 :
  resolved_from e1 e2 -> resolved_from e2 e3 -> resolved_from e1 e3.
Proof.
  intros [K1 N1] [K2 N2]. split; [eapply kept_trans; eauto | congruence].
Qed.

Lemma set_resolved db k t t' iid e :
  dict_get db k = Some t -> resolved_from t t' ->
  get db iid = Some e ->
  exists e', get (dict_set db k t') iid = Some e' /\ resolved_from e e'.
Proof.
  unfold get. intros Hk Hr He.
  destruct (String.eqb_spec k iid) as [->|Hne].
  - rewrite dict_get_set_eq. exists t'. split; [reflexivity|]. congruence.
  - rewrite dict_get_set_ne by assumption. exists e. split; [assumption|].
    apply resolved_from_refl.
Qed.

Lemma set_item_type_if_empty meta v :
  resolved_from meta
    (if negb (truthy (item_type meta)) then set_item_type meta v else meta).
Proof.
  destruct (truthy (item_type meta)) eqn:E; simpl;
    [apply resolved_from_refl|].
  unfold resolved_from, kept. simpl. repeat split; auto. congruence.
Qed.

Lemma set_rank_type_if_empty meta v :
  resolved_from meta
    (if negb (truthy (rank_type meta)) then set_rank_type meta v else meta).
Proof.
  destruct (truthy (rank_type meta)) eqn:E; simpl;
    [apply resolved_from_refl|].
  unfold resolved_from, kept. simpl. repeat split; auto. congruence.
Qed.

(** What [save_current] leaves in the current entry: the selections, where
    the entry had nothing; what it had, elsewhere. *)
Lemma save_current_entry w iid meta :
  current w = Some (iid, meta) ->
  exists w',
    save_current w = Some w'
    /\ get (w_db w') iid
       = Some {| name := name meta;
                 item_type := if truthy (item_type meta) then item_type meta
                              else Some (w_var_type w);
                 rank_type := if truthy (rank_type meta) then rank_type meta
                              else Some (w_var_rank w);
                 item_id := item_id meta |}.
Proof.
  intros H. unfold save_current. rewrite H. eexists. split; [reflexivity|].
  simpl. unfold get. rewrite dict_get_set_eq. f_equal.
  destruct meta as [n t r i]. simpl.
  destruct (truthy t); simpl; destruct (truthy r); reflexivity.
Qed.

Lemma save_current_resolved w w' iid e :
  save_current w = Some w' ->
  get (w_db w) iid = Some e ->
  exists e', get (w_db w') iid = Some e' /\ resolved_from e e'.
Proof.
  unfold save_current, current. intros H He.
  destruct (nth_error (w_items w) (w_index w)) as [k|]; [|discriminate].
  destruct (dict_get (w_db w) k) as [meta|] eqn:Hk; [|discriminate].
  inversion H. subst w'. simpl.
  eapply set_resolved; eauto.
  eapply resolved_from_trans;
    [apply set_item_type_if_empty | apply set_rank_type_if_empty].
Qed.

Lemma load_current_db w : w_db (load_current w) = w_db w.
Proof. unfold load_current. now destruct (current w) as [[? ?]|]. Qed.

Lemma on_save_next_db w :
  w_db (on_save_next w)
  = match save_current w with
    | Some w' => w_db w'
    | None => w_db w
    end.
Proof.
  unfold on_save_next. destruct (save_current w) as [w'|]; [|reflexivity].
  destruct (w_index w' <? List.length (w_items w') - 1)%nat;
    [now rewrite load_current_db | reflexivity].
Qed.

Lemma on_save_next_resolved w iid e :
  get (w_db w) iid = Some e ->
  exists e', get (w_db (on_save_next w)) iid = Some e' /\ resolved_from e e'.
Proof.
  intros He. rewrite on_save_next_db.
  destruct (save_current w) as [w'|] eqn:E.
  - eapply save_current_resolved; eauto.
  - exists e. split; [assumption | apply resolved_from_refl].
Qed.

Lemma handle_resolved w ev iid e :
  get (w_db w) iid = Some e ->
  exists e', get (w_db (handle w ev)) iid = Some e' /\ resolved_from e e'.
Proof.
  intros He.
  destruct ev; simpl; try (now apply on_save_next_resolved);
    exists e; (split; [|apply resolved_from_refl]).
  - assumption.
  - assumption.
  - unfold on_prev. destruct (0 <? w_index w)%nat;
      [now rewrite load_current_db | assumption].
  - unfold on_skip. destruct (w_index w <? List.length (w_items w) - 1)%nat;
      [now rewrite load_current_db | assumption].
  - assumption.
  - unfold on_cancel. now destruct confirm.
Qed.

Lemma mainloop_resolved evs : forall w iid e,
  get (w_db w) iid = Some e ->
  exists e', get (w_db (mainloop w evs)) iid = Some e' /\ resolved_from e e'.
Proof.
  induction evs as [|ev evs IH]; intros w iid e He; simpl.
  - exists e. split; [assumption | apply resolved_from_refl].
  - destruct (w_destroyed w).
    + exists e. split; [assumption | apply resolved_from_refl].
    + destruct (handle_resolved w ev iid e He) as (e1 & H1 & R1).
      destruct (IH _ _ _ H1) as (e2 & H2 & R2).
      exists e2. split; [assumption|]. eapply resolved_from_trans; eauto.
Qed.

Lemma set_item_type_empty meta v :
  truthy (item_type meta) = false -> resolved_from meta (set_item_type meta v).
Proof.
  intros E. unfold resolved_from, kept. simpl. repeat split; auto. congruence.
Qed.

Lemma set_rank_type_empty meta v :
  truthy (rank_type meta) = false -> resolved_from meta (set_rank_type meta v).
Proof.
  intros E. unfold resolved_from, kept. simpl. repeat split; auto. congruence.
Qed.

Lemma set_twice_resolved db k meta m1 m2 iid e :
  dict_get db k = Some meta ->
  resolved_from meta m1 -> resolved_from m1 m2 ->
  get db iid = Some e ->
  exists e',
    get (dict_set (dict_set db k m1) k m2) iid = Some e' /\ resolved_from e e'.
Proof.
  intros Hk R1 R2 He.
  destruct (set_resolved db k meta m1 iid e Hk R1 He) as (e1 & H1 & Q1).
  destruct (set_resolved (dict_set db k m1) k m1 m2 iid e1
              (dict_get_set_eq _ _ _) R2 H1) as (e2 & H2 & Q2).
  exists e2. split; [assumption|]. eapply resolved_from_trans; eauto.
Qed.

Lemma cli_item_resolved db k inputs iid e :
  get db iid = Some e ->
  exists e',
    get (fst (fst (cli_item db k inputs))) iid = Some e' /\ resolved_from e e'.
Proof.
  intros He. unfold cli_item.
  destruct (dict_get db k) as [meta|] eqn:Hk;
    [|exists e; split; [assumption | apply resolved_from_refl]].
  destruct (truthy (item_type meta)) eqn:T1; simpl.
  - destruct (truthy (rank_type meta)) eqn:T2; simpl.
    + eapply set_twice_resolved; eauto using resolved_from_refl.
    + destruct (ask read_rank_type inputs) as [[ex|[y|]] inputs2]; simpl.
      * eapply set_resolved; eauto using resolved_from_refl.
      * eapply set_twice_resolved;
          eauto using resolved_from_refl, set_rank_type_empty.
      * eapply set_twice_resolved; eauto using resolved_from_refl.
  - destruct (ask read_item_type inputs) as [[ex|[x|]] inputs1]; simpl.
    + exists e. split; [assumption | apply resolved_from_refl].
    + destruct (truthy (rank_type meta)) eqn:T2; simpl.
      * eapply set_twice_resolved;
          eauto using resolved_from_refl, set_item_type_empty.
      * destruct (ask read_rank_type inputs1) as [[ex|[y|]] inputs2]; simpl.
        -- eapply set_resolved; eauto using set_item_type_empty.
        -- eapply set_twice_resolved;
             eauto using set_item_type_empty, set_rank_type_empty.
        -- eapply set_twice_resolved;
             eauto using resolved_from_refl, set_item_type_empty.
    + destruct (truthy (rank_type meta)) eqn:T2; simpl.
      * eapply set_twice_resolved; eauto using resolved_from_refl.
      * destruct (ask read_rank_type inputs1) as [[ex|[y|]] inputs2]; simpl.
        -- eapply set_resolved; eauto using resolved_from_refl.
        -- eapply set_twice_resolved;
             eauto using resolved_from_refl, set_rank_type_empty.
        -- eapply set_twice_resolved; eauto using resolved_from_refl.
Qed.

Lemma cli_loop_resolved its : forall db inputs iid e,
  get db iid = Some e ->
  exists e',
    get (fst (cli_loop db its inputs)) iid = Some e' /\ resolved_from e e'.
Proof.
  induction its as [|k its IH]; intros db inputs iid e He; simpl.
  - exists e. split; [assumption | apply resolved_from_refl].
  - destruct (cli_item_resolved db k inputs iid e He) as (e1 & H1 & R1).
    destruct (cli_item db k inputs) as [[db1 inputs1] [ex|]]; simpl in *.
    + now exists e1.
    + destruct (IH db1 inputs1 iid e1 H1) as (e2 & H2 & R2).
      exists e2. split; [assumption|]. eapply resolved_from_trans; eauto.
Qed.

Lemma prompt_gui_resolved cap db evs iid e :
  get db iid = Some e ->
  exists e',
    get (prompt_missing_meta_fields cap db evs) iid = Some e'
    /\ resolved_from e e'.
Proof.
  intros He. unfold prompt_missing_meta_fields.
  destruct (pending cap db) as [|p ps].
  - exists e. split; [assumption | apply resolved_from_refl].
  - apply mainloop_resolved. unfold MetaFillWizard_init.
    now rewrite load_current_db.
Qed.

(** C7. Submitting an answer, whatever the operator selected, leaves every
    field that was not empty as it was: in the window (one submission, and
    any run of the operator's actions) and in the console fallback. *)
Theorem resolver_never_overwrites :
  (forall w iid e,
      get (w_db w) iid = Some e ->
      exists e',
        get (w_db (on_save_next w)) iid = Some e' /\ resolved_from e e')
  /\ (forall cap db evs iid e,
         get db iid = Some e ->
         exists e',
           get (prompt_missing_meta_fields cap db evs) iid = Some e'
           /\ resolved_from e e')
  /\ (forall cap db inputs iid e,
         get db iid = Some e ->
         exists e',
           get (fst (prompt_missing_meta_fields_cli cap db inputs)) iid
           = Some e'
           /\ resolved_from e e').
Proof.
  split; [|split].
  - apply on_save_next_resolved.
  - apply prompt_gui_resolved.
  - intros cap db inputs iid e He. unfold prompt_missing_meta_fields_cli.
    now apply cli_loop_resolved.
Qed.

(** The operator selects a category for an entry that has one, and a
    rarity for the same entry, which has none. *)
Lemma resolver_never_overwrites_witness :
  let e := {| name := "Amber"; item_type := Some "角色"; rank_type := None;
              item_id := "7" |} in
  get half_filled "7" = Some e
  /\ exists e',
       get (prompt_missing_meta_fields 4300 half_filled
              [SelectType "武器"; SelectRank "4"; SaveNext]) "7" = Some e'
       /\ resolved_from e e'.
Proof.
  intros e. split; [reflexivity|].
  apply (proj1 (proj2 resolver_never_overwrites)). reflexivity.
Defined.

Example submit_writes_empty_fields_only :
  prompt_missing_meta_fields 4300 half_filled
    [SelectType "武器"; SelectRank "4"; SaveNext]
  = [("7", {| name := "Amber"; item_type := Some "角色";
              rank_type := Some "4"; item_id := "7" |})]
  /\ prompt_missing_meta_fields_cli 4300 half_filled ["9"; " 4 "]
     = ([("7", {| name := "Amber"; item_type := Some "角色";
                  rank_type := Some "4"; item_id := "7" |})], None)
  /\ prompt_missing_meta_fields_cli 4300 half_filled ["x"]
     = (half_filled, Some EOFError).
Proof. repeat split; reflexivity. Qed.

(* ================================================================== *)
(** ** Loading the store                                               *)
(* ================================================================== *)

Lemma field_req_str_shape o k :
  is_error (field_req_str o k) = negb (is_str (dict_get o k)).
Proof.
  unfold field_req_str, is_str.
  destruct (dict_get o k) as [[]|]; reflexivity.
Qed.

Lemma field_opt_str_shape o k :
  is_error (field_opt_str o k) = negb (is_opt_str (dict_get o k)).
Proof.
  unfold field_opt_str, is_opt_str.
  destruct (dict_get o k) as [[]|]; reflexivity.
Qed.

Lemma item_of_kwargs_shape j :
  is_error (StarwardMetaItem_of_kwargs j) = negb (entry_shape_ok j).
Proof.
  destruct j; try reflexivity. unfold StarwardMetaItem_of_kwargs, entry_shape_ok.
  pose proof (field_req_str_shape fields "name") as H1.
  pose proof (field_opt_str_shape fields "item_type") as H2.
  pose proof (field_opt_str_shape fields "rank_type") as H3.
  pose proof (field_req_str_shape fields "item_id") as H4.
  destruct (field_req_str fields "name"); simpl in *;
    destruct (is_str (dict_get fields "name")); try discriminate;
    try reflexivity.
  destruct (field_opt_str fields "item_type"); simpl in *;
    destruct (is_opt_str (dict_get fields "item_type")); try discriminate;
    try reflexivity.
  destruct (field_opt_str fields "rank_type"); simpl in *;
    destruct (is_opt_str (dict_get fields "rank_type")); try discriminate;
    try reflexivity.
  destruct (field_req_str fields "item_id"); simpl in *;
    destruct (is_str (dict_get fields "item_id")); try discriminate;
    reflexivity.
Qed.

Lemma item_of_kwargs_error j e :
  StarwardMetaItem_of_kwargs j = inl e -> e = TypeError \/ e = ValidationError.
Proof.
  destruct j; simpl; try (intros H; inversion H; now left).
  intros H. right. revert H.
  unfold field_req_str, field_opt_str.
  repeat match goal with
         | |- context [dict_get fields ?k] =>
             destruct (dict_get fields k) as [[]|]; simpl
         end;
    intros H; inversion H; reflexivity.
Qed.

Lemma load_entries_shape entries : forall db,
  is_error
    (for_each
       (fun db kv =>
          bind (StarwardMetaItem_of_kwargs (snd kv))
            (fun item => ret (dict_set db (fst kv) item)))
       entries db)
  = negb (forallb (fun kv => entry_shape_ok (snd kv)) entries).
Proof.
  induction entries as [|kv entries IH]; intros db; simpl; [reflexivity|].
  pose proof (item_of_kwargs_shape (snd kv)) as H.
  destruct (StarwardMetaItem_of_kwargs (snd kv)); simpl in *;
    destruct (entry_shape_ok (snd kv)); try discriminate; simpl;
    [reflexivity | apply IH].
Qed.

Lemma load_entries_error entries : forall db e,
  for_each
    (fun db kv =>
       bind (StarwardMetaItem_of_kwargs (snd kv))
         (fun item => ret (dict_set db (fst kv) item)))
    entries db = inl e ->
  e = TypeError \/ e = ValidationError.
Proof.
  induction entries as [|kv entries IH]; intros db e; simpl; [discriminate|].
  destruct (StarwardMetaItem_of_kwargs (snd kv)) eqn:E; simpl.
  - intros H. inversion H. subst. eapply item_of_kwargs_error; eauto.
  - apply IH.
Qed.

(** C9. Loading fails exactly when the content is not an object whose
    [by_id], if present, is an object of well-formed entries; the exception
    is an [AttributeError] for a wrong root or a wrong [by_id], a [TypeError]
    or a [ValidationError] for a wrong entry.  A root object without
    [by_id] loads as the empty store. *)
Theorem read_starward_meta_db_shape (data : json) :
  is_error (read_starward_meta_db data) = negb (store_shape_ok data)
  /\ (forall e, read_starward_meta_db data = inl e ->
        e = AttributeError \/ e = TypeError \/ e = ValidationError)
  /\ (forall o, data = JObj o -> dict_get o "by_id" = None ->
        read_starward_meta_db data = inr []).
Proof.
  split; [|split].
  - destruct data; try reflexivity. unfold read_starward_meta_db, store_shape_ok.
    destruct (dict_get fields "by_id") as [[]|]; try reflexivity.
    apply load_entries_shape.
  - intros e. destruct data; simpl; try (intros H; inversion H; now left).
    destruct (dict_get fields "by_id") as [[]|]; simpl;
      try (intros H; inversion H; now left); try discriminate.
    intros H. right. eapply load_entries_error; eauto.
  - intros o -> H. unfold read_starward_meta_db. now rewrite H.
Qed.

Lemma read_starward_meta_db_shape_witness :
  read_starward_meta_db store_without_by_id = inr []
  /\ (forall e, read_starward_meta_db (JArr []) = inl e ->
        e = AttributeError \/ e = TypeError \/ e = ValidationError).
Proof.
  split.
  - apply (proj2 (proj2 (read_starward_meta_db_shape store_without_by_id))
             [("version", JInt 1)]); reflexivity.
  - apply (proj1 (proj2 (read_starward_meta_db_shape (JArr [])))).
Defined.

Example read_starward_meta_db_cases :
  read_starward_meta_db (JArr []) = inl AttributeError
  /\ read_starward_meta_db (JObj [("by_id", JNull)]) = inl AttributeError
  /\ read_starward_meta_db (JObj [("by_id", JObj [("1", JStr "x")])])
     = inl TypeError
  /\ read_starward_meta_db
       (JObj [("by_id", JObj [("1", JObj [("name", JStr "x")])])])
     = inl ValidationError
  /\ read_starward_meta_db
       (JObj [("by_id",
               JObj [("1", JObj [("name", JStr "x"); ("item_id", JStr "1");
                                 ("rank_type", JNull); ("note", JInt 3)])])])
     = inr [("1", {| name := "x"; item_type := None; rank_type := None;
                     item_id := "1" |})].
Proof. repeat split; reflexivity. Qed.

(* ================================================================== *)
(** ** The dialect readers                                             *)
(* ================================================================== *)

Lemma map_result_Forall2 {A B} (f : A -> result B) l : forall l',
  map_result f l = inr l' -> Forall2 (fun x y => f x = inr y) l l'.
Proof.
  induction l as [|x l IH]; simpl; intros l' H.
  - inversion H. constructor.
  - destruct (f x) as [e|y] eqn:E; simpl in H; [discriminate|].
    destruct (map_result f l) as [e|ys]; simpl in H; [discriminate|].
    inversion H. subst. constructor; auto.
Qed.

Lemma map_result_only_validation {A B} (f : A -> result B) l :
  (forall x, only_validation (f x)) -> only_validation (map_result f l).
Proof.
  intros Hf. induction l as [|x l IH]; intros e; simpl; [discriminate|].
  destruct (f x) as [e0|y] eqn:E; simpl.
  - intros H. inversion H. subst. now apply (Hf x).
  - destruct (map_result f l) as [e1|ys]; simpl; [|discriminate].
    intros H. inversion H. subst. now apply IH.
Qed.

Section Readers.

Variable lax_int : json -> option Z.

Ltac validation_cases :=
  unfold only_validation, field_req_str, field_opt_str, field_opt_int,
    field_dict_default, field_req_dict, field_opt_list;
  intros;
  repeat match goal with
         | H : context [match dict_get ?o ?k with _ => _ end] |- _ =>
             destruct (dict_get o k) as [[]|]; simpl in H
         | H : context [match lax_int ?j with _ => _ end] |- _ =>
             destruct (lax_int j); simpl in H
         end;
  try discriminate;
  try match goal with
      | H : inl _ = inl _ |- _ => now inversion H
      | H : raise _ = inl _ |- _ => now inversion H
      end.

Lemma field_req_str_only o k : only_validation (field_req_str o k).
Proof. validation_cases. Qed.

Lemma field_opt_str_only o k : only_validation (field_opt_str o k).
Proof. validation_cases. Qed.

Lemma field_opt_int_only o k : only_validation (field_opt_int lax_int o k).
Proof. validation_cases. Qed.

Lemma field_dict_default_only o k : only_validation (field_dict_default o k).
Proof. validation_cases. Qed.

Lemma field_req_dict_only o k : only_validation (field_req_dict o k).
Proof. validation_cases. Qed.

Lemma field_opt_list_only o k : only_validation (field_opt_list o k).
Proof. validation_cases. Qed.

Lemma field_list_default_only {T} (item : json -> result T) o k :
  (forall j, only_validation (item j)) ->
  only_validation (field_list_default item o k).
Proof.
  intros Hi. unfold field_list_default.
  destruct (dict_get o k) as [[]|];
    try (intros e H; now inversion H).
  now apply map_result_only_validation.
Qed.

Lemma bind_only {A B} (m : result A) (k : A -> result B) :
  only_validation m -> (forall a, only_validation (k a)) ->
  only_validation (bind m k).
Proof.
  intros Hm Hk. destruct m as [e|a]; simpl; [|apply Hk].
  intros e' H. inversion H. subst. now apply Hm.
Qed.

Lemma ret_only {A} (a : A) : only_validation (ret a).
Proof. intros e H. discriminate. Qed.

Lemma raise_only {A} : only_validation (@raise A ValidationError).
Proof. intros e H. now inversion H. Qed.

Ltac only_tac :=
  repeat first
    [ apply ret_only
    | apply raise_only
    | apply field_req_str_only
    | apply field_opt_str_only
    | apply field_opt_int_only
    | apply field_dict_default_only
    | apply field_req_dict_only
    | apply field_opt_list_only
    | apply bind_only; [|intros ?] ].

Lemma validate_SnapHutaoRecord_only j :
  only_validation (validate_SnapHutaoRecord j).
Proof. destruct j; simpl; only_tac. Qed.

Lemma validate_StarwardRecord_only j :
  only_validation (validate_StarwardRecord j).
Proof. destruct j; simpl; only_tac. Qed.

Lemma validate_SnapHutaoUserBundle_only j :
  only_validation (validate_SnapHutaoUserBundle lax_int j).
Proof.
  destruct j; simpl; only_tac.
  apply field_list_default_only, validate_SnapHutaoRecord_only.
Qed.

Lemma validate_StarwardUserBundle_only j :
  only_validation (validate_StarwardUserBundle lax_int j).
Proof.
  destruct j; simpl; only_tac.
  apply field_list_default_only, validate_StarwardRecord_only.
Qed.

(** What an accepted bundle was read from. *)
Lemma snap_bundle_accepted j b :
  validate_SnapHutaoUserBundle lax_int j = inr b ->
  exists o,
    j = JObj o /\ dict_get o "uid" = Some (JStr (shb_uid b))
    /\ (dict_get o "list" = None -> shb_list b = []).
Proof.
  destruct j; try discriminate. simpl. intros H. exists fields.
  split; [reflexivity|]. revert H. unfold field_req_str, field_list_default.
  destruct (dict_get fields "uid") as [[]|]; try discriminate. simpl.
  destruct (field_opt_int lax_int fields "timezone"); try discriminate. simpl.
  destruct (dict_get fields "list") as [[]|]; simpl; try discriminate.
  - destruct (map_result validate_SnapHutaoRecord elems); simpl;
      try discriminate.
    intros H. inversion H. simpl. split; [reflexivity | discriminate].
  - intros H. inversion H. simpl. split; reflexivity.
Qed.

Lemma starward_bundle_accepted j b :
  validate_StarwardUserBundle lax_int j = inr b ->
  exists o,
    j = JObj o /\ dict_get o "uid" = Some (JStr (sb_uid b))
    /\ (dict_get o "list" = None -> sb_list b = []).
Proof.
  destruct j; try discriminate. simpl. intros H. exists fields.
  split; [reflexivity|]. revert H. unfold field_req_str, field_list_default.
  destruct (dict_get fields "uid") as [[]|]; try discriminate. simpl.
  destruct (field_opt_int lax_int fields "timezone"); try discriminate. simpl.
  destruct (field_opt_str fields "lang"); try discriminate. simpl.
  destruct (dict_get fields "list") as [[]|]; simpl; try discriminate.
  - destruct (map_result validate_StarwardRecord elems); simpl;
      try discriminate.
    intros H. inversion H. simpl. split; [reflexivity | discriminate].
  - intros H. inversion H. simpl. split; reflexivity.
Qed.

Lemma read_snap_accepted fields out :
  read_snap_hutao_uigf4 lax_int (JObj fields) = inr out ->
  match dict_get fields "hk4e" with
  | None => shu_hk4e out = []
  | Some j =>
      exists bundles,
        j = JArr bundles
        /\ Forall2
             (fun j b => validate_SnapHutaoUserBundle lax_int j = inr b)
             bundles (shu_hk4e out)
  end.
Proof.
  unfold read_snap_hutao_uigf4. simpl.
  destruct (field_req_dict fields "info"); simpl; [discriminate|].
  unfold field_list_default.
  destruct (dict_get fields "hk4e") as [[]|]; simpl; try discriminate.
  - destruct (map_result (validate_SnapHutaoUserBundle lax_int) elems)
      as [e|hk] eqn:E; simpl; [discriminate|].
    intros H. inversion H. simpl. exists elems. split; [reflexivity|].
    now apply map_result_Forall2.
  - intros H. now inversion H.
Qed.

Lemma read_starward_accepted fields out :
  read_starward_uigf4 lax_int (JObj fields) = inr out ->
  match dict_get fields "hk4e" with
  | None => su_hk4e out = []
  | Some j =>
      exists bundles,
        j = JArr bundles
        /\ Forall2
             (fun j b => validate_StarwardUserBundle lax_int j = inr b)
             bundles (su_hk4e out)
  end.
Proof.
  unfold read_starward_uigf4. simpl.
  destruct (field_req_dict fields "info"); simpl; [discriminate|].
  unfold field_list_default.
  destruct (dict_get fields "hk4e") as [[]|]; simpl; try discriminate.
  - destruct (map_result (validate_StarwardUserBundle lax_int) elems)
      as [e|hk] eqn:E; simpl; [discriminate|].
    destruct (field_opt_list fields "hkrpg"); simpl; [discriminate|].
    destruct (field_opt_list fields "nap"); simpl; [discriminate|].
    intros H. inversion H. simpl. exists elems. split; [reflexivity|].
    now apply map_result_Forall2.
  - destruct (field_opt_list fields "hkrpg"); simpl; [discriminate|].
    destruct (field_opt_list fields "nap"); simpl; [discriminate|].
    intros H. now inversion H.
Qed.

End Readers.

(** C8, as the specification states it, fails: a bundle whose [uid] is the
    empty string passes validation in both readers (and its absent list is
    read as empty). *)
Lemma readers_accept_empty_uid :
  existsb uid_empty_or_missing [JObj [("uid", JStr "")]] = true
  /\ read_snap_hutao_uigf4 int_only empty_uid_doc
     = inr {| shu_info := [];
              shu_hk4e := [ {| shb_uid := ""; shb_timezone := None;
                               shb_list := [] |} ] |}
  /\ read_starward_uigf4 int_only empty_uid_doc
     = inr {| su_info := [];
              su_hk4e := [ {| sb_uid := ""; sb_timezone := None;
                              sb_lang := None; sb_list := [] |} ];
              su_hkrpg := None; su_nap := None |}.
Proof. repeat split; reflexivity. Qed.

Ltac only_validation_tac :=
  repeat first
    [ apply ret_only
    | apply raise_only
    | apply field_req_str_only
    | apply field_opt_str_only
    | apply field_opt_int_only
    | apply field_dict_default_only
    | apply field_req_dict_only
    | apply field_opt_list_only
    | apply bind_only; [|intros ?] ].

Lemma validate_SnapHutaoUIGF_only lax_int j :
  only_validation (validate_SnapHutaoUIGF lax_int j).
Proof.
  destruct j; simpl; only_validation_tac.
  apply field_list_default_only, validate_SnapHutaoUserBundle_only.
Qed.

Lemma validate_StarwardUIGF_only lax_int j :
  only_validation (validate_StarwardUIGF lax_int j).
Proof.
  destruct j; simpl; only_validation_tac.
  apply field_list_default_only, validate_StarwardUserBundle_only.
Qed.

(** Which values each validator refuses. *)

Lemma field_dict_default_shape o k :
  is_error (field_dict_default o k) = negb (is_opt_obj (dict_get o k)).
Proof.
  unfold field_dict_default, is_opt_obj.
  destruct (dict_get o k) as [[]|]; reflexivity.
Qed.

Lemma field_req_dict_shape o k :
  is_error (field_req_dict o k) = negb (is_obj (dict_get o k)).
Proof.
  unfold field_req_dict, is_obj.
  destruct (dict_get o k) as [[]|]; reflexivity.
Qed.

Lemma field_opt_list_shape o k :
  is_error (field_opt_list o k) = negb (is_opt_arr (dict_get o k)).
Proof.
  unfold field_opt_list, is_opt_arr.
  destruct (dict_get o k) as [[]|]; reflexivity.
Qed.

Lemma field_opt_int_shape lax_int o k :
  is_error (field_opt_int lax_int o k)
  = negb (is_opt_int lax_int (dict_get o k)).
Proof.
  unfold field_opt_int, is_opt_int.
  destruct (dict_get o k) as [j|]; [|reflexivity].
  destruct j; try reflexivity;
    match goal with
    | |- context [lax_int ?v] => destruct (lax_int v); reflexivity
    end.
Qed.

Lemma map_result_shape {A B} (f : A -> result B) (ok : A -> bool) l :
  (forall x, is_error (f x) = negb (ok x)) ->
  is_error (map_result f l) = negb (forallb ok l).
Proof.
  intros Hf. induction l as [|x l IH]; simpl; [reflexivity|].
  pose proof (Hf x) as Hx.
  destruct (f x); simpl in *; destruct (ok x); try discriminate; simpl;
    [reflexivity|].
  destruct (map_result f l); simpl in *; destruct (forallb ok l);
    try discriminate; reflexivity.
Qed.

Lemma field_list_default_shape {T} (item : json -> result T)
    (ok : json -> bool) o k :
  (forall x, is_error (item x) = negb (ok x)) ->
  is_error (field_list_default item o k)
  = negb (is_opt_list_of ok (dict_get o k)).
Proof.
  intros Hf. unfold field_list_default, is_opt_list_of.
  destruct (dict_get o k) as [[]|]; try reflexivity.
  now apply map_result_shape.
Qed.

(** One field after the other, as the validators go through them. *)
Ltac shape_step H :=
  match type of H with
  | is_error ?m = negb ?c =>
      destruct m; simpl in H; destruct c; try discriminate; simpl;
      try reflexivity; clear H
  end.

Lemma validate_SnapHutaoRecord_shape j :
  is_error (validate_SnapHutaoRecord j)
  = negb (record_shape_ok snap_record_fields j).
Proof.
  destruct j; try reflexivity.
  unfold validate_SnapHutaoRecord, record_shape_ok, snap_record_fields.
  cbn [forallb].
  pose proof (field_opt_str_shape fields "uigf_gacha_type") as H1.
  pose proof (field_opt_str_shape fields "gacha_type") as H2.
  pose proof (field_opt_str_shape fields "item_id") as H3.
  pose proof (field_opt_str_shape fields "time") as H4.
  pose proof (field_opt_str_shape fields "id") as H5.
  pose proof (field_dict_default_shape fields "extra") as H6.
  shape_step H1. shape_step H2. shape_step H3. shape_step H4. shape_step H5.
  shape_step H6.
Qed.

Lemma validate_StarwardRecord_shape j :
  is_error (validate_StarwardRecord j)
  = negb (record_shape_ok starward_record_fields j).
Proof.
  destruct j; try reflexivity.
  unfold validate_StarwardRecord, record_shape_ok, starward_record_fields.
  cbn [forallb].
  pose proof (field_opt_str_shape fields "uigf_gacha_type") as H1.
  pose proof (field_opt_str_shape fields "uid") as H2.
  pose proof (field_opt_str_shape fields "id") as H3.
  pose proof (field_opt_str_shape fields "gacha_type") as H4.
  pose proof (field_opt_str_shape fields "name") as H5.
  pose proof (field_opt_str_shape fields "item_type") as H6.
  pose proof (field_opt_str_shape fields "rank_type") as H7.
  pose proof (field_opt_str_shape fields "time") as H8.
  pose proof (field_opt_str_shape fields "item_id") as H9.
  pose proof (field_opt_str_shape fields "count") as H10.
  pose proof (field_opt_str_shape fields "lang") as H11.
  pose proof (field_dict_default_shape fields "extra") as H12.
  shape_step H1. shape_step H2. shape_step H3. shape_step H4. shape_step H5.
  shape_step H6. shape_step H7. shape_step H8. shape_step H9. shape_step H10.
  shape_step H11. shape_step H12.
Qed.

Lemma validate_SnapHutaoUserBundle_shape lax_int j :
  is_error (validate_SnapHutaoUserBundle lax_int j)
  = negb (snap_bundle_shape_ok lax_int j).
Proof.
  destruct j; try reflexivity.
  unfold validate_SnapHutaoUserBundle, snap_bundle_shape_ok.
  pose proof (field_req_str_shape fields "uid") as H1.
  pose proof (field_opt_int_shape lax_int fields "timezone") as H2.
  pose proof (field_list_default_shape validate_SnapHutaoRecord _ fields "list"
                validate_SnapHutaoRecord_shape) as H3.
  shape_step H1. shape_step H2. shape_step H3.
Qed.

Lemma validate_StarwardUserBundle_shape lax_int j :
  is_error (validate_StarwardUserBundle lax_int j)
  = negb (starward_bundle_shape_ok lax_int j).
Proof.
  destruct j; try reflexivity.
  unfold validate_StarwardUserBundle, starward_bundle_shape_ok.
  pose proof (field_req_str_shape fields "uid") as H1.
  pose proof (field_opt_int_shape lax_int fields "timezone") as H2.
  pose proof (field_opt_str_shape fields "lang") as H3.
  pose proof (field_list_default_shape validate_StarwardRecord _ fields "list"
                validate_StarwardRecord_shape) as H4.
  shape_step H1. shape_step H2. shape_step H3. shape_step H4.
Qed.

Lemma validate_SnapHutaoUIGF_shape lax_int data :
  is_error (validate_SnapHutaoUIGF lax_int data)
  = negb (snap_doc_shape_ok lax_int data).
Proof.
  destruct data; try reflexivity.
  unfold validate_SnapHutaoUIGF, snap_doc_shape_ok.
  pose proof (field_req_dict_shape fields "info") as H1.
  pose proof (field_list_default_shape (validate_SnapHutaoUserBundle lax_int)
                _ fields "hk4e"
                (validate_SnapHutaoUserBundle_shape lax_int)) as H2.
  shape_step H1. shape_step H2.
Qed.

Lemma validate_StarwardUIGF_shape lax_int data :
  is_error (validate_StarwardUIGF lax_int data)
  = negb (starward_doc_shape_ok lax_int data).
Proof.
  destruct data; try reflexivity.
  unfold validate_StarwardUIGF, starward_doc_shape_ok.
  pose proof (field_req_dict_shape fields "info") as H1.
  pose proof (field_list_default_shape (validate_StarwardUserBundle lax_int)
                _ fields "hk4e"
                (validate_StarwardUserBundle_shape lax_int)) as H2.
  pose proof (field_opt_list_shape fields "hkrpg") as H3.
  pose proof (field_opt_list_shape fields "nap") as H4.
  shape_step H1. shape_step H2. shape_step H3. shape_step H4.
Qed.

(** A reader returns the validated document, or raises its own error from
    the validation error. *)
Lemma read_snap_cases lax_int data :
  if snap_doc_shape_ok lax_int data
  then exists out, read_snap_hutao_uigf4 lax_int data = inr out
  else read_snap_hutao_uigf4 lax_int data
       = raise (RuntimeErrorFrom "Snap Hutao UIGF 验证失败: " ValidationError).
Proof.
  pose proof (validate_SnapHutaoUIGF_shape lax_int data) as H.
  unfold read_snap_hutao_uigf4, wrap_validation.
  destruct (validate_SnapHutaoUIGF lax_int data) as [e|out] eqn:E;
    simpl in H; destruct (snap_doc_shape_ok lax_int data); try discriminate.
  - now rewrite (validate_SnapHutaoUIGF_only lax_int data e E).
  - now exists out.
Qed.

Lemma read_starward_cases lax_int data :
  if starward_doc_shape_ok lax_int data
  then exists out, read_starward_uigf4 lax_int data = inr out
  else read_starward_uigf4 lax_int data
       = raise (RuntimeErrorFrom "Starward UIGF 验证失败: " ValidationError).
Proof.
  pose proof (validate_StarwardUIGF_shape lax_int data) as H.
  unfold read_starward_uigf4, wrap_validation.
  destruct (validate_StarwardUIGF lax_int data) as [e|out] eqn:E;
    simpl in H; destruct (starward_doc_shape_ok lax_int data);
    try discriminate.
  - now rewrite (validate_StarwardUIGF_only lax_int data e E).
  - now exists out.
Qed.

Lemma read_snap_bundles lax_int data out :
  read_snap_hutao_uigf4 lax_int data = inr out ->
  Forall2 snap_bundle_read (bundles_of data) (shu_hk4e out).
Proof.
  destruct data; try discriminate. intros Ho.
  apply read_snap_accepted in Ho. unfold bundles_of.
  destruct (dict_get fields "hk4e") as [j|].
  - destruct Ho as (bs & -> & F).
    eapply Forall2_impl; [|exact F]. apply snap_bundle_accepted.
  - rewrite Ho. constructor.
Qed.

Lemma read_starward_bundles lax_int data out :
  read_starward_uigf4 lax_int data = inr out ->
  Forall2 starward_bundle_read (bundles_of data) (su_hk4e out).
Proof.
  destruct data; try discriminate. intros Ho.
  apply read_starward_accepted in Ho. unfold bundles_of.
  destruct (dict_get fields "hk4e") as [j|].
  - destruct Ho as (bs & -> & F).
    eapply Forall2_impl; [|exact F]. apply starward_bundle_accepted.
  - rewrite Ho. constructor.
Qed.

Lemma missing_uid_not_ok (ok : json -> bool) l :
  (forall j, ok j = true -> has_uid j = true) ->
  forallb has_uid l = false -> forallb ok l = false.
Proof.
  intros Hok. induction l as [|j l IH]; simpl; [discriminate|].
  destruct (ok j) eqn:O; [|reflexivity].
  rewrite (Hok j O). simpl. exact IH.
Qed.

Lemma snap_bundle_ok_has_uid lax_int j :
  snap_bundle_shape_ok lax_int j = true -> has_uid j = true.
Proof.
  destruct j; try discriminate. simpl.
  destruct (is_str (dict_get fields "uid")); [reflexivity | discriminate].
Qed.

Lemma starward_bundle_ok_has_uid lax_int j :
  starward_bundle_shape_ok lax_int j = true -> has_uid j = true.
Proof.
  destruct j; try discriminate. simpl.
  destruct (is_str (dict_get fields "uid")); [reflexivity | discriminate].
Qed.

Lemma missing_uid_snap_doc lax_int data :
  forallb has_uid (bundles_of data) = false ->
  snap_doc_shape_ok lax_int data = false.
Proof.
  destruct data; try reflexivity. unfold bundles_of, snap_doc_shape_ok.
  destruct (dict_get fields "hk4e") as [[]|]; try discriminate.
  intros H. simpl.
  rewrite (missing_uid_not_ok _ _ (snap_bundle_ok_has_uid lax_int) H).
  apply andb_false_r.
Qed.

Lemma missing_uid_starward_doc lax_int data :
  forallb has_uid (bundles_of data) = false ->
  starward_doc_shape_ok lax_int data = false.
Proof.
  destruct data; try reflexivity. unfold bundles_of, starward_doc_shape_ok.
  destruct (dict_get fields "hk4e") as [[]|]; try discriminate.
  intros H. simpl.
  rewrite (missing_uid_not_ok _ _ (starward_bundle_ok_has_uid lax_int) H).
  now rewrite andb_false_r.
Qed.

(** C8, amended.  Both readers require every user bundle to be an object
    with a string under [uid], and do not look at the string: a document is
    read exactly when it has the shape the models declare, in which a
    bundle's [uid] is any string, the empty one included, and a bundle's
    record list, like the document's bundle list, may be absent.  In the
    document read every bundle has the [uid] string of the file, and an
    empty record list where the file has none.  Any other document, and so
    any document with a bundle that lacks a string under [uid], is refused
    with the reader's [RuntimeError] raised from the [ValidationError]. *)
Theorem readers_require_uid_string (lax_int : json -> option Z) (data : json) :
  (snap_doc_shape_ok lax_int data = true ->
   exists out,
     read_snap_hutao_uigf4 lax_int data = inr out
     /\ Forall2 snap_bundle_read (bundles_of data) (shu_hk4e out))
  /\ (snap_doc_shape_ok lax_int data = false ->
      read_snap_hutao_uigf4 lax_int data
      = raise (RuntimeErrorFrom "Snap Hutao UIGF 验证失败: " ValidationError))
  /\ (starward_doc_shape_ok lax_int data = true ->
      exists out,
        read_starward_uigf4 lax_int data = inr out
        /\ Forall2 starward_bundle_read (bundles_of data) (su_hk4e out))
  /\ (starward_doc_shape_ok lax_int data = false ->
      read_starward_uigf4 lax_int data
      = raise (RuntimeErrorFrom "Starward UIGF 验证失败: " ValidationError))
  /\ (forallb has_uid (bundles_of data) = false ->
      read_snap_hutao_uigf4 lax_int data
      = raise (RuntimeErrorFrom "Snap Hutao UIGF 验证失败: " ValidationError)
      /\ read_starward_uigf4 lax_int data
         = raise (RuntimeErrorFrom "Starward UIGF 验证失败: " ValidationError)).
Proof.
  pose proof (read_snap_cases lax_int data) as Hs.
  pose proof (read_starward_cases lax_int data) as Hw.
  pose proof (missing_uid_snap_doc lax_int data) as Ms.
  pose proof (missing_uid_starward_doc lax_int data) as Mw.
  split; [|split; [|split; [|split]]].
  - intros Hok. rewrite Hok in Hs. destruct Hs as (out & Ho).
    exists out. split; [assumption|]. eapply read_snap_bundles; eauto.
  - intros Hok. now rewrite Hok in Hs.
  - intros Hok. rewrite Hok in Hw. destruct Hw as (out & Ho).
    exists out. split; [assumption|]. eapply read_starward_bundles; eauto.
  - intros Hok. now rewrite Hok in Hw.
  - intros H. rewrite (Ms H) in Hs. rewrite (Mw H) in Hw. now split.
Qed.

(** A bundle with the empty string as [uid] and no record list next to an
    ordinary one is read; a bundle without [uid] is refused. *)
Lemma readers_require_uid_string_witness :
  (exists out,
      read_snap_hutao_uigf4 int_only two_bundle_doc = inr out
      /\ Forall2 snap_bundle_read (bundles_of two_bundle_doc) (shu_hk4e out))
  /\ (exists out,
         read_starward_uigf4 int_only two_bundle_doc = inr out
         /\ Forall2 starward_bundle_read (bundles_of two_bundle_doc)
              (su_hk4e out))
  /\ read_snap_hutao_uigf4 int_only (JObj missing_uid_fields)
     = raise (RuntimeErrorFrom "Snap Hutao UIGF 验证失败: " ValidationError)
  /\ read_starward_uigf4 int_only (JObj missing_uid_fields)
     = raise (RuntimeErrorFrom "Starward UIGF 验证失败: " ValidationError).
Proof.
  split; [|split].
  - exact (proj1 (readers_require_uid_string int_only two_bundle_doc)
             eq_refl).
  - exact (proj1 (proj2 (proj2 (readers_require_uid_string int_only
                                  two_bundle_doc)))
             eq_refl).
  - exact (proj2 (proj2 (proj2 (proj2
             (readers_require_uid_string int_only (JObj missing_uid_fields)))))
             eq_refl).
Defined.

Example read_two_bundle_doc :
  read_snap_hutao_uigf4 int_only two_bundle_doc
  = inr {| shu_info := [("version", JStr "v4.0")];
           shu_hk4e :=
             [ {| shb_uid := ""; shb_timezone := None; shb_list := [] |};
               {| shb_uid := "100000001"; shb_timezone := Some 8%Z;
                  shb_list :=
                    [ {| sh_uigf_gacha_type := None; sh_gacha_type := None;
                         sh_item_id := Some "10"; sh_time := None;
                         sh_id := None; sh_extra := [];
                         sh_model_extra := [] |} ] |} ] |}.
Proof. reflexivity. Qed.

(* ================================================================== *)
(** ** More on the merge engine                                        *)
(* ================================================================== *)

Lemma dict_set_set {V} (d : dict V) k v v' :
  dict_set (dict_set d k v) k v' = dict_set d k v'.
Proof.
  induction d as [|[k0 v0] d IH]; simpl.
  - now rewrite String.eqb_refl.
  - destruct (k0 =? k) eqn:E; simpl; rewrite E; [reflexivity|].
    now rewrite IH.
Qed.

Lemma fill_twice t n ty rk : fill (fill t n ty rk) n ty rk = fill t n ty rk.
Proof.
  pose (s := {| name := n; item_type := ty; rank_type := rk; item_id := "" |}).
  apply (fill_noop s). apply (fill_covers s).
Qed.

(** X1. Filling from the same record a second time changes nothing. *)
Theorem add_from_record_idempotent (db : StarwardMetaDB) (rec : StarwardRecord) :
  add_from_record (add_from_record db rec) rec = add_from_record db rec.
Proof.
  rewrite !add_from_record_spec.
  destruct (negb (truthy (sr_item_id rec))) eqn:E; [reflexivity|].
  cbv zeta. set (iid := str_of_opt (sr_item_id rec)).
  destruct (dict_get db iid) as [meta|] eqn:G.
  - rewrite dict_get_set_eq, fill_twice. apply dict_set_set.
  - rewrite dict_get_set_eq, dict_set_set. f_equal.
    set (e0 := {| name := or_empty (sr_name rec);
                  item_type := sr_item_type rec;
                  rank_type := sr_rank_type rec; item_id := iid |}).
    apply (fill_noop e0 e0), covers_refl.
Qed.

Lemma dict_set_keys_grow {V} (d : dict V) k v :
  exists added, keys (dict_set d k v) = keys d ++ added.
Proof.
  rewrite keys_dict_set. destruct (dict_contains d k).
  - exists []. now rewrite app_nil_r.
  - now exists [k].
Qed.

Lemma merge_entry_keys_grow into kv :
  exists added, keys (merge_entry into kv) = keys into ++ added.
Proof.
  unfold merge_entry. destruct (dict_get into (fst kv));
    apply dict_set_keys_grow.
Qed.

Lemma merge_keys_grow src : forall into,
  exists added, keys (merge_meta_db into src) = keys into ++ added.
Proof.
  induction src as [|kv src IH]; intros into.
  - exists []. now rewrite app_nil_r.
  - rewrite merge_meta_db_fold. simpl. rewrite <- merge_meta_db_fold.
    destruct (merge_entry_keys_grow into kv) as (a1 & H1).
    destruct (IH (merge_entry into kv)) as (a2 & H2).
    exists (a1 ++ a2). now rewrite H2, H1, app_assoc.
Qed.

Lemma add_from_record_keys_grow db rec :
  exists added, keys (add_from_record db rec) = keys db ++ added.
Proof.
  rewrite add_from_record_spec.
  destruct (negb (truthy (sr_item_id rec))).
  - exists []. now rewrite app_nil_r.
  - cbv zeta. destruct (dict_get db (str_of_opt (sr_item_id rec)));
      apply dict_set_keys_grow.
Qed.

(** X2. Merges and record fills never drop or reorder entries: the ids of
    the store stay where they are, new ids come after them. *)
Theorem run_ops_keys_grow (ops : list store_op) : forall db : StarwardMetaDB,
  exists added, keys (run_ops db ops) = keys db ++ added.
Proof.
  induction ops as [|op ops IH]; intros db.
  - exists []. now rewrite app_nil_r.
  - unfold run_ops. simpl.
    assert (H1 : exists a1, keys (apply_op db op) = keys db ++ a1).
    { destruct op; simpl;
        [apply merge_keys_grow | apply add_from_record_keys_grow]. }
    destruct H1 as (a1 & H1).
    destruct (IH (apply_op db op)) as (a2 & H2).
    exists (a1 ++ a2). unfold run_ops in H2. now rewrite H2, H1, app_assoc.
Qed.

Lemma merge_get_absent src : forall into iid,
  ~ In iid (keys src) ->
  get (merge_meta_db into src) iid = get into iid.
Proof.
  induction src as [|kv src IH]; intros into iid Hn; [reflexivity|].
  rewrite merge_meta_db_fold. simpl. rewrite <- merge_meta_db_fold.
  simpl in Hn. rewrite IH by tauto.
  apply merge_entry_get_other. tauto.
Qed.

(** X3. A merge leaves the entries of ids the source does not have exactly
    as they are (or absent). *)
Theorem merge_leaves_other_ids (into src : StarwardMetaDB) (iid : string) :
  ~ In iid (keys src) ->
  get (merge_meta_db into src) iid = get into iid.
Proof. apply merge_get_absent. Qed.

Lemma merge_leaves_other_ids_witness :
  ~ In "1" (keys blade_store)
  /\ get (merge_meta_db sword_store blade_store) "1" = get sword_store "1".
Proof.
  assert (H : ~ In "1" (keys blade_store)).
  { simpl. intros [H|[H|[]]]; discriminate. }
  split; [exact H|]. exact (merge_leaves_other_ids sword_store blade_store "1" H).
Defined.

Lemma fill_merged_entry iid t s :
  fill t (name s) (item_type s) (rank_type s) = merged_entry iid (Some t) s.
Proof.
  unfold fill, merged_entry. destruct t as [tn tt tr ti]. simpl.
  assert (N : (negb (truthy_str tn) || (tn =? "")) = negb (truthy_str tn)).
  { unfold truthy_str. now destruct (tn =? ""). }
  rewrite N.
  destruct (truthy_str tn) eqn:En; simpl.
  - destruct (truthy tt) eqn:Et; simpl; rewrite ?Et; simpl;
      destruct (truthy tr) eqn:Er; simpl; rewrite ?Er; simpl;
      destruct (truthy (item_type s)); simpl; rewrite ?Er; simpl;
      destruct (truthy (rank_type s)); reflexivity.
  - assert (tn = "").
    { unfold truthy_str in En. apply negb_false_iff in En.
      now apply String.eqb_eq. }
    subst tn.
    destruct (truthy_str (name s)) eqn:Sn; simpl.
    + destruct (truthy tt) eqn:Et; simpl; rewrite ?Et; simpl;
        destruct (truthy tr) eqn:Er; simpl; rewrite ?Er; simpl;
        destruct (truthy (item_type s)); simpl; rewrite ?Er; simpl;
        destruct (truthy (rank_type s)); reflexivity.
    + assert (Hs : name s = "").
      { unfold truthy_str in Sn. apply negb_false_iff in Sn.
        now apply String.eqb_eq. }
      rewrite Hs.
      destruct (truthy tt) eqn:Et; simpl; rewrite ?Et; simpl;
        destruct (truthy tr) eqn:Er; simpl; rewrite ?Er; simpl;
        destruct (truthy (item_type s)); simpl; rewrite ?Er; simpl;
        destruct (truthy (rank_type s)); reflexivity.
Qed.

Lemma merge_entry_get_same into iid s :
  get (merge_entry into (iid, s)) iid
  = Some (merged_entry iid (get into iid) s).
Proof.
  unfold merge_entry, get. simpl.
  destruct (dict_get into iid) as [t|] eqn:E; rewrite dict_get_set_eq.
  - now rewrite (fill_merged_entry iid).
  - unfold merged_entry. do 2 f_equal.
    destruct (truthy_str (name s)) eqn:Sn; [reflexivity|].
    unfold truthy_str in Sn. apply negb_false_iff in Sn.
    apply String.eqb_eq in Sn. now rewrite Sn.
Qed.

Lemma merge_get_present src : forall into iid s,
  NoDup (keys src) -> In (iid, s) src ->
  get (merge_meta_db into src) iid = Some (merged_entry iid (get into iid) s).
Proof.
  induction src as [|[k v] src IH]; intros into iid s Hnd Hin; [contradiction|].
  rewrite merge_meta_db_fold. simpl. rewrite <- merge_meta_db_fold.
  simpl in Hnd. inversion Hnd as [|? ? Hk Hnd']. subst.
  destruct Hin as [Heq|Hin].
  - inversion Heq. subst. rewrite merge_get_absent by assumption.
    apply merge_entry_get_same.
  - assert (Hne : k <> iid).
    { intros ->. apply Hk. change iid with (fst (iid, s)). now apply in_map. }
    rewrite (IH _ iid s Hnd' Hin).
    now rewrite (merge_entry_get_other into (k, v) iid Hne).
Qed.

(** X4. What a merge leaves under an id of the source: when the target had
    no entry, the source's name, category and rarity with the key as
    [item_id] (not the source entry's own [item_id]); when it had one, each
    field of the target that is not empty, else the source's field if that
    is not empty, else the target's field as it was. *)
Theorem merge_result_entry (into src : StarwardMetaDB) (iid : string)
    (s : StarwardMetaItem) :
  NoDup (keys src) -> In (iid, s) src ->
  get (merge_meta_db into src) iid = Some (merged_entry iid (get into iid) s).
Proof. apply merge_get_present. Qed.

Lemma merge_result_entry_witness :
  NoDup (keys blade_store)
  /\ In ("2", {| name := "Amber"; item_type := Some "武器";
                 rank_type := Some "5"; item_id := "two" |}) blade_store
  /\ get (merge_meta_db sword_store blade_store) "2"
     = Some {| name := "Amber"; item_type := Some "角色";
               rank_type := Some "5"; item_id := "2" |}
  /\ get (merge_meta_db sword_store blade_store) "3"
     = Some {| name := "Bow"; item_type := None; rank_type := None;
               item_id := "3" |}.
Proof.
  assert (Hnd : NoDup (keys blade_store)).
  { simpl. repeat constructor; simpl; intuition discriminate. }
  split; [exact Hnd|]. split; [now left|]. split.
  - exact (merge_result_entry sword_store blade_store "2" _ Hnd
             (or_introl eq_refl)).
  - exact (merge_result_entry sword_store blade_store "3" _ Hnd
             (or_intror (or_introl eq_refl))).
Defined.

(** X5. A store merged into itself is unchanged. *)
Theorem merge_into_itself (T : StarwardMetaDB) :
  NoDup (keys T) -> merge_meta_db T T = T.
Proof. apply merge_self. Qed.

Lemma merge_into_itself_witness :
  NoDup (keys sword_store) /\ merge_meta_db sword_store sword_store = sword_store.
Proof.
  assert (Hnd : NoDup (keys sword_store)).
  { simpl. repeat constructor; simpl; intuition discriminate. }
  split; [exact Hnd | exact (merge_into_itself sword_store Hnd)].
Defined.

(* ================================================================== *)
(** ** Saving and loading the store                                    *)
(* ================================================================== *)

Lemma item_dump_loads m :
  StarwardMetaItem_of_kwargs (StarwardMetaItem_model_dump m) = inr m.
Proof. destruct m as [n [t|] [r|] i]; reflexivity. Qed.

Lemma load_dumped_entries db : forall acc,
  for_each
    (fun db kv =>
       bind (StarwardMetaItem_of_kwargs (snd kv))
         (fun item => ret (dict_set db (fst kv) item)))
    (map (fun kv => (fst kv, StarwardMetaItem_model_dump (snd kv))) db) acc
  = inr (of_pairs db acc).
Proof.
  unfold of_pairs.
  induction db as [|[k m] db IH]; intros acc; [reflexivity|].
  cbn [map for_each fst snd fold_left]. rewrite item_dump_loads.
  unfold bind at 1, ret at 1. apply IH.
Qed.

Lemma read_model_dump db :
  NoDup (keys db) ->
  read_starward_meta_db (StarwardMetaDB_model_dump db) = inr db.
Proof.
  intros Hnd. unfold StarwardMetaDB_model_dump.
  unfold read_starward_meta_db. simpl.
  rewrite load_dumped_entries.
  rewrite of_pairs_fresh; [reflexivity | assumption | reflexivity].
Qed.

Lemma json_of_opt_encodable o :
  json_encodable (json_of_opt o) = opt_encodable o.
Proof. now destruct o. Qed.

Lemma item_dump_encodable k m :
  utf8_encodable k && json_encodable (StarwardMetaItem_model_dump m)
  = entry_is_text (k, m).
Proof.
  unfold entry_is_text, StarwardMetaItem_model_dump. cbn [fst snd].
  cbn [json_encodable forallb fst snd]. rewrite !json_of_opt_encodable.
  change (utf8_encodable "name") with true.
  change (utf8_encodable "item_type") with true.
  change (utf8_encodable "rank_type") with true.
  change (utf8_encodable "item_id") with true.
  cbn [andb]. rewrite andb_true_r. now rewrite !andb_assoc.
Qed.

Lemma model_dump_encodable db :
  json_encodable (StarwardMetaDB_model_dump db) = store_is_text db.
Proof.
  unfold StarwardMetaDB_model_dump, store_is_text.
  cbn [json_encodable forallb fst snd].
  change (utf8_encodable "by_id") with true. cbn [andb].
  rewrite andb_true_r.
  induction db as [|[k m] db IH]; [reflexivity|].
  cbn [map forallb fst snd]. rewrite IH. f_equal.
  apply item_dump_encodable.
Qed.

Lemma output_starward_db_cases db :
  output_starward_db db
  = if store_is_text db then ret (StarwardMetaDB_model_dump db)
    else raise ValueError.
Proof. unfold output_starward_db. now rewrite model_dump_encodable. Qed.

(** X6. Round trip.  When the ids and the fields of a store are text the
    file can encode, [output_starward_db] writes it and loading what was
    written gives the store back, entry for entry and in the same order.
    When one of them holds a lone surrogate the write raises, and there is
    nothing to load. *)
Theorem load_saved_store (db : StarwardMetaDB) :
  NoDup (keys db) ->
  (store_is_text db = true ->
   exists file,
     output_starward_db db = inr file
     /\ read_starward_meta_db file = inr db)
  /\ (store_is_text db = false -> output_starward_db db = raise ValueError).
Proof.
  intros Hnd. rewrite output_starward_db_cases. split; intros ->.
  - eexists. split; [reflexivity|]. now apply read_model_dump.
  - reflexivity.
Qed.

(** A store with an empty name and empty fields is written and read back;
    a store loaded from a file with a lone surrogate as id cannot be
    written again. *)
Lemma load_saved_store_witness :
  (exists file,
      output_starward_db sword_store = inr file
      /\ read_starward_meta_db file = inr sword_store)
  /\ read_starward_meta_db surrogate_file = inr surrogate_store
  /\ output_starward_db surrogate_store = raise ValueError.
Proof.
  assert (Hnd : NoDup (keys sword_store)).
  { simpl. repeat constructor; simpl; intuition discriminate. }
  assert (Hns : NoDup (keys surrogate_store)).
  { simpl. repeat constructor; simpl; intuition discriminate. }
  split; [|split].
  - apply (proj1 (load_saved_store sword_store Hnd)). reflexivity.
  - reflexivity.
  - apply (proj2 (load_saved_store surrogate_store Hns)). reflexivity.
Defined.

Example output_sword_store :
  output_starward_db sword_store = inr sword_file.
Proof. reflexivity. Qed.

(* ================================================================== *)
(** ** A store built from a unified document                           *)
(* ================================================================== *)

Lemma build_meta_db_from_uigf_fold uigf :
  build_meta_db_from_uigf uigf
  = fold_left add_from_record (all_starward_records uigf) [].
Proof.
  unfold build_meta_db_from_uigf, all_starward_records.
  now rewrite fold_left_flat_map.
Qed.

Lemma truthy_Some_ne k : k <> "" -> truthy (Some k) = true.
Proof. intros H. simpl. now apply truthy_str_true. Qed.

Lemma add_from_record_keys db rec k :
  In k (keys (add_from_record db rec))
  <-> In k (keys db) \/ (sr_item_id rec = Some k /\ k <> "").
Proof.
  rewrite add_from_record_spec.
  destruct (sr_item_id rec) as [i|] eqn:Hi; simpl.
  - destruct (truthy_str i) eqn:T; simpl.
    + apply truthy_str_true in T.
      destruct (dict_get db i) as [meta|] eqn:G;
        rewrite keys_dict_set; unfold dict_contains; rewrite G.
      * apply dict_get_In in G. apply (in_map fst) in G. simpl in G.
        unfold keys. split; [tauto|].
        intros [H|[H _]]; [assumption|]. inversion H. now subst.
      * rewrite in_app_iff. simpl. split.
        -- intros [H|[H|[]]]; [now left | right]. subst. now split.
        -- intros [H|[H _]]; [now left | right; left]. now inversion H.
    + split; [tauto|]. intros [H|[H Hk]]; [assumption|].
      inversion H. subst. unfold truthy_str in T.
      apply negb_false_iff, String.eqb_eq in T. contradiction.
  - split; [tauto|]. intros [H|[H _]]; [assumption | discriminate].
Qed.

Lemma fold_add_keys recs : forall db k,
  In k (keys (fold_left add_from_record recs db))
  <-> In k (keys db)
      \/ exists rec, In rec recs /\ sr_item_id rec = Some k /\ k <> "".
Proof.
  induction recs as [|r recs IH]; intros db k; simpl.
  - split; [tauto|]. intros [H|(rec & [] & _)]. assumption.
  - rewrite IH, add_from_record_keys. split.
    + intros [[H|H]|(rec & H1 & H2)]; [now left | right | right].
      * exists r. split; [now left | assumption].
      * exists rec. split; [now right | assumption].
    + intros [H|(rec & [->|H1] & H2)]; [tauto | tauto |].
      right. now exists rec.
Qed.

(** X7. The store built from a unified document has an entry for exactly
    the ids its records carry; records without an id, or with the empty
    string as id, add none. *)
Theorem build_meta_db_from_uigf_ids (uigf : StarwardUIGF) (k : string) :
  In k (keys (build_meta_db_from_uigf uigf))
  <-> exists rec,
        In rec (all_starward_records uigf)
        /\ sr_item_id rec = Some k /\ k <> "".
Proof.
  rewrite build_meta_db_from_uigf_fold, fold_add_keys. simpl.
  split; [intros [[]|H]; exact H | now right].
Qed.

Lemma build_meta_db_from_uigf_ids_witness :
  keys (build_meta_db_from_uigf two_pulls) = ["10"; "11"]
  /\ In "10" (keys (build_meta_db_from_uigf two_pulls)).
Proof.
  split; [reflexivity|].
  apply (proj2 (build_meta_db_from_uigf_ids two_pulls "10")).
  exists (sample_record (Some "10") None (Some "") (Some "5")).
  split; [now left|]. split; [reflexivity | discriminate].
Defined.

Lemma fill_as_merged t n ty rk :
  fill t n ty rk
  = merged_entry "" (Some t)
      {| name := n; item_type := ty; rank_type := rk; item_id := "" |}.
Proof.
  apply (fill_merged_entry ""
           t {| name := n; item_type := ty; rank_type := rk; item_id := "" |}).
Qed.

Lemma add_from_record_other db rec k :
  sr_item_id rec <> Some k -> get (add_from_record db rec) k = get db k.
Proof.
  intros Hne. rewrite add_from_record_spec.
  destruct (negb (truthy (sr_item_id rec))) eqn:T; [reflexivity|].
  cbv zeta. unfold get.
  assert (Hk : str_of_opt (sr_item_id rec) <> k).
  { destruct (sr_item_id rec) as [i|]; [|discriminate]. simpl. congruence. }
  destruct (dict_get db (str_of_opt (sr_item_id rec)));
    now rewrite dict_get_set_ne.
Qed.

Lemma add_from_record_at db rec k :
  sr_item_id rec = Some k -> k <> "" ->
  get (add_from_record db rec) k
  = Some (match get db k with
          | None =>
              {| name := or_empty (sr_name rec);
                 item_type := sr_item_type rec;
                 rank_type := sr_rank_type rec; item_id := k |}
          | Some t =>
              merged_entry "" (Some t)
                {| name := or_empty (sr_name rec);
                   item_type := sr_item_type rec;
                   rank_type := sr_rank_type rec; item_id := "" |}
          end).
Proof.
  intros Hi Hk. rewrite add_from_record_spec, Hi.
  rewrite (truthy_Some_ne k Hk). simpl. unfold get.
  destruct (dict_get db k) as [t|]; rewrite dict_get_set_eq;
    [now rewrite fill_as_merged | reflexivity].
Qed.

Lemma add_keeps_empty db rec k f :
  sr_item_id rec = Some k -> k <> "" ->
  truthy (record_field f rec) = false ->
  empty_at db k f -> empty_at (add_from_record db rec) k f.
Proof.
  intros Hi Hk Hf He. unfold empty_at in *.
  rewrite (add_from_record_at db rec k Hi Hk).
  destruct (get db k) as [t|]; destruct f; simpl in *;
    repeat (rewrite ?He, ?Hf, ?truthy_or_empty); auto.
Qed.

Lemma add_fills_empty db rec k f v :
  sr_item_id rec = Some k -> k <> "" ->
  record_field f rec = Some v -> v <> "" ->
  empty_at db k f ->
  exists e, get (add_from_record db rec) k = Some e /\ entry_field f e = Some v.
Proof.
  intros Hi Hk Hf Hv He. unfold empty_at in *.
  rewrite (add_from_record_at db rec k Hi Hk).
  pose proof (truthy_Some_ne v Hv) as Tv.
  assert (Ov : truthy_str v = true) by exact Tv.
  eexists. split; [reflexivity|].
  destruct (get db k) as [t|]; destruct f; simpl in *; rewrite ?Hf; simpl;
    repeat (rewrite ?He, ?Ov, ?Tv); reflexivity.
Qed.

Lemma kept_entry_field e e' f :
  kept e e' -> truthy (entry_field f e) = true ->
  entry_field f e' = entry_field f e.
Proof.
  intros (_ & Kn & Kt & Kr) H. destruct f; simpl in *; auto.
  now rewrite (Kn H).
Qed.

Lemma fold_add_kept recs : forall db k e,
  get db k = Some e ->
  exists e', get (fold_left add_from_record recs db) k = Some e' /\ kept e e'.
Proof.
  induction recs as [|r recs IH]; intros db k e He; simpl.
  - exists e. split; [assumption | apply kept_refl].
  - destruct (add_from_record_kept db r k e He) as (e1 & H1 & K1).
    destruct (IH _ _ _ H1) as (e2 & H2 & K2).
    exists e2. split; [assumption|]. eapply kept_trans; eauto.
Qed.

Lemma fold_add_keeps_empty pre k f : forall db,
  k <> "" ->
  (forall r, In r pre -> sr_item_id r = Some k ->
             truthy (record_field f r) = false) ->
  empty_at db k f -> empty_at (fold_left add_from_record pre db) k f.
Proof.
  induction pre as [|r pre IH]; intros db Hk Hpre He; [assumption|].
  simpl. apply IH; [assumption | intros; apply Hpre; auto; now right |].
  destruct (sr_item_id r) as [i|] eqn:Hi.
  - destruct (String.eqb_spec i k) as [->|Hne].
    + apply add_keeps_empty; auto. apply Hpre; [now left | assumption].
    + unfold empty_at. rewrite add_from_record_other; [exact He|].
      rewrite Hi. congruence.
  - unfold empty_at. rewrite add_from_record_other; [exact He|].
    rewrite Hi. discriminate.
Qed.

(** X8. First non-empty value wins: in the store built from a unified
    document, a field of the entry under an id has the value of the first
    record with that id that carries a non-empty value for it. *)
Theorem build_meta_db_from_uigf_first_value (uigf : StarwardUIGF)
    (k : string) (f : meta_field) (pre post : list StarwardRecord)
    (r : StarwardRecord) (v : string) :
  all_starward_records uigf = pre ++ r :: post ->
  k <> "" ->
  sr_item_id r = Some k ->
  record_field f r = Some v -> v <> "" ->
  (forall r', In r' pre -> sr_item_id r' = Some k ->
              truthy (record_field f r') = false) ->
  exists e,
    get (build_meta_db_from_uigf uigf) k = Some e /\ entry_field f e = Some v.
Proof.
  intros Hsplit Hk Hi Hf Hv Hpre.
  rewrite build_meta_db_from_uigf_fold, Hsplit, fold_left_app. simpl.
  assert (E0 : empty_at (fold_left add_from_record pre []) k f).
  { apply fold_add_keeps_empty; auto. exact I. }
  destruct (add_fills_empty _ r k f v Hi Hk Hf Hv E0) as (e1 & H1 & F1).
  destruct (fold_add_kept post _ k e1 H1) as (e2 & H2 & K2).
  exists e2. split; [assumption|].
  rewrite (kept_entry_field e1 e2 f K2); [assumption|].
  rewrite F1. now apply truthy_Some_ne.
Qed.

Lemma build_meta_db_from_uigf_first_value_witness :
  exists e,
    get (build_meta_db_from_uigf two_pulls) "10" = Some e
    /\ entry_field FItemType e = Some "武器".
Proof.
  apply (build_meta_db_from_uigf_first_value two_pulls "10" FItemType
           [ sample_record (Some "10") None (Some "") (Some "5");
             sample_record (Some "11") (Some "Bow") None None ]
           [ sample_record (Some "") (Some "Nobody") None None;
             sample_record (Some "10") (Some "Other") (Some "角色") None ]
           (sample_record (Some "10") (Some "Aqua") (Some "武器") (Some "4"))
           "武器").
  - reflexivity.
  - discriminate.
  - reflexivity.
  - reflexivity.
  - discriminate.
  - intros r' [<-|[<-|[]]]; simpl; [reflexivity | discriminate].
Defined.

Example build_meta_db_from_uigf_two_pulls :
  build_meta_db_from_uigf two_pulls
  = [("10", {| name := "Aqua"; item_type := Some "武器"; rank_type := Some "5";
               item_id := "10" |});
     ("11", {| name := "Bow"; item_type := None; rank_type := None;
               item_id := "11" |})].
Proof. reflexivity. Qed.

(* ================================================================== *)
(** ** More on the mapping importer                                    *)
(* ================================================================== *)

Lemma dict_get_map_values {V W} (g : string * V -> W) (d : dict V) k :
  dict_get (map (fun kv => (fst kv, g kv)) d) k
  = option_map (fun v => g (k, v)) (dict_get d k).
Proof.
  induction d as [|[k0 v0] d IH]; simpl; [reflexivity|].
  destruct (String.eqb_spec k0 k) as [->|]; [reflexivity | exact IH].
Qed.

Lemma dict_get_constant {V} (d : dict V) k c :
  (forall p, In p d -> snd p = c) -> In k (keys d) -> dict_get d k = Some c.
Proof.
  induction d as [|[k0 v0] d IH]; simpl; intros Hc Hin; [contradiction|].
  destruct (String.eqb_spec k0 k) as [->|Hne].
  - f_equal. apply (Hc (k, v0)). now left.
  - destruct Hin as [H|H]; [contradiction|]. apply IH; auto.
Qed.

Lemma keys_rev {V} (d : dict V) k : In k (keys (rev d)) <-> In k (keys d).
Proof. unfold keys. rewrite map_rev. symmetry. apply in_rev. Qed.

Lemma build_get_last_listing (m1 m2 : dict mapping_value) (nm : string)
    (v : mapping_value) (i : id_value) :
  In i (ids_of v) ->
  (forall nm', ~ listed m2 (str_of_id i) nm') ->
  get (build_meta_db_from_mapping (m1 ++ (nm, v) :: m2)) (str_of_id i)
  = Some {| name := nm; item_type := None; rank_type := None;
            item_id := str_of_id i |}.
Proof.
  intros Hi Hlast. unfold get.
  rewrite build_meta_db_from_mapping_map, dict_get_map_values, id_to_name_last.
  unfold mapping_pairs. rewrite flat_map_app. simpl.
  rewrite !rev_app_distr, <- app_assoc, !dict_get_app.
  fold (mapping_pairs m2).
  assert (N : dict_get (rev (mapping_pairs m2)) (str_of_id i) = None).
  { apply dict_get_None. rewrite keys_rev. unfold keys.
    intros H. apply in_map_iff in H. destruct H as ([k nm'] & Hk & Hin).
    simpl in Hk. subst k. apply (Hlast nm'). now apply mapping_pairs_listed. }
  rewrite N.
  rewrite (dict_get_constant _ (str_of_id i) nm); [reflexivity | |].
  - intros p Hp. apply in_rev in Hp. apply in_map_iff in Hp.
    destruct Hp as (i' & <- & _). reflexivity.
  - rewrite keys_rev. unfold keys. rewrite map_map. simpl.
    apply in_map_iff. now exists i.
Qed.

(** X9. When several display names list an id, the store built from the
    mapping names the entry after the last of them. *)
Theorem mapping_last_listing_wins (m1 m2 : dict mapping_value) (nm : string)
    (v : mapping_value) (i : id_value) :
  In i (ids_of v) ->
  (forall nm', ~ listed m2 (str_of_id i) nm') ->
  get (build_meta_db_from_mapping (m1 ++ (nm, v) :: m2)) (str_of_id i)
  = Some {| name := nm; item_type := None; rank_type := None;
            item_id := str_of_id i |}.
Proof. apply build_get_last_listing. Qed.

Lemma mapping_last_listing_wins_witness :
  get (build_meta_db_from_mapping sword_mapping) "1"
  = Some {| name := "Blade"; item_type := None; rank_type := None;
            item_id := "1" |}.
Proof.
  apply (mapping_last_listing_wins
           [("Sword", ManyIds [IdInt 1; IdInt 2])]
           [("Bow", OneId (IdInt 3))] "Blade" (OneId (IdStr "1")) (IdStr "1")).
  - now left.
  - intros nm' (v' & i' & Hin & Hi' & Hs).
    destruct Hin as [Heq|[]]. inversion Heq. subst.
    destruct Hi' as [<-|[]]. vm_compute in Hs. discriminate.
Defined.

(* ================================================================== *)
(** ** More on the completion resolver                                 *)
(* ================================================================== *)

Lemma existsb_forall_false {A} (p : A -> bool) l :
  (forall x, In x l -> p x = false) -> existsb p l = false.
Proof.
  intros H. induction l as [|x l IH]; simpl; [reflexivity|].
  rewrite (H x) by now left. apply IH. intros y Hy. apply H. now right.
Qed.

(** X10. For a store whose ids are ASCII text no longer than the
    interpreter's digit limit, the pending entries come in order: numeric
    ids by value, then the other ids in lexical order. *)
Theorem pending_ascii_sorted (cap : nat) (db : StarwardMetaDB) :
  (forall k, In k (keys db) ->
             ascii_only k = true /\ (cap = 0 \/ String.length k <= cap)%nat) ->
  StronglySorted (fun a b => id_le (fst a) (fst b) = true) (pending cap db).
Proof.
  intros H.
  assert (E : existsb (raises cap) (keys db) = false).
  { apply existsb_forall_false. intros k Hk. destruct (H k Hk).
    now apply ascii_never_raises. }
  rewrite pending_closed_form, E. apply StronglySorted_filter.
  apply (stable_sort_sorted entry_le entry_le_total entry_le_trans).
Qed.

Lemma pending_ascii_sorted_witness :
  StronglySorted (fun a b => id_le (fst a) (fst b) = true)
    (pending 4300 mixed_store)
  /\ map fst (pending 4300 mixed_store) = ["7"; "20"].
Proof.
  split; [|reflexivity].
  apply (pending_ascii_sorted 4300 mixed_store).
  intros k [<-|[<-|[<-|[]]]]; (split; [reflexivity | right; simpl; lia]).
Defined.

(** X11. Ids with the same place in the order (such as "1" and "01") come
    out in the order the store has them. *)
Theorem pending_ties_in_store_order (cap : nat) (db : StarwardMetaDB)
    (k0 : string) :
  existsb (raises cap) (keys db) = false ->
  filter (fun kv => id_le k0 (fst kv) && id_le (fst kv) k0) (pending cap db)
  = filter (fun kv => id_le k0 (fst kv) && id_le (fst kv) k0)
      (filter (fun kv => incomplete (snd kv)) db).
Proof. apply pending_stable. Qed.

Lemma pending_ties_in_store_order_witness :
  let db := [("01", {| name := "a"; item_type := None; rank_type := None;
                       item_id := "01" |});
             ("0", {| name := "z"; item_type := None; rank_type := None;
                      item_id := "0" |});
             ("1", {| name := "b"; item_type := None; rank_type := None;
                      item_id := "1" |})] in
  existsb (raises 4300) (keys db) = false
  /\ map fst (pending 4300 db) = ["0"; "01"; "1"]
  /\ filter (fun kv => id_le "1" (fst kv) && id_le (fst kv) "1")
       (pending 4300 db)
     = filter (fun kv => id_le "1" (fst kv) && id_le (fst kv) "1")
         (filter (fun kv => incomplete (snd kv)) db).
Proof.
  intros db. split; [reflexivity|]. split; [reflexivity|].
  apply (pending_ties_in_store_order 4300 db "1"). reflexivity.
Defined.

Lemma load_current_items w : w_items (load_current w) = w_items w.
Proof. unfold load_current. now destruct (current w) as [[? ?]|]. Qed.

Lemma load_current_index w : w_index (load_current w) = w_index w.
Proof. unfold load_current. now destruct (current w) as [[? ?]|]. Qed.

Lemma load_current_destroyed w : w_destroyed (load_current w) = w_destroyed w.
Proof. unfold load_current. now destruct (current w) as [[? ?]|]. Qed.

Lemma save_current_shape w w' :
  save_current w = Some w' ->
  w_items w' = w_items w /\ w_index w' = w_index w
  /\ w_destroyed w' = w_destroyed w
  /\ exists k meta meta',
       nth_error (w_items w) (w_index w) = Some k
       /\ dict_get (w_db w) k = Some meta
       /\ w_db w' = dict_set (w_db w) k meta'.
Proof.
  unfold save_current, current.
  destruct (nth_error (w_items w) (w_index w)) as [k|] eqn:N; [|discriminate].
  destruct (dict_get (w_db w) k) as [meta|] eqn:G; [|discriminate].
  intros H. inversion H. simpl. repeat split. now exists k, meta; eexists.
Qed.

Lemma handle_items w e : w_items (handle w e) = w_items w.
Proof.
  destruct e; simpl; try reflexivity.
  - unfold on_prev. destruct (0 <? w_index w)%nat; [|reflexivity].
    now rewrite load_current_items.
  - unfold on_skip. destruct (w_index w <? List.length (w_items w) - 1)%nat;
      [|reflexivity]. now rewrite load_current_items.
  - unfold on_save_next. destruct (save_current w) as [w'|] eqn:S;
      [|reflexivity].
    destruct (save_current_shape w w' S) as (Hi & _).
    destruct (w_index w' <? List.length (w_items w') - 1)%nat;
      [now rewrite load_current_items | exact Hi].
  - unfold on_cancel. now destruct confirm.
Qed.

Lemma handle_index_in_range w e :
  (w_index w < List.length (w_items w))%nat ->
  (w_index (handle w e) < List.length (w_items (handle w e)))%nat.
Proof.
  intros H. rewrite handle_items. destruct e; simpl; try assumption.
  - unfold on_prev. destruct (0 <? w_index w)%nat; [|assumption].
    rewrite load_current_index. simpl. lia.
  - unfold on_skip.
    destruct (w_index w <? List.length (w_items w) - 1)%nat eqn:L;
      [|assumption].
    rewrite load_current_index. simpl. apply Nat.ltb_lt in L. lia.
  - unfold on_save_next. destruct (save_current w) as [w'|] eqn:S;
      [|assumption].
    destruct (save_current_shape w w' S) as (Hi & Hx & _).
    destruct (w_index w' <? List.length (w_items w') - 1)%nat eqn:L.
    + rewrite load_current_index. simpl. apply Nat.ltb_lt in L.
      rewrite Hi in L. lia.
    + simpl. now rewrite Hx.
  - unfold on_cancel. now destruct confirm.
Qed.

Lemma handle_keys w e : keys (w_db (handle w e)) = keys (w_db w).
Proof.
  destruct e; simpl; try reflexivity.
  - unfold on_prev. destruct (0 <? w_index w)%nat; [|reflexivity].
    now rewrite load_current_db.
  - unfold on_skip. destruct (w_index w <? List.length (w_items w) - 1)%nat;
      [|reflexivity]. now rewrite load_current_db.
  - rewrite on_save_next_db. destruct (save_current w) as [w'|] eqn:S;
      [|reflexivity].
    destruct (save_current_shape w w' S)
      as (_ & _ & _ & k & meta & meta' & _ & G & ->).
    rewrite keys_dict_set. unfold dict_contains. now rewrite G.
  - unfold on_cancel. now destruct confirm.
Qed.

Lemma handle_frame w e iid :
  ~ In iid (w_items w) -> get (w_db (handle w e)) iid = get (w_db w) iid.
Proof.
  intros Hn. destruct e; simpl; try reflexivity.
  - unfold on_prev. destruct (0 <? w_index w)%nat; [|reflexivity].
    now rewrite load_current_db.
  - unfold on_skip. destruct (w_index w <? List.length (w_items w) - 1)%nat;
      [|reflexivity]. now rewrite load_current_db.
  - rewrite on_save_next_db. destruct (save_current w) as [w'|] eqn:S;
      [|reflexivity].
    destruct (save_current_shape w w' S)
      as (_ & _ & _ & k & meta & meta' & N & _ & ->).
    unfold get. apply dict_get_set_ne. intros ->. apply Hn.
    eapply nth_error_In; eauto.
  - unfold on_cancel. now destruct confirm.
Qed.

Lemma handle_present w e iid :
  get (w_db w) iid <> None -> get (w_db (handle w e)) iid <> None.
Proof.
  intros H. destruct (get (w_db w) iid) as [x|] eqn:G; [|contradiction].
  destruct (handle_resolved w e iid x G) as (x' & -> & _). discriminate.
Qed.

Lemma mainloop_invariant (P : MetaFillWizard -> Prop) :
  (forall w e, P w -> P (handle w e)) ->
  forall evs w, P w -> P (mainloop w evs).
Proof.
  intros Hstep. induction evs as [|e evs IH]; intros w Hw; simpl;
    [assumption|].
  destruct (w_destroyed w); [assumption|]. apply IH, Hstep, Hw.
Qed.

Lemma pending_in_store cap db kv : In kv (pending cap db) -> In kv db.
Proof.
  rewrite pending_closed_form. intros H. apply filter_In in H.
  destruct H as [H _].
  destruct (existsb (raises cap) (keys db)); [assumption|].
  eapply Permutation_in; [apply stable_sort_perm | exact H].
Qed.

Lemma pending_ids_present cap db k :
  In k (map fst (pending cap db)) -> get db k <> None.
Proof.
  intros H. apply in_map_iff in H. destruct H as ([k' m] & <- & Hin).
  apply pending_in_store in Hin. unfold get. intros N.
  apply dict_get_None in N. apply N. unfold keys.
  apply (in_map fst) in Hin. exact Hin.
Qed.

(** X12. Whatever the operator does, the wizard always has an entry to
    show: its position stays inside the list of pending entries and the
    entry it points at is in the store. *)
Theorem wizard_always_has_current (cap : nat) (db : StarwardMetaDB)
    (evs : list event) :
  pending cap db <> [] ->
  current (mainloop (MetaFillWizard_init db (map fst (pending cap db))) evs)
  <> None.
Proof.
  intros Hne.
  set (its := map fst (pending cap db)).
  set (P := fun w : MetaFillWizard =>
              w_items w = its
              /\ (w_index w < List.length (w_items w))%nat
              /\ forall k, In k its -> get (w_db w) k <> None).
  assert (HP : P (mainloop (MetaFillWizard_init db its) evs)).
  { apply mainloop_invariant.
    - intros w e (Hi & Hr & Hp). repeat split.
      + now rewrite handle_items.
      + now apply handle_index_in_range.
      + intros k Hk. apply handle_present. auto.
    - unfold MetaFillWizard_init. repeat split.
      + now rewrite load_current_items.
      + rewrite load_current_items, load_current_index. simpl.
        subst its. destruct (pending cap db); [contradiction | simpl; lia].
      + intros k Hk. rewrite load_current_db. simpl.
        now apply (pending_ids_present cap). }
  destruct HP as (Hi & Hr & Hp). unfold current.
  destruct (nth_error (w_items _) (w_index _)) as [k|] eqn:N.
  - assert (Hk : In k its) by (rewrite <- Hi; eapply nth_error_In; eauto).
    specialize (Hp k Hk). unfold get in Hp.
    destruct (dict_get _ k); [discriminate | contradiction].
  - apply nth_error_None in N. lia.
Qed.

Lemma wizard_always_has_current_witness :
  pending 4300 mixed_store <> []
  /\ current
       (mainloop
          (MetaFillWizard_init mixed_store (map fst (pending 4300 mixed_store)))
          [Skip; Skip; SaveNext; Prev; Prev; SaveNext])
     <> None.
Proof.
  assert (H : pending 4300 mixed_store <> []) by discriminate.
  split; [exact H|].
  exact (wizard_always_has_current 4300 mixed_store
           [Skip; Skip; SaveNext; Prev; Prev; SaveNext] H).
Defined.

Lemma prompt_keys cap db evs :
  keys (prompt_missing_meta_fields cap db evs) = keys db.
Proof.
  unfold prompt_missing_meta_fields.
  destruct (pending cap db) as [|p ps]; [reflexivity|].
  apply (mainloop_invariant (fun w => keys (w_db w) = keys db)).
  - intros w e H. now rewrite handle_keys.
  - unfold MetaFillWizard_init. now rewrite load_current_db.
Qed.

(** X13. The wizard neither adds nor removes nor reorders entries: the ids
    of the store are the same after it. *)
Theorem prompt_keeps_ids (cap : nat) (db : StarwardMetaDB) (evs : list event) :
  keys (prompt_missing_meta_fields cap db evs) = keys db.
Proof. apply prompt_keys. Qed.

Lemma prompt_frame cap db evs iid :
  ~ In iid (map fst (pending cap db)) ->
  get (prompt_missing_meta_fields cap db evs) iid = get db iid.
Proof.
  intros Hn. unfold prompt_missing_meta_fields.
  destruct (pending cap db) as [|p ps] eqn:E; [reflexivity|].
  set (its := map fst (p :: ps)) in *.
  assert (H : w_items (mainloop (MetaFillWizard_init db its) evs) = its
              /\ get (w_db (mainloop (MetaFillWizard_init db its) evs)) iid
                 = get db iid).
  { apply (mainloop_invariant
             (fun w => w_items w = its /\ get (w_db w) iid = get db iid)).
    - intros w e [Hi Hg]. split; [now rewrite handle_items|].
      rewrite handle_frame; [assumption | now rewrite Hi].
    - unfold MetaFillWizard_init.
      now rewrite load_current_items, load_current_db. }
  apply H.
Qed.

(** X14. Entries that are not pending (complete ones, and those without a
    name or an id) are never changed by the wizard. *)
Theorem prompt_leaves_other_entries (cap : nat) (db : StarwardMetaDB)
    (evs : list event) (iid : string) :
  ~ In iid (map fst (pending cap db)) ->
  get (prompt_missing_meta_fields cap db evs) iid = get db iid.
Proof. apply prompt_frame. Qed.

Lemma prompt_leaves_other_entries_witness :
  ~ In "3" (map fst (pending 4300 mixed_store))
  /\ get (prompt_missing_meta_fields 4300 mixed_store
            [SelectType "角色"; SaveNext; SaveNext]) "3"
     = get mixed_store "3".
Proof.
  assert (H : ~ In "3" (map fst (pending 4300 mixed_store))).
  { change (~ In "3" ["7"; "20"]). intros [H|[H|[]]]; discriminate. }
  split; [exact H|].
  exact (prompt_leaves_other_entries 4300 mixed_store _ "3" H).
Defined.

Lemma mainloop_destroyed w evs : w_destroyed w = true -> mainloop w evs = w.
Proof. intros H. destruct evs; simpl; [reflexivity | now rewrite H]. Qed.

Lemma mainloop_app evs1 : forall w evs2,
  mainloop w (evs1 ++ evs2) = mainloop (mainloop w evs1) evs2.
Proof.
  induction evs1 as [|e evs1 IH]; intros w evs2; simpl; [reflexivity|].
  destruct (w_destroyed w) eqn:D; [|apply IH].
  now rewrite mainloop_destroyed.
Qed.

Lemma closes_destroys w e :
  closes e = true -> handle w e = destroy w.
Proof.
  destruct e; try discriminate; simpl; [reflexivity|].
  intros ->. reflexivity.
Qed.

(** X15. Abandoning keeps the answers already given: once the operator
    finishes or confirms a cancel, the store is the one the earlier actions
    left, whatever follows. *)
Theorem abandon_keeps_answers (cap : nat) (db : StarwardMetaDB)
    (evs1 evs2 : list event) (e : event) :
  closes e = true ->
  prompt_missing_meta_fields cap db (evs1 ++ e :: evs2)
  = prompt_missing_meta_fields cap db evs1.
Proof.
  intros Hc. unfold prompt_missing_meta_fields.
  destruct (pending cap db) as [|p ps]; [reflexivity|].
  rewrite mainloop_app. simpl.
  set (w := mainloop _ evs1).
  destruct (w_destroyed w) eqn:D; [reflexivity|].
  rewrite (closes_destroys w e Hc), mainloop_destroyed; reflexivity.
Qed.

Lemma abandon_keeps_answers_witness :
  closes (Cancel true) = true
  /\ prompt_missing_meta_fields 4300 mixed_store
       ([SaveNext] ++ Cancel true :: [SelectRank "1"; SaveNext])
     = prompt_missing_meta_fields 4300 mixed_store [SaveNext].
Proof.
  split; [reflexivity|].
  exact (abandon_keeps_answers 4300 mixed_store [SaveNext]
           [SelectRank "1"; SaveNext] (Cancel true) eq_refl).
Defined.

Lemma handle_no_save w e : is_save e = false -> w_db (handle w e) = w_db w.
Proof.
  destruct e; simpl; try discriminate; intros _; try reflexivity.
  - unfold on_prev. destruct (0 <? w_index w)%nat;
      [now rewrite load_current_db | reflexivity].
  - unfold on_skip. destruct (w_index w <? List.length (w_items w) - 1)%nat;
      [now rewrite load_current_db | reflexivity].
  - unfold on_cancel. now destruct confirm.
Qed.

(** X16. Only a submission writes: selecting values, skipping, going back,
    finishing and cancelling leave the store as it was. *)
Theorem only_submission_writes (cap : nat) (db : StarwardMetaDB)
    (evs : list event) :
  existsb is_save evs = false ->
  prompt_missing_meta_fields cap db evs = db.
Proof.
  intros H. unfold prompt_missing_meta_fields.
  destruct (pending cap db) as [|p ps]; [reflexivity|].
  assert (G : forall evs w, existsb is_save evs = false ->
                            w_db (mainloop w evs) = w_db w).
  { clear. induction evs as [|e evs IH]; intros w H; simpl; [reflexivity|].
    simpl in H. apply orb_false_iff in H. destruct H as [He Hr].
    destruct (w_destroyed w); [reflexivity|].
    now rewrite IH, handle_no_save. }
  rewrite G by assumption. unfold MetaFillWizard_init.
  now rewrite load_current_db.
Qed.

Lemma only_submission_writes_witness :
  existsb is_save [SelectType "角色"; Skip; SelectRank "1"; Prev; Finish] = false
  /\ prompt_missing_meta_fields 4300 mixed_store
       [SelectType "角色"; Skip; SelectRank "1"; Prev; Finish]
     = mixed_store.
Proof.
  split; [reflexivity|].
  exact (only_submission_writes 4300 mixed_store
           [SelectType "角色"; Skip; SelectRank "1"; Prev; Finish] eq_refl).
Defined.

(** X17. A submission writes the selected category and rarity into the
    fields of the shown entry that are empty, and nothing else into it. *)
Theorem submission_fills_shown_entry (w : MetaFillWizard) (iid : string)
    (meta : StarwardMetaItem) :
  current w = Some (iid, meta) ->
  get (w_db (on_save_next w)) iid
  = Some {| name := name meta;
            item_type := if truthy (item_type meta) then item_type meta
                         else Some (w_var_type w);
            rank_type := if truthy (rank_type meta) then rank_type meta
                         else Some (w_var_rank w);
            item_id := item_id meta |}.
Proof.
  intros H. rewrite on_save_next_db.
  destruct (save_current_entry w iid meta H) as (w' & -> & G). exact G.
Qed.

Lemma submission_fills_shown_entry_witness :
  let w := with_vars (MetaFillWizard_init mixed_store ["7"; "20"]) "武器" "4" in
  current w = Some ("7", {| name := "Amber"; item_type := Some "角色";
                            rank_type := None; item_id := "7" |})
  /\ get (w_db (on_save_next w)) "7"
     = Some {| name := "Amber"; item_type := Some "角色";
               rank_type := Some "4"; item_id := "7" |}.
Proof.
  intros w. split; [reflexivity|].
  exact (submission_fills_shown_entry w "7" _ eq_refl).
Defined.

Lemma in_choices_truthy o l :
  Forall (fun s => truthy_str s = true) l ->
  in_list o l = true -> truthy_str (str_of_opt o) = true.
Proof.
  intros Hl. destruct o as [s|]; [|discriminate]. simpl.
  intros H. apply existsb_exists in H. destruct H as (x & Hx & E).
  apply String.eqb_eq in E. subst x.
  rewrite Forall_forall in Hl. auto.
Qed.

Lemma load_current_vars w :
  truthy_str (w_var_type w) = true -> truthy_str (w_var_rank w) = true ->
  truthy_str (w_var_type (load_current w)) = true
  /\ truthy_str (w_var_rank (load_current w)) = true.
Proof.
  intros Ht Hr. unfold load_current.
  destruct (current w) as [[k meta]|]; [|now split]. simpl. split.
  - destruct (in_list (item_type meta) ITEM_TYPES) eqn:E; [|reflexivity].
    apply (in_choices_truthy _ ITEM_TYPES); [|assumption].
    repeat constructor.
  - destruct (in_list (rank_type meta) RANK_CHOICES) eqn:E; [|reflexivity].
    apply (in_choices_truthy _ RANK_CHOICES); [|assumption].
    repeat constructor.
Qed.

Lemma complete_at_resolved db db' k :
  (forall e, get db k = Some e ->
             exists e', get db' k = Some e' /\ resolved_from e e') ->
  complete_at db k -> complete_at db' k.
Proof.
  intros H (e & He & Ht & Hr).
  destruct (H e He) as (e' & He' & (_ & _ & Kt & Kr) & _).
  exists e'. split; [assumption|].
  rewrite (Kt Ht), (Kr Hr). now split.
Qed.

Lemma truthy_filled o v :
  truthy_str v = true -> truthy (if truthy o then o else Some v) = true.
Proof. intros H. destruct (truthy o) eqn:E; [exact E | exact H]. Qed.

Lemma save_current_vars w w' :
  save_current w = Some w' ->
  w_var_type w' = w_var_type w /\ w_var_rank w' = w_var_rank w.
Proof.
  unfold save_current. destruct (current w) as [[k meta]|]; [|discriminate].
  intros H. inversion H. now split.
Qed.

(** One accepted entry: the wizard moves on, or closes after the last. *)
Lemma accept_step its i w :
  wizard_at its i w -> (i < List.length its)%nat ->
  (forall k, In k its -> get (w_db (handle w SaveNext)) k <> None)
  /\ (forall j k, (j < S i)%nat -> nth_error its j = Some k ->
                  complete_at (w_db (handle w SaveNext)) k)
  /\ ((S i < List.length its)%nat -> wizard_at its (S i) (handle w SaveNext)).
Proof.
  intros (Hi & Hx & Hd & Ht & Hr & Hp & Hc) Hlt.
  remember (handle w SaveNext) as w' eqn:Ew.
  assert (Hn : exists k, nth_error its i = Some k).
  { destruct (nth_error its i) eqn:N; [eauto|].
    apply nth_error_None in N. lia. }
  destruct Hn as (k & Hk).
  assert (Hin : In k its) by (eapply nth_error_In; eauto).
  destruct (get (w_db w) k) as [meta|] eqn:G; [|now apply Hp in Hin].
  assert (Hcur : current w = Some (k, meta)).
  { unfold current. rewrite Hi, Hx, Hk. unfold get in G. now rewrite G. }
  destruct (save_current_entry w k meta Hcur) as (w1 & S1 & G1).
  destruct (save_current_shape w w1 S1) as (I1 & X1 & D1 & _).
  destruct (save_current_vars w w1 S1) as (V1 & V2).
  assert (Hdb : w_db w' = w_db w1).
  { subst w'. simpl. now rewrite on_save_next_db, S1. }
  assert (Hres : forall q e, get (w_db w) q = Some e ->
                   exists e', get (w_db w') q = Some e' /\ resolved_from e e').
  { intros q e He. rewrite Hdb. eapply save_current_resolved; eauto. }
  assert (P' : forall q, In q its -> get (w_db w') q <> None).
  { intros q Hq. specialize (Hp q Hq).
    destruct (get (w_db w) q) as [e|] eqn:E; [|contradiction].
    destruct (Hres q e E) as (e' & -> & _). discriminate. }
  assert (C' : forall j q, (j < S i)%nat -> nth_error its j = Some q ->
                           complete_at (w_db w') q).
  { intros j q Hj Hq. destruct (Nat.eq_dec j i) as [->|Hne].
    - rewrite Hk in Hq. inversion Hq. subst q. rewrite Hdb.
      eexists. split; [exact G1|]. simpl.
      split; now apply truthy_filled.
    - apply (complete_at_resolved (w_db w)); [apply Hres|].
      apply (Hc j); [lia | assumption]. }
  split; [exact P'|]. split; [exact C'|].
  intros Hnext.
  assert (E : w' = load_current (with_index w1 (i + 1))).
  { subst w'. change (handle w SaveNext) with (on_save_next w).
    unfold on_save_next. rewrite S1. cbv beta iota. rewrite I1, X1, Hi, Hx.
    assert (L : (i <? List.length its - 1)%nat = true)
      by (apply Nat.ltb_lt; lia).
    now rewrite L. }
  destruct (load_current_vars (with_index w1 (i + 1))) as (T2 & R2).
  { simpl. now rewrite V1. }
  { simpl. now rewrite V2. }
  unfold wizard_at. repeat split; try assumption; rewrite E.
  - rewrite load_current_items. simpl. now rewrite I1.
  - rewrite load_current_index. simpl. lia.
  - rewrite load_current_destroyed. simpl. now rewrite D1.
  - exact T2.
  - exact R2.
Qed.

Lemma accept_all its m : forall i w,
  (i + S m = List.length its)%nat -> wizard_at its i w ->
  forall k, In k its ->
            complete_at (w_db (mainloop w (repeat SaveNext (S m)))) k.
Proof.
  induction m as [|m IH]; intros i w Hlen Hw k Hk.
  - destruct (accept_step its i w Hw) as (_ & C & _); [lia|].
    destruct Hw as (_ & _ & Hd & _). simpl. rewrite Hd.
    apply In_nth_error in Hk. destruct Hk as (j & Hj).
    apply (C j); [|assumption].
    assert (j < List.length its)%nat by (apply nth_error_Some; congruence).
    lia.
  - destruct (accept_step its i w Hw) as (_ & _ & N); [lia|].
    assert (Hd : w_destroyed w = false) by apply Hw.
    change (repeat SaveNext (S (S m))) with (SaveNext :: repeat SaveNext (S m)).
    cbn [mainloop]. rewrite Hd.
    apply (IH (S i)); [lia | apply N; lia | assumption].
Qed.

Lemma filter_nothing {A} (p : A -> bool) l :
  (forall x, In x l -> p x = false) -> filter p l = [].
Proof.
  intros H. induction l as [|x l IH]; simpl; [reflexivity|].
  rewrite (H x) by now left. apply IH. intros y Hy. apply H. now right.
Qed.

Lemma incomplete_is_pending cap db kv :
  In kv db -> incomplete (snd kv) = true -> In kv (pending cap db).
Proof.
  intros Hin Hi. rewrite pending_closed_form. apply filter_In.
  split; [|assumption].
  destruct (existsb (raises cap) (keys db)); [assumption|].
  eapply Permutation_in; [symmetry; apply stable_sort_perm | exact Hin].
Qed.

(** X18. Accepting what the wizard proposes for every pending entry, one
    submission each, leaves no entry pending. *)
Theorem accepting_proposals_completes (cap : nat) (db : StarwardMetaDB) :
  NoDup (keys db) ->
  pending cap
    (prompt_missing_meta_fields cap db
       (repeat SaveNext (List.length (pending cap db))))
  = [].
Proof.
  intros Hnd.
  set (evs := repeat SaveNext (List.length (pending cap db))).
  set (db' := prompt_missing_meta_fields cap db evs).
  assert (Hkeys : keys db' = keys db) by apply prompt_keys.
  assert (Hdone : forall k, In k (map fst (pending cap db)) ->
                            complete_at db' k).
  { subst db' evs. unfold prompt_missing_meta_fields.
    destruct (pending cap db) as [|p ps] eqn:E; [intros k []|].
    set (its := map fst (p :: ps)).
    assert (Hl : List.length (p :: ps) = S (List.length ps)) by reflexivity.
    rewrite Hl. apply (accept_all its (List.length ps) 0).
    - subst its. rewrite length_map. reflexivity.
    - unfold MetaFillWizard_init.
      set (w0 := {| w_db := db; w_items := its; w_index := 0;
                    w_var_type := "武器"; w_var_rank := "5";
                    w_destroyed := false |}).
      destruct (load_current_vars w0) as (T & R); [reflexivity..|].
      unfold wizard_at.
      rewrite load_current_items, load_current_index, load_current_destroyed,
        load_current_db.
      simpl. repeat split; try assumption.
      + intros k Hk. apply (pending_ids_present cap). now rewrite E.
      + intros j k Hj. lia. }
  rewrite pending_closed_form. apply filter_nothing.
  assert (Hall : forall kv, In kv db' -> incomplete (snd kv) = false).
  { intros [k m] Hin. simpl.
    assert (G : get db' k = Some m).
    { apply In_dict_get; [now rewrite Hkeys | assumption]. }
    destruct (in_dec string_dec k (map fst (pending cap db))) as [Hk|Hk].
    - destruct (Hdone k Hk) as (e & He & Ht & Hr).
      rewrite G in He. inversion He. subst e.
      unfold incomplete. rewrite Ht, Hr. simpl. apply andb_false_r.
    - destruct (incomplete m) eqn:I; [|reflexivity]. exfalso. apply Hk.
      unfold db' in G. rewrite prompt_frame in G by assumption.
      apply (in_map fst _ (k, m)).
      apply incomplete_is_pending; [|exact I].
      now apply dict_get_In. }
  intros kv Hin. apply Hall.
  destruct (existsb (raises cap) (keys db')); [assumption|].
  eapply Permutation_in; [apply stable_sort_perm | exact Hin].
Qed.

Lemma accepting_proposals_completes_witness :
  NoDup (keys mixed_store)
  /\ pending 4300
       (prompt_missing_meta_fields 4300 mixed_store
          (repeat SaveNext (List.length (pending 4300 mixed_store))))
     = [].
Proof.
  assert (Hnd : NoDup (keys mixed_store)).
  { simpl. repeat constructor; simpl; intuition discriminate. }
  split; [exact Hnd | exact (accepting_proposals_completes 4300 mixed_store Hnd)].
Defined.

Example accepting_proposals_mixed_store :
  prompt_missing_meta_fields 4300 mixed_store [SaveNext; SaveNext]
  = [("20", {| name := "Lisa"; item_type := Some "武器"; rank_type := Some "5";
               item_id := "20" |});
     ("3", {| name := "Bow"; item_type := Some "武器"; rank_type := Some "3";
              item_id := "3" |});
     ("7", {| name := "Amber"; item_type := Some "角色"; rank_type := Some "5";
              item_id := "7" |})].
Proof. reflexivity. Qed.

(* ================================================================== *)
(** ** More on the dialect readers                                     *)
(* ================================================================== *)

(** X19. Whatever is wrong with a document, both readers report it the same
    way: a document is either read, or refused with a [RuntimeError] that
    carries the reader's message and is raised from the validation error. *)
Theorem readers_wrap_every_error (lax_int : json -> option Z) (data : json) :
  ((exists doc, read_snap_hutao_uigf4 lax_int data = inr doc)
   \/ read_snap_hutao_uigf4 lax_int data
      = inl (RuntimeErrorFrom "Snap Hutao UIGF 验证失败: " ValidationError))
  /\ ((exists doc, read_starward_uigf4 lax_int data = inr doc)
      \/ read_starward_uigf4 lax_int data
         = inl (RuntimeErrorFrom "Starward UIGF 验证失败: " ValidationError)).
Proof.
  split.
  - unfold read_snap_hutao_uigf4, wrap_validation.
    destruct (validate_SnapHutaoUIGF lax_int data) as [e0|a] eqn:E;
      [right | left; now exists a].
    now rewrite (validate_SnapHutaoUIGF_only lax_int data e0 E).
  - unfold read_starward_uigf4, wrap_validation.
    destruct (validate_StarwardUIGF lax_int data) as [e0|a] eqn:E;
      [right | left; now exists a].
    now rewrite (validate_StarwardUIGF_only lax_int data e0 E).
Qed.

Lemma dict_get_snoc_other {V} (o : dict V) k (v : V) k' :
  k <> k' -> dict_get (o ++ [(k, v)]) k' = dict_get o k'.
Proof.
  intros Hne. rewrite dict_get_app. simpl.
  apply String.eqb_neq in Hne. rewrite Hne. now destruct (dict_get o k').
Qed.

Lemma undeclared_snoc declared (o : dict json) k v :
  existsb (String.eqb k) declared = false ->
  undeclared declared (o ++ [(k, v)]) = undeclared declared o ++ [(k, v)].
Proof.
  intros H. unfold undeclared. rewrite filter_app. simpl. now rewrite H.
Qed.

(** X20. A key the Vendor-B record model does not declare never makes a
    record invalid: the record is read as before, with the key and its
    value added to the undeclared extras. *)
Theorem unknown_key_is_captured (o : dict json) (k : string) (v : json)
    (r : SnapHutaoRecord) :
  existsb (String.eqb k) declared_snap_fields = false ->
  dict_get o k = None ->
  validate_SnapHutaoRecord (JObj o) = inr r ->
  validate_SnapHutaoRecord (JObj (o ++ [(k, v)]))
  = inr (with_model_extra r (sh_model_extra r ++ [(k, v)])).
Proof.
  intros Hd _ Hr.
  assert (Hne : forall k', In k' declared_snap_fields -> k <> k').
  { intros k' Hin ->. pose proof (existsb_false_forall _ _ Hd k' Hin) as E.
    now rewrite String.eqb_refl in E. }
  unfold declared_snap_fields in Hd.
  unfold validate_SnapHutaoRecord in *. cbv beta iota in *.
  unfold field_opt_str, field_dict_default in *.
  rewrite (undeclared_snoc _ o k v Hd).
  rewrite !dict_get_snoc_other by (apply Hne; simpl; tauto).
  revert Hr.
  repeat match goal with
         | |- context [match dict_get o ?f with _ => _ end] =>
             destruct (dict_get o f) as [[]|]; simpl; try discriminate
         end;
    intros H; inversion H; reflexivity.
Qed.

Lemma unknown_key_is_captured_witness :
  validate_SnapHutaoRecord
    (JObj ([("item_id", JStr "10"); ("gacha_type", JStr "301")]
           ++ [("name", JStr "Aqua Simulacra")]))
  = inr {| sh_uigf_gacha_type := None; sh_gacha_type := Some "301";
           sh_item_id := Some "10"; sh_time := None; sh_id := None;
           sh_extra := [];
           sh_model_extra := [("name", JStr "Aqua Simulacra")] |}.
Proof.
  exact (unknown_key_is_captured
           [("item_id", JStr "10"); ("gacha_type", JStr "301")]
           "name" (JStr "Aqua Simulacra")
           {| sh_uigf_gacha_type := None; sh_gacha_type := Some "301";
              sh_item_id := Some "10"; sh_time := None; sh_id := None;
              sh_extra := []; sh_model_extra := [] |}
           eq_refl eq_refl eq_refl).
Defined.

(* ================================================================== *)
(** ** More on the converter                                           *)
(* ================================================================== *)

Lemma find_existsb {A} (p : A -> bool) l :
  existsb p l = match find p l with Some _ => true | None => false end.
Proof.
  induction l as [|x l IH]; simpl; [reflexivity|].
  destruct (p x); [reflexivity | exact IH].
Qed.

(** X21. The conversion raises exactly when some record of the document
    has no id, an id the store lacks, or a store entry whose category or
    rarity is [None]. *)
Theorem convert_raises_iff (doc : SnapHutaoUIGF) (db : StarwardMetaDB) :
  is_error (convert_snap_hutao_to_starward doc db)
  = existsb (unresolved db) (all_records doc).
Proof.
  rewrite convert_closed_form, find_existsb.
  now destruct (find (unresolved db) (all_records doc)).
Qed.

Lemma find_first {A} (p : A -> bool) pre x post :
  existsb p pre = false -> p x = true -> find p (pre ++ x :: post) = Some x.
Proof.
  intros Hpre Hx. rewrite find_app_first.
  rewrite find_existsb in Hpre.
  destruct (find p pre); [discriminate|]. simpl. now rewrite Hx.
Qed.

(** X22. The error names the first record, in document order, that fails
    the check; [None] appears in the message when that record has no id. *)
Theorem convert_names_first_failure (doc : SnapHutaoUIGF)
    (db : StarwardMetaDB) (pre post : list SnapHutaoRecord)
    (bad : SnapHutaoRecord) :
  all_records doc = pre ++ bad :: post ->
  existsb (unresolved db) pre = false ->
  unresolved db bad = true ->
  convert_snap_hutao_to_starward doc db
  = raise (RuntimeError (unresolved_message (sh_item_id bad))).
Proof.
  intros Hs Hpre Hbad.
  now rewrite convert_closed_form, Hs, (find_first _ _ _ _ Hpre Hbad).
Qed.

Lemma convert_names_first_failure_witness :
  convert_snap_hutao_to_starward two_user_doc aqua_db
  = raise (RuntimeError (unresolved_message (Some "99"))).
Proof.
  exact (convert_names_first_failure two_user_doc aqua_db
           [snap_record (Some "10")] [snap_record None]
           (snap_record (Some "99")) eq_refl eq_refl eq_refl).
Defined.

(** X23. The header of a converted document is the input header with
    [export_app] set to the converter's mark and every other key as it was;
    the lists of the two other titles are present and empty, and there are
    as many user bundles as in the input. *)
Theorem convert_header (doc : SnapHutaoUIGF) (db : StarwardMetaDB)
    (out : StarwardUIGF) :
  convert_snap_hutao_to_starward doc db = inr out ->
  dict_get (su_info out) "export_app" = Some (JStr "Converted from Snap Hutao")
  /\ (forall k, k <> "export_app" ->
                dict_get (su_info out) k = dict_get (shu_info doc) k)
  /\ su_hkrpg out = Some [] /\ su_nap out = Some []
  /\ List.length (su_hk4e out) = List.length (shu_hk4e doc).
Proof.
  rewrite convert_closed_form.
  destruct (find (unresolved db) (all_records doc)); [discriminate|].
  intros H. inversion H. simpl. repeat split.
  - apply dict_get_set_eq.
  - intros k Hk. apply dict_get_set_ne. congruence.
  - apply length_map.
Qed.

Lemma convert_header_witness :
  exists out,
    convert_snap_hutao_to_starward aqua_doc aqua_db = inr out
    /\ dict_get (su_info out) "export_app"
       = Some (JStr "Converted from Snap Hutao").
Proof.
  eexists. split; [reflexivity|].
  exact (proj1 (convert_header aqua_doc aqua_db _ eq_refl)).
Defined.

Lemma checked_meta_agree db1 db2 srec :
  (forall i, sh_item_id srec = Some i -> get db1 i = get db2 i) ->
  checked_meta db1 srec = checked_meta db2 srec.
Proof.
  intros H. unfold checked_meta.
  destruct (sh_item_id srec) as [i|]; [|reflexivity].
  now rewrite (H i eq_refl).
Qed.

Lemma find_ext_in {A} (p q : A -> bool) l :
  (forall x, In x l -> p x = q x) -> find p l = find q l.
Proof.
  intros H. induction l as [|x l IH]; simpl; [reflexivity|].
  rewrite (H x) by now left. destruct (q x); [reflexivity|].
  apply IH. intros y Hy. apply H. now right.
Qed.

Lemma flat_map_ext_in {A B} (f g : A -> list B) l :
  (forall x, In x l -> f x = g x) -> flat_map f l = flat_map g l.
Proof.
  intros H. induction l as [|x l IH]; simpl; [reflexivity|].
  rewrite (H x) by now left. f_equal. apply IH. intros y Hy. apply H.
  now right.
Qed.

(** X24. The conversion looks at the store only under the ids the
    document's records carry: two stores that agree on those ids give the
    same result, error or document. *)
Theorem convert_uses_only_record_ids (doc : SnapHutaoUIGF)
    (db1 db2 : StarwardMetaDB) :
  (forall srec i, In srec (all_records doc) -> sh_item_id srec = Some i ->
                  get db1 i = get db2 i) ->
  convert_snap_hutao_to_starward doc db1
  = convert_snap_hutao_to_starward doc db2.
Proof.
  intros H. rewrite !convert_closed_form.
  assert (Hc : forall srec, In srec (all_records doc) ->
                            checked_meta db1 srec = checked_meta db2 srec).
  { intros srec Hin. apply checked_meta_agree. intros i. now apply H. }
  rewrite (find_ext_in (unresolved db1) (unresolved db2)).
  2:{ intros x Hx. unfold unresolved. now rewrite Hc. }
  destruct (find (unresolved db2) (all_records doc)); [reflexivity|].
  do 2 f_equal. apply map_ext_in. intros user Hu.
  unfold converted_bundle. f_equal. unfold converted_list.
  apply flat_map_ext_in. intros srec Hs. rewrite Hc; [reflexivity|].
  unfold all_records. apply in_flat_map. now exists user.
Qed.

Lemma convert_uses_only_record_ids_witness :
  convert_snap_hutao_to_starward aqua_doc aqua_db
  = convert_snap_hutao_to_starward aqua_doc (aqua_db ++ sword_store).
Proof.
  apply (convert_uses_only_record_ids aqua_doc aqua_db (aqua_db ++ sword_store)).
  intros srec i [<-|[]] Hi. inversion Hi. reflexivity.
Defined.

(* ================================================================== *)
(** ** The two runs, end to end                                        *)
(* ================================================================== *)

(** X25. The converter works from the store the reconciliation run ended
    with: run on the store file [output_starward_db] wrote and on an
    export, it fails as the export's reader fails, and otherwise converts
    the export's records against the saved store. *)
Theorem convert_file_reads_saved_store (lax_int : json -> option Z)
    (db : StarwardMetaDB) (meta_db_file snap_file : json) :
  NoDup (keys db) ->
  output_starward_db db = inr meta_db_file ->
  convert_snap_file_with_meta lax_int meta_db_file snap_file
  = bind (read_snap_hutao_uigf4 lax_int snap_file)
      (fun snap => convert_snap_hutao_to_starward snap db).
Proof.
  intros Hnd Ho. rewrite output_starward_db_cases in Ho.
  destruct (store_is_text db); [|discriminate].
  inversion Ho. subst meta_db_file.
  unfold convert_snap_file_with_meta.
  now rewrite read_model_dump.
Qed.

(** The export has a record of the id 10, which the saved store resolves;
    the record is converted with the saved name, category and rarity. *)
Lemma convert_file_reads_saved_store_witness :
  NoDup (keys aqua_db)
  /\ output_starward_db aqua_db = inr aqua_file
  /\ convert_snap_file_with_meta int_only aqua_file aqua_export
     = bind (read_snap_hutao_uigf4 int_only aqua_export)
         (fun snap => convert_snap_hutao_to_starward snap aqua_db)
  /\ bind (read_snap_hutao_uigf4 int_only aqua_export)
       (fun snap => convert_snap_hutao_to_starward snap aqua_db)
     = convert_snap_hutao_to_starward aqua_doc aqua_db.
Proof.
  assert (Hnd : NoDup (keys aqua_db)).
  { simpl. repeat constructor; simpl; intuition discriminate. }
  split; [exact Hnd|]. split; [reflexivity|]. split; [|reflexivity].
  exact (convert_file_reads_saved_store int_only aqua_db aqua_file aqua_export
           Hnd eq_refl).
Defined.

Lemma pipeline_unfold lax cap mapping starward meta evs db' :
  merge_mapping_and_starward lax cap mapping starward meta evs = inr db' ->
  exists uigf,
    read_starward_uigf4 lax starward = inr uigf
    /\ db'
       = prompt_missing_meta_fields cap
           (fold_left add_from_record (all_starward_records uigf)
              (merge_meta_db
                 (match bind meta read_starward_meta_db with
                  | inr db => db
                  | inl _ => []
                  end)
                 (build_meta_db_from_mapping mapping)))
           evs.
Proof.
  unfold merge_mapping_and_starward.
  destruct (read_starward_uigf4 lax starward) as [e|uigf]; [discriminate|].
  cbn [bind].
  match goal with
  | |- context [output_starward_db ?d] =>
      destruct (output_starward_db d); [discriminate|]
  end.
  intros H. inversion H. exists uigf. split; [reflexivity|].
  unfold all_starward_records. now rewrite fold_left_flat_map.
Qed.

Lemma pipeline_kept lax cap mapping starward meta evs db' iid e :
  merge_mapping_and_starward lax cap mapping starward meta evs = inr db' ->
  get (merge_meta_db
         (match bind meta read_starward_meta_db with
          | inr db => db
          | inl _ => []
          end)
         (build_meta_db_from_mapping mapping)) iid = Some e ->
  exists e', get db' iid = Some e' /\ kept e e'.
Proof.
  intros H G. destruct (pipeline_unfold _ _ _ _ _ _ _ H) as (uigf & _ & ->).
  destruct (fold_add_kept (all_starward_records uigf) _ iid e G)
    as (e1 & G1 & K1).
  destruct (prompt_gui_resolved cap _ evs iid e1 G1) as (e2 & G2 & K2 & _).
  exists e2. split; [assumption|]. eapply kept_trans; eauto.
Qed.

(** X26. The persisted store has priority in a reconciliation run: what a
    field of a stored entry holds, if not empty, is still there in the
    store the run writes, whatever the mapping, the export and the operator
    offer. *)
Theorem reconciliation_keeps_stored_values (lax_int : json -> option Z)
    (cap : nat) (mapping_file : dict mapping_value) (starward_file : json)
    (meta_file : json) (evs : list event) (base db' : StarwardMetaDB)
    (iid : string) (e : StarwardMetaItem) :
  read_starward_meta_db meta_file = inr base ->
  get base iid = Some e ->
  merge_mapping_and_starward lax_int cap mapping_file starward_file
    (inr meta_file) evs = inr db' ->
  exists e', get db' iid = Some e' /\ kept e e'.
Proof.
  intros Hb He H.
  destruct (merge_kept (build_meta_db_from_mapping mapping_file) base iid e He)
    as (e1 & G1 & K1).
  destruct (pipeline_kept _ _ _ _ _ _ _ iid e1 H) as (e2 & G2 & K2).
  - simpl. now rewrite Hb.
  - exists e2. split; [assumption|]. eapply kept_trans; eauto.
Qed.

Lemma reconciliation_keeps_stored_values_witness :
  let e := {| name := "Sword"; item_type := None; rank_type := Some "4";
              item_id := "1" |} in
  exists db',
    merge_mapping_and_starward int_only 4300 sword_mapping bow_export
      (inr sword_file) [SaveNext] = inr db'
    /\ exists e', get db' "1" = Some e' /\ kept e e'.
Proof.
  intros e. eexists. split; [reflexivity|].
  apply (reconciliation_keeps_stored_values int_only 4300 sword_mapping
           bow_export sword_file [SaveNext]
           sword_store _ "1" e); reflexivity.
Defined.

Example reconciliation_run :
  merge_mapping_and_starward int_only 4300 sword_mapping bow_export
    (inr sword_file) [SaveNext]
  = inr [("1", {| name := "Sword"; item_type := Some "武器";
                  rank_type := Some "4"; item_id := "1" |});
         ("2", {| name := "Sword"; item_type := Some "角色";
                  rank_type := Some "5"; item_id := "2" |});
         ("3", {| name := "Bow"; item_type := None; rank_type := None;
                  item_id := "3" |})].
Proof. reflexivity. Qed.

Lemma build_meta_db_from_mapping_NoDup m :
  NoDup (keys (build_meta_db_from_mapping m)).
Proof.
  rewrite build_meta_db_from_mapping_map. unfold keys. rewrite map_map.
  apply id_to_name_NoDup.
Qed.

(** X27. The mapping comes before the export in a reconciliation run: an
    id the mapping lists gets the mapping's name (that of its last listing)
    when the stored entry has none, whatever name the export's records
    carry for it. *)
Theorem reconciliation_prefers_mapping_name (lax_int : json -> option Z)
    (cap : nat) (m1 m2 : dict mapping_value) (nm : string)
    (v : mapping_value) (i : id_value) (starward_file : json)
    (meta_file : result json) (evs : list event) (db' : StarwardMetaDB) :
  In i (ids_of v) ->
  (forall nm', ~ listed m2 (str_of_id i) nm') ->
  nm <> "" ->
  (forall base t,
      bind meta_file read_starward_meta_db = inr base ->
      get base (str_of_id i) = Some t -> name t = "") ->
  merge_mapping_and_starward lax_int cap (m1 ++ (nm, v) :: m2) starward_file
    meta_file evs = inr db' ->
  exists e', get db' (str_of_id i) = Some e' /\ name e' = nm.
Proof.
  intros Hi Hlast Hnm Hbase H.
  set (iid := str_of_id i) in *.
  set (mdb := build_meta_db_from_mapping (m1 ++ (nm, v) :: m2)).
  set (s := {| name := nm; item_type := None; rank_type := None;
               item_id := iid |}).
  assert (Gs : get mdb iid = Some s)
    by (apply build_get_last_listing; assumption).
  assert (Hin : In (iid, s) mdb) by (now apply dict_get_In).
  pose proof (build_meta_db_from_mapping_NoDup (m1 ++ (nm, v) :: m2)) as Hnd.
  set (base := match bind meta_file read_starward_meta_db with
               | inr db => db
               | inl _ => []
               end).
  pose proof (merge_get_present mdb base iid s Hnd Hin) as Gm.
  destruct (pipeline_kept _ _ _ _ _ _ _ iid _ H Gm) as (e' & G' & K).
  exists e'. split; [assumption|].
  assert (N : name (merged_entry iid (get base iid) s) = nm).
  { destruct (get base iid) as [t|] eqn:Gb; simpl; [|reflexivity].
    assert (Ht : name t = "").
    { subst base. destruct (bind meta_file read_starward_meta_db) as [e0|b]
        eqn:B; [discriminate|]. now apply (Hbase b). }
    now rewrite Ht. }
  destruct K as (_ & Kn & _). rewrite Kn; [exact N|].
  rewrite N. now apply truthy_str_true.
Qed.

Lemma reconciliation_prefers_mapping_name_witness :
  exists db',
    merge_mapping_and_starward int_only 4300
      ([("Sword", ManyIds [IdInt 1; IdInt 2])]
       ++ ("Blade", OneId (IdStr "1")) :: [("Bow", OneId (IdInt 3))])
      bow_export (inl ValueError) [] = inr db'
    /\ exists e', get db' (str_of_id (IdStr "1")) = Some e' /\ name e' = "Blade".
Proof.
  eexists. split; [reflexivity|].
  apply (reconciliation_prefers_mapping_name int_only 4300
           [("Sword", ManyIds [IdInt 1; IdInt 2])] [("Bow", OneId (IdInt 3))]
           "Blade" (OneId (IdStr "1")) (IdStr "1") bow_export (inl ValueError)
           []).
  - now left.
  - intros nm' (v' & i' & Hin & Hi' & Hs).
    destruct Hin as [Heq|[]]. inversion Heq. subst.
    destruct Hi' as [<-|[]]. vm_compute in Hs. discriminate.
  - discriminate.
  - intros base t Hb. discriminate.
  - reflexivity.
Defined.

(** X28. The wizard never offers an entry without a name, so it cannot
    unblock a conversion that fails on one: if the store has a nameless
    entry without category, a document with a record of that id is refused
    after any session of the wizard, as it was before. *)
Theorem nameless_entry_blocks_conversion (cap : nat) (db : StarwardMetaDB)
    (evs : list event) (doc : SnapHutaoUIGF) (srec : SnapHutaoRecord)
    (iid : string) (e : StarwardMetaItem) :
  NoDup (keys db) ->
  get db iid = Some e -> name e = "" -> item_type e = None ->
  In srec (all_records doc) -> sh_item_id srec = Some iid ->
  is_error
    (convert_snap_hutao_to_starward doc
       (prompt_missing_meta_fields cap db evs)) = true.
Proof.
  intros Hnd He Hn Ht Hin Hi.
  assert (Hp : ~ In iid (map fst (pending cap db))).
  { intros H. apply in_map_iff in H. destruct H as ([k m] & Hk & Hm).
    simpl in Hk. subst k.
    pose proof (pending_in_store cap db _ Hm) as Hdb.
    apply (In_dict_get _ _ _ Hnd) in Hdb. unfold get in He.
    rewrite He in Hdb. inversion Hdb. subst m.
    rewrite pending_closed_form in Hm. apply filter_In in Hm.
    destruct Hm as [_ Hm]. simpl in Hm. unfold incomplete in Hm.
    rewrite Hn in Hm. simpl in Hm. rewrite andb_false_r in Hm.
    discriminate. }
  rewrite convert_closed_form.
  destruct (find (unresolved (prompt_missing_meta_fields cap db evs))
              (all_records doc)) eqn:F; [reflexivity|].
  apply (find_none _ _ F) in Hin. unfold unresolved, checked_meta in Hin.
  rewrite Hi, (prompt_frame cap db evs iid Hp), He, Ht in Hin.
  discriminate.
Qed.

Lemma nameless_entry_blocks_conversion_witness :
  let db := [("10", {| name := ""; item_type := None; rank_type := Some "5";
                       item_id := "10" |});
             ("7", {| name := "Amber"; item_type := None; rank_type := None;
                      item_id := "7" |})] in
  is_error
    (convert_snap_hutao_to_starward aqua_doc
       (prompt_missing_meta_fields 4300 db [SaveNext; SaveNext])) = true.
Proof.
  intros db.
  apply (nameless_entry_blocks_conversion 4300 db [SaveNext; SaveNext]
           aqua_doc aqua_record "10"
           {| name := ""; item_type := None; rank_type := Some "5";
              item_id := "10" |}).
  - simpl. repeat constructor; simpl; intuition discriminate.
  - reflexivity.
  - reflexivity.
  - reflexivity.
  - now left.
  - reflexivity.
Defined.

(* ================================================================== *)
(** ** More on the console fallback                                    *)
(* ================================================================== *)

Lemma console_wrote_refl e : console_wrote e e.
Proof. unfold console_wrote. tauto. Qed.

Lemma console_wrote_trans e1 e2 e3 :
  console_wrote e1 e2 -> console_wrote e2 e3 -> console_wrote e1 e3.
Proof.
  intros (N1 & I1 & T1 & R1) (N2 & I2 & T2 & R2).
  unfold console_wrote. repeat split; try congruence.
  - destruct T1 as [T1|[E1 L1]], T2 as [T2|[E2 L2]].
    + left. congruence.
    + right. rewrite <- T1. now split.
    + right. rewrite T2. now split.
    + exfalso.
      pose proof (in_choices_truthy (item_type e2) ITEM_TYPES) as H.
      destruct (item_type e2) as [x|]; [|discriminate]. simpl in *.
      rewrite H in E2; [discriminate | repeat constructor | assumption].
  - destruct R1 as [R1|[E1 L1]], R2 as [R2|[E2 L2]].
    + left. congruence.
    + right. rewrite <- R1. now split.
    + right. rewrite R2. now split.
    + exfalso.
      pose proof (in_choices_truthy (rank_type e2) RANK_CHOICES) as H.
      destruct (rank_type e2) as [x|]; [|discriminate]. simpl in *.
      rewrite H in E2; [discriminate | repeat constructor | assumption].
Qed.

Lemma ask_item_type_listed inputs : forall x rest,
  ask read_item_type inputs = (inr (Some x), rest) ->
  in_list (Some x) ITEM_TYPES = true.
Proof.
  induction inputs as [|line inputs IH]; intros x rest; simpl; [discriminate|].
  unfold read_item_type at 1.
  destruct (strip line =? ""); [discriminate|].
  destruct (strip line =? "1");
    [intros H; inversion H; reflexivity|].
  destruct (strip line =? "2");
    [intros H; inversion H; reflexivity|].
  apply IH.
Qed.

Lemma ask_rank_type_listed inputs : forall x rest,
  ask read_rank_type inputs = (inr (Some x), rest) ->
  in_list (Some x) RANK_CHOICES = true.
Proof.
  induction inputs as [|line inputs IH]; intros x rest; simpl; [discriminate|].
  unfold read_rank_type at 1.
  destruct (strip line =? ""); [discriminate|].
  destruct (existsb (String.eqb (strip line)) RANK_CHOICES) eqn:E;
    [|apply IH].
  intros H. inversion H. subst. exact E.
Qed.

Lemma set_console_wrote db k t t' iid e :
  dict_get db k = Some t -> console_wrote t t' ->
  get db iid = Some e ->
  exists e', get (dict_set db k t') iid = Some e' /\ console_wrote e e'.
Proof.
  unfold get. intros Hk Hr He.
  destruct (String.eqb_spec k iid) as [->|Hne].
  - rewrite dict_get_set_eq. exists t'. split; [reflexivity|]. congruence.
  - rewrite dict_get_set_ne by assumption. exists e. split; [assumption|].
    apply console_wrote_refl.
Qed.

Lemma set_twice_console_wrote db k meta m1 m2 iid e :
  dict_get db k = Some meta ->
  console_wrote meta m1 -> console_wrote m1 m2 ->
  get db iid = Some e ->
  exists e',
    get (dict_set (dict_set db k m1) k m2) iid = Some e'
    /\ console_wrote e e'.
Proof.
  intros Hk R1 R2 He.
  destruct (set_console_wrote db k meta m1 iid e Hk R1 He) as (e1 & H1 & Q1).
  destruct (set_console_wrote (dict_set db k m1) k m1 m2 iid e1
              (dict_get_set_eq _ _ _) R2 H1) as (e2 & H2 & Q2).
  exists e2. split; [assumption|]. eapply console_wrote_trans; eauto.
Qed.

Lemma console_item_type_written meta x :
  truthy (item_type meta) = false -> in_list (Some x) ITEM_TYPES = true ->
  console_wrote meta (set_item_type meta (Some x)).
Proof.
  intros E L. unfold console_wrote. simpl. repeat split; auto.
Qed.

Lemma console_rank_type_written meta x :
  truthy (rank_type meta) = false -> in_list (Some x) RANK_CHOICES = true ->
  console_wrote meta (set_rank_type meta (Some x)).
Proof.
  intros E L. unfold console_wrote. simpl. repeat split; auto.
Qed.

Lemma cli_item_console_wrote db k inputs iid e :
  get db iid = Some e ->
  exists e',
    get (fst (fst (cli_item db k inputs))) iid = Some e'
    /\ console_wrote e e'.
Proof.
  intros He. unfold cli_item.
  destruct (dict_get db k) as [meta|] eqn:Hk;
    [|exists e; split; [assumption | apply console_wrote_refl]].
  destruct (truthy (item_type meta)) eqn:T1; simpl.
  - destruct (truthy (rank_type meta)) eqn:T2; simpl.
    + eapply set_twice_console_wrote; eauto using console_wrote_refl.
    + destruct (ask read_rank_type inputs) as [[ex|[y|]] inputs2] eqn:A2;
        simpl.
      * eapply set_console_wrote; eauto using console_wrote_refl.
      * eapply set_twice_console_wrote;
          eauto using console_wrote_refl, console_rank_type_written,
            ask_rank_type_listed.
      * eapply set_twice_console_wrote; eauto using console_wrote_refl.
  - destruct (ask read_item_type inputs) as [[ex|[x|]] inputs1] eqn:A1; simpl.
    + exists e. split; [assumption | apply console_wrote_refl].
    + pose proof (ask_item_type_listed _ _ _ A1) as L1.
      destruct (truthy (rank_type meta)) eqn:T2; simpl.
      * eapply set_twice_console_wrote;
          eauto using console_wrote_refl, console_item_type_written.
      * destruct (ask read_rank_type inputs1) as [[ex|[y|]] inputs2] eqn:A2;
          simpl.
        -- eapply set_console_wrote; eauto using console_item_type_written.
        -- eapply set_twice_console_wrote;
             eauto using console_item_type_written, console_rank_type_written,
               ask_rank_type_listed.
        -- eapply set_twice_console_wrote;
             eauto using console_wrote_refl, console_item_type_written.
    + destruct (truthy (rank_type meta)) eqn:T2; simpl.
      * eapply set_twice_console_wrote; eauto using console_wrote_refl.
      * destruct (ask read_rank_type inputs1) as [[ex|[y|]] inputs2] eqn:A2;
          simpl.
        -- eapply set_console_wrote; eauto using console_wrote_refl.
        -- eapply set_twice_console_wrote;
             eauto using console_wrote_refl, console_rank_type_written,
               ask_rank_type_listed.
        -- eapply set_twice_console_wrote; eauto using console_wrote_refl.
Qed.

Lemma cli_loop_console_wrote its : forall db inputs iid e,
  get db iid = Some e ->
  exists e',
    get (fst (cli_loop db its inputs)) iid = Some e' /\ console_wrote e e'.
Proof.
  induction its as [|k its IH]; intros db inputs iid e He; simpl.
  - exists e. split; [assumption | apply console_wrote_refl].
  - destruct (cli_item_console_wrote db k inputs iid e He) as (e1 & H1 & R1).
    destruct (cli_item db k inputs) as [[db1 inputs1] [ex|]]; simpl in *.
    + now exists e1.
    + destruct (IH db1 inputs1 iid e1 H1) as (e2 & H2 & R2).
      exists e2. split; [assumption|]. eapply console_wrote_trans; eauto.
Qed.

(** X29. The console fallback writes nothing but the listed choices: after
    it, whether it ended normally or on the end of the input, a category is
    the one the entry had or, where it had none, one of the two listed
    categories; a rarity is the one it had or, where it had none, one of
    "1" to "5"; names and ids are as before. *)
Theorem console_writes_listed_values (cap : nat) (db : StarwardMetaDB)
    (inputs : list string) (iid : string) (e : StarwardMetaItem) :
  get db iid = Some e ->
  exists e',
    get (fst (prompt_missing_meta_fields_cli cap db inputs)) iid = Some e'
    /\ console_wrote e e'.
Proof.
  intros He. unfold prompt_missing_meta_fields_cli.
  now apply cli_loop_console_wrote.
Qed.

Lemma console_writes_listed_values_witness :
  exists e',
    get (fst (prompt_missing_meta_fields_cli 4300 mixed_store
                ["3"; "2"; "9"; " 4 "; ""])) "20" = Some e'
    /\ console_wrote
         {| name := "Lisa"; item_type := None; rank_type := None;
            item_id := "20" |} e'.
Proof.
  apply (console_writes_listed_values 4300 mixed_store
           ["3"; "2"; "9"; " 4 "; ""] "20"
           {| name := "Lisa"; item_type := None; rank_type := None;
              item_id := "20" |}).
  reflexivity.
Defined.

Example console_session :
  prompt_missing_meta_fields_cli 4300 mixed_store ["3"; "2"; "9"; " 4 "; ""]
  = ([("20", {| name := "Lisa"; item_type := Some "角色";
                rank_type := Some "4"; item_id := "20" |});
      ("3", {| name := "Bow"; item_type := Some "武器"; rank_type := Some "3";
               item_id := "3" |});
      ("7", {| name := "Amber"; item_type := Some "角色"; rank_type := Some "3";
               item_id := "7" |})],
     None).
Proof. reflexivity. Qed.
